(** * InsideSales-RT: meeting composer, e-mail composer and settings shell

    A shallow embedding of three React components
    ([SendEmailModal], [MeetingModal], [Settings]) and the properties their
    specification states about them.

    Conventions of the embedding.
    - A JavaScript string is represented by the sequence of its UTF-8 bytes
      ([string]).  All patterns, separators and timestamps handled by the
      code are ASCII, so matching, replacing and percent-encoding act on
      these bytes exactly as they act on the UTF-16 string.
    - A value that may be [undefined] or [null] is an [option].
    - An [await]ed backend call is a parameter of the handler: the response
      the backend gives.  Everything observable that a handler does (toasts,
      console output, backend requests, callbacks of the parent, windows
      opened) is appended to the [log] of the component's world.
    - [try]/[catch]/[finally] are the combinators of a small exception and
      state monad. *)

From Stdlib Require Import ZArith List String Ascii Bool Lia DecimalString.
Import ListNotations.
Open Scope string_scope.

(* ================================================================== *)
(** * Part I: definitions                                              *)
(* ================================================================== *)

(** ** JavaScript runtime: strings *)

Module Js.

(** Truthiness of a string: only the empty string is falsy. *)
Definition truthy (s : string) : bool :=
  match s with
  | EmptyString => false
  | String _ _ => true
  end.

(** [x || d] for a string [x]. *)
Definition or_else (x d : string) : string :=
  if truthy x then x else d.

(** Truthiness of an optional string ([undefined], [null] and the empty
    string are falsy). *)
Definition truthy_opt (x : option string) : bool :=
  match x with
  | Some s => truthy s
  | None => false
  end.

(** [x || d] for an optional string [x]. *)
Definition opt_or_else (x : option string) (d : string) : string :=
  match x with
  | Some s => or_else s d
  | None => d
  end.

(** [x || null] for a string [x]. *)
Definition or_null (x : string) : option string :=
  if truthy x then Some x else None.

Fixpoint starts_with (p s : string) : bool :=
  match p with
  | EmptyString => true
  | String a p' =>
      match s with
      | EmptyString => false
      | String b s' => if Ascii.eqb a b then starts_with p' s' else false
      end
  end.

Fixpoint drop (n : nat) (s : string) : string :=
  match n with
  | O => s
  | S k =>
      match s with
      | EmptyString => EmptyString
      | String _ s' => drop k s'
      end
  end.

(** [s.slice(0, n)]. *)
Definition slice0 (n : nat) (s : string) : string := substring 0 n s.

Fixpoint has_char (c : ascii) (s : string) : bool :=
  match s with
  | EmptyString => false
  | String a s' => if Ascii.eqb a c then true else has_char c s'
  end.

Definition snoc (s : string) (c : ascii) : string :=
  s ++ String c EmptyString.

(** [GetSubstitution(matched, str, position, captures, undefined, template)]
    of ECMA-262 for a regular expression without capture groups: [before]
    is [str] up to [position], [after] is [str] behind the match.  With no
    captures, [$n], [$nn] and [$<] stand for themselves, so the only active
    patterns are [$$], [$&], [$`] and [$']. *)
Fixpoint GetSubstitution (matched before after template : string) : string :=
  match template with
  | EmptyString => EmptyString
  | String c tl =>
      if Ascii.eqb c "$" then
        match tl with
        | EmptyString => String c EmptyString
        | String d r =>
            if Ascii.eqb d "$" then
              String "$" (GetSubstitution matched before after r)
            else if Ascii.eqb d "&" then
              matched ++ GetSubstitution matched before after r
            else if Ascii.eqb d "`" then
              before ++ GetSubstitution matched before after r
            else if Ascii.eqb d "'" then
              after ++ GetSubstitution matched before after r
            else
              String c (GetSubstitution matched before after tl)
        end
      else String c (GetSubstitution matched before after tl)
  end.

(** [str.replace(/pat/g, template)] for a non-empty literal pattern [pat].
    The scan goes left to right over [s]; [before] is the part of the
    original string already passed; [skip] counts the characters of the
    current match still to be passed over (matches do not overlap: after a
    match [lastIndex] is its end). *)
Fixpoint replace_from (pat template : string) (skip : nat)
    (before s : string) : string :=
  match s with
  | EmptyString => EmptyString
  | String c rest =>
      match skip with
      | S k => replace_from pat template k (snoc before c) rest
      | O =>
          if starts_with pat s then
            GetSubstitution pat before (drop (length pat) s) template
              ++ replace_from pat template (length pat - 1) (snoc before c) rest
          else
            String c (replace_from pat template 0 (snoc before c) rest)
      end
  end.

Definition replace_g (pat template s : string) : string :=
  replace_from pat template 0 "" s.

(** An error value, as thrown or returned in [{ error }]: only its
    [message] is read by the code. *)
Record JsError : Type := mkError { message : option string }.

(** The outcome of an awaited backend call: the promise rejects, or it
    resolves to [{ data, error }]. *)
Inductive Response (A : Type) : Type :=
| Rejected (e : JsError)
| Resolved (data : option A) (error : option JsError).
Arguments Rejected {A} e.
Arguments Resolved {A} data error.

Inductive Variant : Type := vDefault | vDestructive.

(** The argument of [toast({ title, description, variant })]. *)
Record Toast : Type := mkToast {
  title : string;
  description : string;
  variant : Variant
}.

End Js.

(** ** JavaScript runtime: [URLSearchParams] *)

Module Url.

Definition hex_digit (n : nat) : ascii :=
  match n with
  | 0 => "0" | 1 => "1" | 2 => "2" | 3 => "3" | 4 => "4"
  | 5 => "5" | 6 => "6" | 7 => "7" | 8 => "8" | 9 => "9"
  | 10 => "A" | 11 => "B" | 12 => "C" | 13 => "D" | 14 => "E"
  | _ => "F"
  end%char%nat.

(** Bytes outside the application/x-www-form-urlencoded percent-encode set:
    ASCII alphanumerics and [*], [-], [.], [_]. *)
Definition unreserved (c : ascii) : bool :=
  let n := nat_of_ascii c in
  (Nat.leb 48 n && Nat.leb n 57) || (Nat.leb 65 n && Nat.leb n 90)
  || (Nat.leb 97 n && Nat.leb n 122)
  || Nat.eqb n 42 || Nat.eqb n 45 || Nat.eqb n 46 || Nat.eqb n 95.

(** Percent-encoding of one UTF-8 byte with space-as-plus. *)
Definition encode_byte (c : ascii) : string :=
  if Ascii.eqb c " " then "+"
  else if unreserved c then String c EmptyString
  else
    let n := nat_of_ascii c in
    String "%" (String (hex_digit (n / 16)) (String (hex_digit (n mod 16)) EmptyString)).

(** The application/x-www-form-urlencoded byte serializer. *)
Fixpoint urlencode (s : string) : string :=
  match s with
  | EmptyString => EmptyString
  | String c s' => encode_byte c ++ urlencode s'
  end.

(** A [URLSearchParams] object: its list of name-value pairs. *)
Definition URLSearchParams : Type := list (string * string).

(** [params.set(name, value)]: the first pair named [name] takes the value
    and the other pairs of that name are removed; a new pair is appended
    when there is none. *)
Fixpoint remove_named (name : string) (ps : URLSearchParams) : URLSearchParams :=
  match ps with
  | [] => []
  | (n, v) :: ps' =>
      if String.eqb n name then remove_named name ps'
      else (n, v) :: remove_named name ps'
  end.

Fixpoint set (name value : string) (ps : URLSearchParams) : URLSearchParams :=
  match ps with
  | [] => [(name, value)]
  | (n, v) :: ps' =>
      if String.eqb n name then (n, value) :: remove_named name ps'
      else (n, v) :: set name value ps'
  end.

(** [params.toString()]. *)
Fixpoint toString (ps : URLSearchParams) : string :=
  match ps with
  | [] => EmptyString
  | [(n, v)] => urlencode n ++ "=" ++ urlencode v
  | (n, v) :: ps' => urlencode n ++ "=" ++ urlencode v ++ "&" ++ toString ps'
  end.

End Url.

(** ** JavaScript runtime: [Date] *)

Module JsDate.
Open Scope Z_scope.

Definition msPerSecond : Z := 1000.
Definition msPerMinute : Z := 60000.
Definition msPerHour : Z := 3600000.
Definition msPerDay : Z := 86400000.

Definition Day (t : Z) : Z := t / msPerDay.
Definition TimeWithinDay (t : Z) : Z := t mod msPerDay.
Definition HourFromTime (t : Z) : Z := (t / msPerHour) mod 24.
Definition MinFromTime (t : Z) : Z := (t / msPerMinute) mod 60.
Definition SecFromTime (t : Z) : Z := (t / msPerSecond) mod 60.
Definition msFromTime (t : Z) : Z := t mod msPerSecond.

Definition MakeTime (hour min sec ms : Z) : Z :=
  hour * msPerHour + min * msPerMinute + sec * msPerSecond + ms.
Definition MakeDate (day time : Z) : Z := day * msPerDay + time.

(** [TimeClip]: a time value outside the range is [NaN] ([None]). *)
Definition TimeClip (t : Z) : option Z :=
  if Z.abs t <=? 8640000000000000 then Some t else None.

Definition DaysInYear (y : Z) : Z :=
  if negb (y mod 4 =? 0) then 365
  else if negb (y mod 100 =? 0) then 366
  else if negb (y mod 400 =? 0) then 365
  else 366.

Definition DayFromYear (y : Z) : Z :=
  365 * (y - 1970) + (y - 1969) / 4 - (y - 1901) / 100 + (y - 1601) / 400.

(** The largest [y] with [DayFromYear y <= Day t]: an estimate from the
    mean length of a year, corrected by at most one year either way. *)
Definition YearFromTime (t : Z) : Z :=
  let d := Day t in
  let y := 1970 + (d * 400) / 146097 in
  if DayFromYear (y + 1) <=? d then y + 1
  else if DayFromYear y <=? d then y
  else y - 1.

Definition InLeapYear (t : Z) : Z :=
  if DaysInYear (YearFromTime t) =? 366 then 1 else 0.

Definition DayWithinYear (t : Z) : Z := Day t - DayFromYear (YearFromTime t).

Definition MonthFromTime (t : Z) : Z :=
  let d := DayWithinYear t in
  let l := InLeapYear t in
  if d <? 31 then 0
  else if d <? 59 + l then 1
  else if d <? 90 + l then 2
  else if d <? 120 + l then 3
  else if d <? 151 + l then 4
  else if d <? 181 + l then 5
  else if d <? 212 + l then 6
  else if d <? 243 + l then 7
  else if d <? 273 + l then 8
  else if d <? 304 + l then 9
  else if d <? 334 + l then 10
  else 11.

Definition DateFromTime (t : Z) : Z :=
  let d := DayWithinYear t in
  let l := InLeapYear t in
  match MonthFromTime t with
  | 0 => d + 1
  | 1 => d - 30
  | 2 => d - 58 - l
  | 3 => d - 89 - l
  | 4 => d - 119 - l
  | 5 => d - 150 - l
  | 6 => d - 180 - l
  | 7 => d - 211 - l
  | 8 => d - 242 - l
  | 9 => d - 272 - l
  | 10 => d - 303 - l
  | _ => d - 333 - l
  end.

Definition digit (n : Z) : ascii :=
  ascii_of_nat (48 + Z.to_nat (n mod 10)).

Definition pad2 (n : Z) : string :=
  String (digit (n / 10)) (String (digit n) EmptyString).
Definition pad3 (n : Z) : string := String (digit (n / 100)) (pad2 n).
Definition pad4 (n : Z) : string := String (digit (n / 1000)) (pad3 n).
Definition pad6 (n : Z) : string :=
  String (digit (n / 100000)) (String (digit (n / 10000)) (pad4 n)).

(** The year of the ISO format: four digits for years 0 to 9999, a sign
    and six digits otherwise. *)
Definition iso_year (y : Z) : string :=
  if (0 <=? y) && (y <=? 9999) then pad4 y
  else if y <? 0 then String "-" (pad6 (- y))
  else String "+" (pad6 y).

(** [YYYY-MM-DDTHH:mm], the ISO date and time of [t] to the minute. *)
Definition iso_minute (t : Z) : string :=
  iso_year (YearFromTime t) ++ "-" ++ pad2 (MonthFromTime t + 1) ++ "-"
    ++ pad2 (DateFromTime t) ++ "T" ++ pad2 (HourFromTime t) ++ ":"
    ++ pad2 (MinFromTime t).

(** [new Date(t).toISOString()] for a valid time value [t]. *)
Definition toISOString (t : Z) : string :=
  iso_minute t ++ ":" ++ pad2 (SecFromTime t) ++ "." ++ pad3 (msFromTime t) ++ "Z".

(** The host's time zone: [LocalTZA t isUTC] is the offset of local time
    from UTC in milliseconds, at the UTC time [t] when [isUTC] holds and at
    the local time [t] otherwise. *)
Definition TimeZone : Type := Z -> bool -> Z.

Definition LocalTime (tz : TimeZone) (t : Z) : Z := t + tz t true.
Definition UTC (tz : TimeZone) (t : Z) : Z := t - tz t false.

(** [d.getHours()]. *)
Definition getHours (tz : TimeZone) (t : Z) : Z := HourFromTime (LocalTime tz t).

(** [d.setHours(hour, min, sec, ms)]: the new time value of [d]. *)
Definition setHours (tz : TimeZone) (t hour min sec ms : Z) : option Z :=
  let tl := LocalTime tz t in
  TimeClip (UTC tz (MakeDate (Day tl) (MakeTime hour min sec ms))).

End JsDate.

(** ** Handlers as programs: exceptions over a world *)

Module Eff.
Import Js.

Inductive Result (A : Type) : Type :=
| Ok (a : A)
| Thrown (e : JsError).
Arguments Ok {A} a.
Arguments Thrown {A} e.

Section WithWorld.
Variable W : Type.

Definition M (A : Type) : Type := W -> Result A * W.

Definition ret {A : Type} (a : A) : M A := fun w => (Ok a, w).

Definition bind {A B : Type} (m : M A) (k : A -> M B) : M B :=
  fun w =>
    match m w with
    | (Ok a, w') => k a w'
    | (Thrown e, w') => (Thrown e, w')
    end.

Definition throw {A : Type} (e : JsError) : M A := fun w => (Thrown e, w).

Definition get : M W := fun w => (Ok w, w).

Definition modify (f : W -> W) : M unit := fun w => (Ok tt, f w).

(** [try { m } catch (error) { h error }]. *)
Definition try_catch {A : Type} (m : M A) (h : JsError -> M A) : M A :=
  fun w =>
    match m w with
    | (Ok a, w') => (Ok a, w')
    | (Thrown e, w') => h e w'
    end.

(** [try { m } finally { f }]. *)
Definition try_finally {A : Type} (m : M A) (f : M unit) : M A :=
  fun w =>
    match m w with
    | (r, w') =>
        match f w' with
        | (Ok _, w'') => (r, w'')
        | (Thrown e, w'') => (Thrown e, w'')
        end
    end.

(** The world a handler leaves behind. *)
Definition exec {A : Type} (m : M A) (w : W) : W := snd (m w).

End WithWorld.

Arguments ret {W A} a.
Arguments bind {W A B} m k.
Arguments throw {W A} e.
Arguments get {W}.
Arguments modify {W} f.
Arguments try_catch {W A} m h.
Arguments try_finally {W A} m f.
Arguments exec {W A} m w.

End Eff.

Declare Scope eff_scope.
Delimit Scope eff_scope with eff.
Notation "x <- m ;; k" := (Eff.bind m (fun x => k))
  (at level 61, m at next level, right associativity) : eff_scope.
Notation "m ;; k" := (Eff.bind m (fun _ => k))
  (at level 61, right associativity) : eff_scope.
Open Scope eff_scope.

(** ** The e-mail composer ([SendEmailModal]) *)

Module SendEmailModal.
Import Js Eff.

Record Contact : Type := mkContact {
  contact_name : string;
  company_name : option string;
  position : option string;
  email : option string
}.

Record EmailTemplate : Type := mkTemplate {
  id : string;
  name : string;
  t_subject : string;
  t_body : string
}.

Inductive Event : Type :=
| EToast (t : Toast)
| EConsoleError (label : string) (e : JsError)
| ESelect (table columns order : string)
| EWindowOpen (url target : string)
| EOnOpenChange (open : bool).

(** The props ([open], [contact]), the four [useState] cells and the log
    of effects. *)
Record World : Type := mkWorld {
  open : bool;
  contact : option Contact;
  templates : list EmailTemplate;
  selectedTemplate : string;
  subject : string;
  body : string;
  log : list Event
}.

Definition emit (e : Event) : M World unit :=
  modify (fun w => mkWorld (open w) (contact w) (templates w)
                     (selectedTemplate w) (subject w) (body w) (log w ++ [e])).
Definition setTemplates (ts : list EmailTemplate) : M World unit :=
  modify (fun w => mkWorld (open w) (contact w) ts
                     (selectedTemplate w) (subject w) (body w) (log w)).
Definition setSelectedTemplate (s : string) : M World unit :=
  modify (fun w => mkWorld (open w) (contact w) (templates w)
                     s (subject w) (body w) (log w)).
Definition setSubject (s : string) : M World unit :=
  modify (fun w => mkWorld (open w) (contact w) (templates w)
                     (selectedTemplate w) s (body w) (log w)).
Definition setBody (s : string) : M World unit :=
  modify (fun w => mkWorld (open w) (contact w) (templates w)
                     (selectedTemplate w) (subject w) s (log w)).

Definition toast (t : Toast) : M World unit := emit (EToast t).

Definition fetchTemplates (resp : Response (list EmailTemplate)) : M World unit :=
  try_catch
    (emit (ESelect "email_templates" "id, name, subject, body" "name") ;;
     match resp with
     | Rejected e => throw e
     | Resolved data error =>
         match error with
         | Some e => throw e
         | None =>
             setTemplates (match data with Some ts => ts | None => [] end)
         end
     end)
    (fun error => emit (EConsoleError "Error fetching templates:" error)).

(** The effect on [open]: [fetchTemplates] is started (its continuation
    only writes [templates] and the log) and the three cells are reset. *)
Definition useEffect_open (resp : Response (list EmailTemplate)) : M World unit :=
  w <- get ;;
  if open w then
    fetchTemplates resp ;;
    setSelectedTemplate "" ;;
    setSubject "" ;;
    setBody ""
  else ret tt.

Definition replaceVariables (text : string) (contactData : option Contact) : string :=
  match contactData with
  | None => text
  | Some c =>
      replace_g "{{email}}" (opt_or_else (email c) "")
        (replace_g "{{position}}" (opt_or_else (position c) "")
           (replace_g "{{company_name}}" (opt_or_else (company_name c) "")
              (replace_g "{{contact_name}}" (or_else (contact_name c) "") text)))
  end.

Definition handleTemplateSelect (templateId : string) : M World unit :=
  setSelectedTemplate templateId ;;
  if String.eqb templateId "none" then
    setSubject "" ;;
    setBody ""
  else
    w <- get ;;
    match find (fun t => String.eqb (id t) templateId) (templates w) with
    | Some template =>
        setSubject (replaceVariables (t_subject template) (contact w)) ;;
        setBody (replaceVariables (t_body template) (contact w))
    | None => ret tt
    end.

(** [contact?.email]. *)
Definition contact_email (c : option Contact) : option string :=
  match c with
  | Some c => email c
  | None => None
  end.

Definition handleSendEmail : M World unit :=
  w <- get ;;
  if negb (truthy_opt (contact_email (contact w))) then
    toast (mkToast "No email address"
             "This contact doesn't have an email address" vDestructive)
  else
    let mailtoParams : Url.URLSearchParams := [] in
    let mailtoParams :=
      if truthy (subject w) then Url.set "subject" (subject w) mailtoParams
      else mailtoParams in
    let mailtoParams :=
      if truthy (body w) then Url.set "body" (body w) mailtoParams
      else mailtoParams in
    let mailtoLink :=
      "mailto:" ++ opt_or_else (contact_email (contact w)) ""
        ++ "?" ++ Url.toString mailtoParams in
    emit (EWindowOpen mailtoLink "_blank") ;;
    toast (mkToast "Email Client Opened"
             "Your default email client should open with the pre-filled template"
             vDefault) ;;
    emit (EOnOpenChange false).

(** What the component renders: nothing without a contact. *)
Definition renders (w : World) : bool :=
  match contact w with
  | Some _ => true
  | None => false
  end.

(** The events a handler adds to the log. *)
Definition emitted {A : Type} (m : M World A) (w : World) : list Event :=
  skipn (List.length (log w)) (log (exec m w)).

End SendEmailModal.

(** ** Placeholder substitution as the specification words it *)

Module SubstSpec.
Import Js SendEmailModal.

(** [s] holds an occurrence of [pat]. *)
Definition occurs (pat s : string) : Prop :=
  exists a b, s = a ++ pat ++ b.

(** [a ++ pat ++ b] has its first occurrence of [pat] right after [a]. *)
Definition first_after (pat a b : string) : Prop :=
  forall a' b', a ++ pat ++ b = a' ++ pat ++ b' -> length a <= length a'.

(** [ReplacedAll pat v s r]: [r] is [s] with every occurrence of [pat],
    taken from left to right, replaced by the text [v], and everything
    between the occurrences kept. *)
Inductive ReplacedAll (pat v : string) : string -> string -> Prop :=
| RA_none s :
    ~ occurs pat s ->
    ReplacedAll pat v s s
| RA_next a b r :
    first_after pat a b ->
    ReplacedAll pat v b r ->
    ReplacedAll pat v (a ++ pat ++ b) (a ++ v ++ r).

(** [RewrittenAll pat template before s r]: [r] is [s] with every
    occurrence of [pat], taken from left to right, replaced by the
    expansion of [template] at that occurrence, and everything between the
    occurrences kept; [before] is the text that precedes [s] in the string
    the scan started on. *)
Inductive RewrittenAll (pat template : string) : string -> string -> string -> Prop :=
| RW_none before s :
    ~ occurs pat s ->
    RewrittenAll pat template before s s
| RW_next before a b r :
    first_after pat a b ->
    RewrittenAll pat template (before ++ a ++ pat) b r ->
    RewrittenAll pat template before (a ++ pat ++ b)
      (a ++ GetSubstitution pat (before ++ a) b template ++ r).

(** The four recognized placeholders. *)
Definition recognized : list string :=
  [ "{{contact_name}}"; "{{company_name}}"; "{{position}}"; "{{email}}" ].

(** The value a missing attribute stands for. *)
Definition attr (x : option string) : string :=
  match x with
  | Some s => s
  | None => ""
  end.

(** The four recognized placeholders with the contact attribute each one
    stands for (the empty string for a missing attribute). *)
Definition placeholders (c : Contact) : list (string * string) :=
  [ ("{{contact_name}}", contact_name c);
    ("{{company_name}}", attr (company_name c));
    ("{{position}}", attr (position c));
    ("{{email}}", attr (email c)) ].

(** One pass over the template: each occurrence of a placeholder in the
    template is replaced by its attribute, and the inserted text is not
    looked at again. *)
Fixpoint subst_from (tbl : list (string * string)) (skip : nat) (s : string) : string :=
  match s with
  | EmptyString => EmptyString
  | String c rest =>
      match skip with
      | S k => subst_from tbl k rest
      | O =>
          match find (fun pv => starts_with (fst pv) s) tbl with
          | Some (p, v) => v ++ subst_from tbl (length p - 1) rest
          | None => String c (subst_from tbl 0 rest)
          end
      end
  end.

Definition substituteSimultaneous (text : string) (c : Contact) : string :=
  subst_from (placeholders c) 0 text.

(** Four passes one after the other, each over the result of the one
    before: contact name, company name, position, e-mail. *)
Definition SequentialPasses (c : Contact) (text result : string) : Prop :=
  exists s1 s2 s3,
    ReplacedAll "{{contact_name}}" (contact_name c) text s1
    /\ ReplacedAll "{{company_name}}" (attr (company_name c)) s1 s2
    /\ ReplacedAll "{{position}}" (attr (position c)) s2 s3
    /\ ReplacedAll "{{email}}" (attr (email c)) s3 result.

(** No attribute of the contact holds a dollar sign. *)
Definition dollar_free (c : Contact) : Prop :=
  has_char "$" (contact_name c) = false
  /\ has_char "$" (attr (company_name c)) = false
  /\ has_char "$" (attr (position c)) = false
  /\ has_char "$" (attr (email c)) = false.

End SubstSpec.

(** ** The settings shell ([Settings]) *)

Module Settings.
Import Js.

Inductive Icon : Type :=
| User | Key | Bell | Palette | Users | UserCog | Activity
| GitBranch | FileUp | Plug | FileText | Monitor | Shield.

Record MenuItem : Type := mkItem {
  id : string;
  label : string;
  icon : Icon;
  adminOnly : option bool
}.

Record MenuSection : Type := mkSection {
  title : string;
  items : list MenuItem
}.

Definition menuSections : list MenuSection :=
  [ mkSection "Personal Settings"
      [ mkItem "profile" "Profile Management" User None;
        mkItem "password-security" "Password & Security" Key None;
        mkItem "notifications" "Notification Preferences" Bell None;
        mkItem "display" "Display Preferences" Palette None ];
    mkSection "User Management"
      [ mkItem "user-directory" "User Directory" Users (Some true);
        mkItem "role-management" "Role Management" UserCog (Some true);
        mkItem "page-access" "Page Access Control" Activity (Some true) ];
    mkSection "System Config"
      [ mkItem "pipeline" "Pipeline/Stage Management" GitBranch (Some true);
        mkItem "email-templates" "Email Templates" FileText (Some true);
        mkItem "backup" "Data Import/Export" FileUp (Some true);
        mkItem "integrations" "Integration Settings" Plug (Some true) ];
    mkSection "Security"
      [ mkItem "audit-logs" "Audit Logs Viewer" Shield (Some true);
        mkItem "session-management" "Session Management" Monitor None ] ].

(** The settings panels. *)
Inductive Panel : Type :=
| ProfileSettings | SecuritySettings | NotificationSettings | DisplaySettings
| UserManagement | PageAccessSettings | PipelineSettings
| EmailTemplatesSettings | BackupRestoreSettings | IntegrationSettings
| AuditLogsSettings | SessionManagementSettings.

(** The initial value of [activeTab]. *)
Definition defaultTab : string := "profile".

(** [userRole === "admin"]; no role yet is [None]. *)
Definition isAdmin (userRole : option string) : bool :=
  match userRole with
  | Some r => String.eqb r "admin"
  | None => false
  end.

Definition renderContent (activeTab : string) : Panel :=
  if String.eqb activeTab "profile" then ProfileSettings
  else if String.eqb activeTab "password-security" then SecuritySettings
  else if String.eqb activeTab "notifications" then NotificationSettings
  else if String.eqb activeTab "display" then DisplaySettings
  else if String.eqb activeTab "user-directory" then UserManagement
  else if String.eqb activeTab "role-management" then UserManagement
  else if String.eqb activeTab "page-access" then PageAccessSettings
  else if String.eqb activeTab "pipeline" then PipelineSettings
  else if String.eqb activeTab "email-templates" then EmailTemplatesSettings
  else if String.eqb activeTab "backup" then BackupRestoreSettings
  else if String.eqb activeTab "integrations" then IntegrationSettings
  else if String.eqb activeTab "audit-logs" then AuditLogsSettings
  else if String.eqb activeTab "session-management" then SessionManagementSettings
  else ProfileSettings.

(** The keys that have a [case] of their own in [renderContent]. *)
Definition recognized : list string :=
  [ "profile"; "password-security"; "notifications"; "display";
    "user-directory"; "role-management"; "page-access"; "pipeline";
    "email-templates"; "backup"; "integrations"; "audit-logs";
    "session-management" ].

(** [!!x] for an optional boolean. *)
Definition flagged (x : option bool) : bool :=
  match x with
  | Some b => b
  | None => false
  end.

Fixpoint find_label (activeTab : string) (sections : list MenuSection) : option string :=
  match sections with
  | [] => None
  | section :: rest =>
      match find (fun item => String.eqb (id item) activeTab) (items section) with
      | Some item => Some (label item)
      | None => find_label activeTab rest
      end
  end.

Definition getActiveLabel (activeTab : string) : string :=
  match find_label activeTab menuSections with
  | Some l => l
  | None => "Settings"
  end.

Definition visibleItems (admin : bool) (section : MenuSection) : list MenuItem :=
  filter (fun item => negb (flagged (adminOnly item)) || admin) (items section).

(** The sidebar: per section its title and visible items; a section
    without visible items renders nothing. *)
Fixpoint renderMenu (admin : bool) (sections : list MenuSection)
    : list (string * list MenuItem) :=
  match sections with
  | [] => []
  | section :: rest =>
      match visibleItems admin section with
      | [] => renderMenu admin rest
      | vis => (title section, vis) :: renderMenu admin rest
      end
  end.

(** Every menu entry on the screen for a caller of role [userRole]. *)
Definition renderedItems (userRole : option string) : list MenuItem :=
  List.concat (map snd (renderMenu (isAdmin userRole) menuSections)).

End Settings.

(** ** The meeting composer ([MeetingModal]) *)

Module MeetingModal.
Import Js Eff.

(** A meeting row as the parent passes it ([attendees], of type [unknown]
    and never read, is left out). *)
Record Meeting : Type := mkMeeting {
  id : string;
  m_subject : string;
  m_description : option string;
  m_start_time : string;
  m_end_time : string;
  m_join_url : option string;
  m_lead_id : option string;
  m_contact_id : option string;
  m_status : string
}.

Record Lead : Type := mkLead {
  l_id : string;
  lead_name : string;
  l_email : option string
}.

Record Contact : Type := mkContact {
  c_id : string;
  contact_name : string;
  c_email : option string
}.

(** The [formData] cell. *)
Record FormData : Type := mkForm {
  subject : string;
  description : string;
  start_time : string;
  end_time : string;
  join_url : string;
  lead_id : string;
  contact_id : string;
  status : string
}.

Record Attendee : Type := mkAttendee {
  a_email : string;
  a_name : string
}.

(** The body sent to the remote function. *)
Record InvokeBody : Type := mkBody {
  b_subject : string;
  b_attendees : list Attendee;
  b_startTime : string;
  b_endTime : string
}.

(** What the remote function answers: [{ meeting: { joinUrl } }], each
    level possibly missing. *)
Record MeetingInfo : Type := mkInfo { joinUrl : option string }.
Record InvokeData : Type := mkData { meeting : option MeetingInfo }.

(** The row written to the [meetings] table. *)
Record MeetingData : Type := mkRow {
  r_subject : string;
  r_description : option string;
  r_start_time : string;
  r_end_time : string;
  r_join_url : option string;
  r_lead_id : option string;
  r_contact_id : option string;
  r_status : string;
  r_created_by : option string
}.

Inductive Event : Type :=
| EToast (t : Toast)
| EConsoleError (label : string) (e : JsError)
| ESelect (table columns order : string)
| EInvoke (fn : string) (body : InvokeBody)
| EUpdate (table : string) (row : MeetingData) (column value : string)
| EInsert (table : string) (rows : list MeetingData)
| EPreventDefault
| EOnSuccess
| EOnOpenChange (open : bool).

(** The props ([open], [meeting]), the signed-in user's id ([user?.id]),
    the [useState] cells and the log of effects. *)
Record World : Type := mkWorld {
  open : bool;
  props_meeting : option Meeting;
  user_id : option string;
  loading : bool;
  creatingTeamsMeeting : bool;
  leads : list Lead;
  contacts : list Contact;
  formData : FormData;
  log : list Event
}.

Definition emit (e : Event) : M World unit :=
  modify (fun w => mkWorld (open w) (props_meeting w) (user_id w) (loading w)
    (creatingTeamsMeeting w) (leads w) (contacts w) (formData w) (log w ++ [e])).
Definition setLoading (b : bool) : M World unit :=
  modify (fun w => mkWorld (open w) (props_meeting w) (user_id w) b
    (creatingTeamsMeeting w) (leads w) (contacts w) (formData w) (log w)).
Definition setCreatingTeamsMeeting (b : bool) : M World unit :=
  modify (fun w => mkWorld (open w) (props_meeting w) (user_id w) (loading w)
    b (leads w) (contacts w) (formData w) (log w)).
Definition setLeads (l : list Lead) : M World unit :=
  modify (fun w => mkWorld (open w) (props_meeting w) (user_id w) (loading w)
    (creatingTeamsMeeting w) l (contacts w) (formData w) (log w)).
Definition setContacts (l : list Contact) : M World unit :=
  modify (fun w => mkWorld (open w) (props_meeting w) (user_id w) (loading w)
    (creatingTeamsMeeting w) (leads w) l (formData w) (log w)).
(** [setFormData(prev => f prev)]. *)
Definition updFormData (f : FormData -> FormData) : M World unit :=
  modify (fun w => mkWorld (open w) (props_meeting w) (user_id w) (loading w)
    (creatingTeamsMeeting w) (leads w) (contacts w) (f (formData w)) (log w)).
Definition setFormData (fd : FormData) : M World unit :=
  updFormData (fun _ => fd).
Definition setProps (o : bool) (m : option Meeting) : M World unit :=
  modify (fun w => mkWorld o m (user_id w) (loading w)
    (creatingTeamsMeeting w) (leads w) (contacts w) (formData w) (log w)).

Definition toast (t : Toast) : M World unit := emit (EToast t).

(** The initial values of the [useState] cells, before the first render. *)
Definition initial (user : option string) : World :=
  mkWorld false None user false false [] []
    (mkForm "" "" "" "" "" "" "" "scheduled") [].

(** Both queries are started together ([Promise.all]); a rejection of
    either one is caught. *)
Definition fetchLeadsAndContacts
    (leadsRes : Response (list Lead)) (contactsRes : Response (list Contact))
    : M World unit :=
  try_catch
    (emit (ESelect "leads" "id, lead_name, email" "lead_name") ;;
     emit (ESelect "contacts" "id, contact_name, email" "contact_name") ;;
     match leadsRes, contactsRes with
     | Rejected e, _ => throw e
     | _, Rejected e => throw e
     | Resolved leadsData _, Resolved contactsData _ =>
         match leadsData with
         | Some l => setLeads l
         | None => ret tt
         end ;;
         match contactsData with
         | Some l => setContacts l
         | None => ret tt
         end
     end)
    (fun error => emit (EConsoleError "Error fetching leads/contacts:" error)).

(** [toISOString] of a [Date] that may be invalid ([RangeError]). *)
Definition toISOString (d : option Z) : M World string :=
  match d with
  | Some t => ret (JsDate.toISOString t)
  | None => throw (mkError (Some "Invalid time value"))
  end.

(** The effect on [open] and [meeting].  [fetchLeadsAndContacts] is
    started, not awaited: its continuation writes only [leads],
    [contacts] and the log. *)
Definition useEffect_open (tz : JsDate.TimeZone) (clock : Z)
    (leadsRes : Response (list Lead)) (contactsRes : Response (list Contact))
    : M World unit :=
  w <- get ;;
  if open w then
    fetchLeadsAndContacts leadsRes contactsRes ;;
    match props_meeting w with
    | Some meeting =>
        setFormData
          (mkForm
             (or_else (m_subject meeting) "")
             (opt_or_else (m_description meeting) "")
             (if truthy (m_start_time meeting)
              then slice0 16 (m_start_time meeting) else "")
             (if truthy (m_end_time meeting)
              then slice0 16 (m_end_time meeting) else "")
             (opt_or_else (m_join_url meeting) "")
             (opt_or_else (m_lead_id meeting) "")
             (opt_or_else (m_contact_id meeting) "")
             (or_else (m_status meeting) "scheduled"))
    | None =>
        (* Set default start time to next hour *)
        let now := JsDate.setHours tz clock (JsDate.getHours tz clock + 1) 0 0 0 in
        let end_ :=
          match now with
          | Some t => JsDate.TimeClip (t + 60 * 60 * 1000)
          | None => None
          end in
        start_iso <- toISOString now ;;
        end_iso <- toISOString end_ ;;
        setFormData
          (mkForm "" "" (slice0 16 start_iso) (slice0 16 end_iso)
             "" "" "" "scheduled")
    end
  else ret tt.

(** The attendees gathered from the selected lead and contact. *)
Definition gatherAttendees (w : World) : list Attendee :=
  let fd := formData w in
  let attendees : list Attendee := [] in
  let attendees :=
    if truthy (lead_id fd) then
      match find (fun l => String.eqb (l_id l) (lead_id fd)) (leads w) with
      | Some lead =>
          match l_email lead with
          | Some e => if truthy e then (attendees ++ [mkAttendee e (lead_name lead)])%list
                      else attendees
          | None => attendees
          end
      | None => attendees
      end
    else attendees in
  let attendees :=
    if truthy (contact_id fd) then
      match find (fun c => String.eqb (c_id c) (contact_id fd)) (contacts w) with
      | Some contact =>
          match c_email contact with
          | Some e => if truthy e then (attendees ++ [mkAttendee e (contact_name contact)])%list
                      else attendees
          | None => attendees
          end
      | None => attendees
      end
    else attendees in
  attendees.

(** [data?.meeting?.joinUrl]. *)
Definition data_joinUrl (data : option InvokeData) : option string :=
  match data with
  | Some d =>
      match meeting d with
      | Some m => joinUrl m
      | None => None
      end
  | None => None
  end.

Definition createTeamsMeeting (resp : Response InvokeData) : M World unit :=
  w <- get ;;
  let fd := formData w in
  if negb (truthy (subject fd)) || negb (truthy (start_time fd))
     || negb (truthy (end_time fd)) then
    toast (mkToast "Missing fields"
             "Please fill in subject, start time and end time first" vDestructive)
  else
    setCreatingTeamsMeeting true ;;
    try_finally
      (try_catch
         (let attendees := gatherAttendees w in
          emit (EInvoke "create-teams-meeting"
                  (mkBody (subject fd) attendees (start_time fd) (end_time fd))) ;;
          data <- match resp with
                  | Rejected e => throw e
                  | Resolved data (Some e) => throw e
                  | Resolved data None => ret data
                  end ;;
          match data_joinUrl data with
          | Some url =>
              if truthy url then
                updFormData (fun prev =>
                  mkForm (subject prev) (description prev) (start_time prev)
                    (end_time prev) url (lead_id prev) (contact_id prev)
                    (status prev)) ;;
                toast (mkToast "Teams Meeting Created"
                         "Meeting link has been generated" vDefault)
              else ret tt
          | None => ret tt
          end)
         (fun error =>
            emit (EConsoleError "Error creating Teams meeting:" error) ;;
            toast (mkToast "Error"
                     (opt_or_else (message error) "Failed to create Teams meeting")
                     vDestructive)))
      (setCreatingTeamsMeeting false).

(** [if (error) throw error] on the answer of a table write. *)
Definition check_write (resp : Response unit) : M World unit :=
  match resp with
  | Rejected e => throw e
  | Resolved _ (Some e) => throw e
  | Resolved _ None => ret tt
  end.

Definition handleSubmit (resp : Response unit) : M World unit :=
  emit EPreventDefault ;;
  w <- get ;;
  let fd := formData w in
  if negb (truthy (subject fd)) || negb (truthy (start_time fd))
     || negb (truthy (end_time fd)) then
    toast (mkToast "Missing fields" "Please fill in all required fields"
             vDestructive)
  else
    setLoading true ;;
    try_finally
      (try_catch
         (let meetingData :=
            mkRow (subject fd) (or_null (description fd)) (start_time fd)
              (end_time fd) (or_null (join_url fd)) (or_null (lead_id fd))
              (or_null (contact_id fd)) (status fd) (user_id w) in
          match props_meeting w with
          | Some meeting =>
              emit (EUpdate "meetings" meetingData "id" (id meeting)) ;;
              check_write resp ;;
              toast (mkToast "Success" "Meeting updated successfully" vDefault)
          | None =>
              emit (EInsert "meetings" [meetingData]) ;;
              check_write resp ;;
              toast (mkToast "Success" "Meeting created successfully" vDefault)
          end ;;
          emit EOnSuccess ;;
          emit (EOnOpenChange false))
         (fun error =>
            emit (EConsoleError "Error saving meeting:" error) ;;
            toast (mkToast "Error"
                     (opt_or_else (message error) "Failed to save meeting")
                     vDestructive)))
      (setLoading false).

(** *** A session of the dialog *)

Inductive Field : Type :=
| FSubject | FStartTime | FEndTime | FLeadId | FContactId
| FDescription | FJoinUrl | FStatus.

(** The [onChange] and [onValueChange] handlers of the form controls; the
    two link selectors turn their entry "none" into the empty string. *)
Definition onChange (f : Field) (value : string) : M World unit :=
  updFormData (fun prev =>
    match f with
    | FSubject =>
        mkForm value (description prev) (start_time prev) (end_time prev)
          (join_url prev) (lead_id prev) (contact_id prev) (status prev)
    | FStartTime =>
        mkForm (subject prev) (description prev) value (end_time prev)
          (join_url prev) (lead_id prev) (contact_id prev) (status prev)
    | FEndTime =>
        mkForm (subject prev) (description prev) (start_time prev) value
          (join_url prev) (lead_id prev) (contact_id prev) (status prev)
    | FLeadId =>
        mkForm (subject prev) (description prev) (start_time prev) (end_time prev)
          (join_url prev) (if String.eqb value "none" then "" else value)
          (contact_id prev) (status prev)
    | FContactId =>
        mkForm (subject prev) (description prev) (start_time prev) (end_time prev)
          (join_url prev) (lead_id prev)
          (if String.eqb value "none" then "" else value) (status prev)
    | FDescription =>
        mkForm (subject prev) value (start_time prev) (end_time prev)
          (join_url prev) (lead_id prev) (contact_id prev) (status prev)
    | FJoinUrl =>
        mkForm (subject prev) (description prev) (start_time prev) (end_time prev)
          value (lead_id prev) (contact_id prev) (status prev)
    | FStatus =>
        mkForm (subject prev) (description prev) (start_time prev) (end_time prev)
          (join_url prev) (lead_id prev) (contact_id prev) value
    end).

Definition opt_eqb (x y : option string) : bool :=
  match x, y with
  | Some a, Some b => String.eqb a b
  | None, None => true
  | _, _ => false
  end.

Definition Meeting_eqb (a b : Meeting) : bool :=
  String.eqb (id a) (id b) && String.eqb (m_subject a) (m_subject b)
  && opt_eqb (m_description a) (m_description b)
  && String.eqb (m_start_time a) (m_start_time b)
  && String.eqb (m_end_time a) (m_end_time b)
  && opt_eqb (m_join_url a) (m_join_url b)
  && opt_eqb (m_lead_id a) (m_lead_id b)
  && opt_eqb (m_contact_id a) (m_contact_id b)
  && String.eqb (m_status a) (m_status b).

(** The dependency array [[open, meeting]] against the previous render.
    React compares [meeting] by identity; here a record with the same
    fields counts as the same object. *)
Definition deps_changed (w : World) (o : bool) (m : option Meeting) : bool :=
  negb (Bool.eqb (open w) o)
  || negb match props_meeting w, m with
          | Some a, Some b => Meeting_eqb a b
          | None, None => true
          | _, _ => false
          end.

(** What happens to an open dialog: the parent renders it with props, the
    user edits a control, asks for a conferencing link, or submits. *)
Inductive Action : Type :=
| Render (o : bool) (m : option Meeting) (clock : Z)
    (leadsRes : Response (list Lead)) (contactsRes : Response (list Contact))
| Change (f : Field) (value : string)
| ClickCreateTeams (resp : Response InvokeData)
| Submit (resp : Response unit).

Definition step (tz : JsDate.TimeZone) (a : Action) : M World unit :=
  match a with
  | Render o m clock leadsRes contactsRes =>
      w <- get ;;
      setProps o m ;;
      if deps_changed w o m
      then useEffect_open tz clock leadsRes contactsRes
      else ret tt
  | Change f value => onChange f value
  | ClickCreateTeams resp => createTeamsMeeting resp
  | Submit resp => handleSubmit resp
  end.

Definition run_session (tz : JsDate.TimeZone) (actions : list Action) (w : World)
    : World :=
  fold_left (fun w a => exec (step tz a) w) actions w.

(** The table writes and the remote calls recorded in a log. *)
Definition is_write (e : Event) : bool :=
  match e with
  | EUpdate _ _ _ _ | EInsert _ _ => true
  | _ => false
  end.

Definition is_invoke (e : Event) : bool :=
  match e with
  | EInvoke _ _ => true
  | _ => false
  end.

Definition is_toast (e : Event) : bool :=
  match e with
  | EToast _ => true
  | _ => false
  end.

Definition writes (l : list Event) : list Event := filter is_write l.
Definition invokes (l : list Event) : list Event := filter is_invoke l.
Definition toasts (l : list Event) : list Event := filter is_toast l.

(** The events a handler adds to the log. *)
Definition emitted {A : Type} (m : M World A) (w : World) : list Event :=
  skipn (List.length (log w)) (log (exec m w)).

End MeetingModal.


(** ** The shape of the mail-client link and of a failed call *)

Module LinkSpec.
Import Js.

(** The query of the link: [subject=] and [body=] with the urlencoded
    values, joined by [&], a parameter with an empty value left out. *)
Definition mailto_query (subject body : string) : string :=
  match truthy subject, truthy body with
  | true, true =>
      "subject=" ++ Url.urlencode subject ++ "&body=" ++ Url.urlencode body
  | true, false => "subject=" ++ Url.urlencode subject
  | false, true => "body=" ++ Url.urlencode body
  | false, false => ""
  end.

Definition mailto (address subject body : string) : string :=
  "mailto:" ++ address ++ "?" ++ mailto_query subject body.

(** The error a failed call carries: the promise rejected, or it resolved
    with an [error]. *)
Definition failure {A : Type} (resp : Response A) : option JsError :=
  match resp with
  | Rejected e => Some e
  | Resolved _ (Some e) => Some e
  | Resolved _ None => None
  end.

(** The text of an error notification: the message of the error when it
    has a non-empty one, a fixed text otherwise. *)
Definition message_or (e : JsError) (fallback : string) : string :=
  match message e with
  | Some (String c s) => String c s
  | _ => fallback
  end.

End LinkSpec.

(** ** Vocabulary of the meeting composer's specification *)

Module MeetingSpec.
Import Js MeetingModal.

(** The three required fields are filled. *)
Definition required_filled (fd : FormData) : Prop :=
  subject fd <> "" /\ start_time fd <> "" /\ end_time fd <> "".

(** One of the three required fields is blank. *)
Definition some_blank (fd : FormData) : Prop :=
  subject fd = "" \/ start_time fd = "" \/ end_time fd = "".

(** An optional field as it is written: [null] for an empty form value,
    the form value otherwise. *)
Definition normalized (form : string) (written : option string) : Prop :=
  (form = "" -> written = None) /\ (form <> "" -> written = Some form).

(** [a] is the selected lead, which has an e-mail address. *)
Definition selected_lead (w : World) (a : Attendee) : Prop :=
  exists l,
    lead_id (formData w) <> ""
    /\ find (fun l => String.eqb (l_id l) (lead_id (formData w))) (leads w) = Some l
    /\ l_email l = Some (a_email a) /\ a_email a <> ""
    /\ a_name a = lead_name l.

(** [a] is the selected contact, which has an e-mail address. *)
Definition selected_contact (w : World) (a : Attendee) : Prop :=
  exists c,
    contact_id (formData w) <> ""
    /\ find (fun c => String.eqb (c_id c) (contact_id (formData w))) (contacts w) = Some c
    /\ c_email c = Some (a_email a) /\ a_email a <> ""
    /\ a_name a = contact_name c.

(** The row the form stands for. *)
Definition row_of (w : World) : MeetingData :=
  let fd := formData w in
  mkRow (subject fd) (or_null (description fd)) (start_time fd) (end_time fd)
    (or_null (join_url fd)) (or_null (lead_id fd)) (or_null (contact_id fd))
    (status fd) (user_id w).

(** The one table write of a submission: an update of the row of the
    meeting in the props, an insert without one. *)
Definition write_of (w : World) : Event :=
  match props_meeting w with
  | Some m => EUpdate "meetings" (row_of w) "id" (id m)
  | None => EInsert "meetings" [row_of w]
  end.

(** The body of the remote call: the subject and the two times of the
    form, and the attendees gathered. *)
Definition invoke_body (w : World) : InvokeBody :=
  mkBody (subject (formData w)) (gatherAttendees w)
    (start_time (formData w)) (end_time (formData w)).

(** The form with its join-link field overwritten. *)
Definition with_join_url (fd : FormData) (url : string) : FormData :=
  mkForm (subject fd) (description fd) (start_time fd) (end_time fd) url
    (lead_id fd) (contact_id fd) (status fd).

(** The [meeting] prop of the latest render of a session that started
    with the prop [current]. *)
Definition last_meeting (actions : list Action) (current : option Meeting)
    : option Meeting :=
  fold_left (fun cur a =>
               match a with
               | Render _ m _ _ _ => m
               | _ => cur
               end) actions current.

(** The error with which the pair of queries started together fails:
    that of the one that rejects. *)
Definition rejection (leadsRes : Response (list Lead))
    (contactsRes : Response (list Contact)) : option JsError :=
  match leadsRes, contactsRes with
  | Rejected e, _ => Some e
  | _, Rejected e => Some e
  | _, _ => None
  end.

(** An absent value as a form field shows it: the empty string. *)
Definition shown (x : option string) : string :=
  match x with
  | Some s => s
  | None => ""
  end.

(** The top of the hour that follows the time [t]. *)
Definition next_hour (t : Z) : Z :=
  ((t / JsDate.msPerHour + 1) * JsDate.msPerHour)%Z.

(** The time values of the years 0 to 9999, whose ISO format has a
    four-digit year. *)
Definition year0 : Z := (-62167219200000)%Z.
Definition year10000 : Z := 253402300800000%Z.

End MeetingSpec.

(** ** The bulk actions bar ([BulkActionsBar]) *)

Module BulkActionsBar.

(** The three callbacks of the props. *)
Inductive Callback : Type := onDelete | onExport | onClearSelection.

Record Button : Type := mkButton {
  caption : string;
  tooltip : option string;
  onClick : Callback
}.

(** What the bar shows: the headline, the line under it and the buttons
    in document order. *)
Record View : Type := mkView {
  headline : string;
  hint : string;
  buttons : list Button
}.

(** A count as React writes it into the text. *)
Definition decimal (n : nat) : string :=
  DecimalString.NilEmpty.string_of_uint (Nat.to_uint n).

(** The component, for a count that is a natural number. *)
Definition render (selectedCount : nat) : option View :=
  if Nat.eqb selectedCount 0 then None
  else
    Some (mkView
            (decimal selectedCount ++ " "
               ++ (if Nat.eqb selectedCount 1 then "item" else "items")
               ++ " selected")
            "Choose an action for the selected items"
            [ mkButton "Export" (Some "Export selected items to CSV") onExport;
              mkButton "Delete" (Some "Delete selected items") onDelete;
              mkButton "Cancel" None onClearSelection ]).

End BulkActionsBar.

(** ** What the e-mail composer shows *)

Module SendEmailView.
Import Js SendEmailModal.

Record View : Type := mkView {
  dialogOpen : bool;
  title : string;
  toLine : string;
  (** the entries of the template selector: value and label *)
  options : list (string * string);
  selected : string;
  noTemplatesHint : bool;
  subjectValue : string;
  bodyValue : string;
  sendDisabled : bool
}.

Definition render (w : World) : option View :=
  match contact w with
  | None => None
  | Some c =>
      Some (mkView (open w)
              ("Send Email to " ++ contact_name c)
              (opt_or_else (email c) "No email address")
              (("none", "No template")
                 :: map (fun template => (id template, name template)) (templates w))
              (selectedTemplate w)
              (Nat.eqb (List.length (templates w)) 0)
              (subject w) (body w)
              (negb (truthy_opt (contact_email (contact w)))))
  end.

End SendEmailView.

(** ** What the meeting composer shows *)

Module MeetingView.
Import Js MeetingModal.

Record View : Type := mkView {
  dialogOpen : bool;
  title : string;
  form : FormData;
  leadOptions : list (string * string);
  contactOptions : list (string * string);
  statusOptions : list (string * string);
  teamsDisabled : bool;
  submitDisabled : bool;
  submitLabel : string
}.

Definition render (w : World) : View :=
  mkView (open w)
    (match props_meeting w with
     | Some _ => "Edit Meeting"
     | None => "New Meeting"
     end)
    (formData w)
    (("none", "None") :: map (fun lead => (l_id lead, lead_name lead)) (leads w))
    (("none", "None")
       :: map (fun contact => (c_id contact, contact_name contact)) (contacts w))
    [("scheduled", "Scheduled"); ("cancelled", "Cancelled")]
    (creatingTeamsMeeting w)
    (loading w)
    (if loading w then "Saving..."
     else match props_meeting w with
          | Some _ => "Update"
          | None => "Create"
          end).

End MeetingView.

(** ** Moving through the settings shell *)

Module SettingsNav.
Import Settings.

(** Every entry of the static menu, in order. *)
Definition allItems : list MenuItem :=
  List.concat (map items menuSections).

(** The buttons of the sidebar call [setActiveTab(item.id)]: the active
    tab after the entries [clicks] were clicked one after the other. *)
Definition navigate (clicks : list MenuItem) (activeTab : string) : string :=
  fold_left (fun _ item => id item) clicks activeTab.

(** The keys of the entries flagged admin-only. *)
Definition adminKeys : list string :=
  map id (filter (fun item => flagged (adminOnly item)) allItems).

End SettingsNav.

(** ** Templates made of text and placeholders *)

Module TemplateSpec.
Import Js SendEmailModal.

(** A piece of a template: text, or a brace token [{{name}}]. *)
Inductive Piece : Type :=
| Text (s : string)
| Token (name : string).

Definition show (p : Piece) : string :=
  match p with
  | Text s => s
  | Token n => "{{" ++ n ++ "}}"
  end.

Fixpoint show_all (ps : list Piece) : string :=
  match ps with
  | [] => ""
  | p :: ps' => show p ++ show_all ps'
  end.

(** Text holds no opening brace; a token name holds no brace at all. *)
Definition well_formed (p : Piece) : Prop :=
  match p with
  | Text s => has_char "{" s = false
  | Token n => has_char "{" n = false /\ has_char "}" n = false
  end.

(** The piece with a placeholder filled in from the contact; any other
    token stays. *)
Definition fill (c : Contact) (p : Piece) : Piece :=
  match p with
  | Text s => Text s
  | Token n =>
      if String.eqb n "contact_name" then Text (contact_name c)
      else if String.eqb n "company_name" then Text (SubstSpec.attr (company_name c))
      else if String.eqb n "position" then Text (SubstSpec.attr (position c))
      else if String.eqb n "email" then Text (SubstSpec.attr (email c))
      else Token n
  end.

(** No attribute of the contact holds an opening brace. *)
Definition brace_free (c : Contact) : Prop :=
  has_char "{" (contact_name c) = false
  /\ has_char "{" (SubstSpec.attr (company_name c)) = false
  /\ has_char "{" (SubstSpec.attr (position c)) = false
  /\ has_char "{" (SubstSpec.attr (email c)) = false.

(** One pass: the tokens named [p] become the text [v]. *)
Definition fill_one (p v : string) (x : Piece) : Piece :=
  match x with
  | Text s => Text s
  | Token n => if String.eqb n p then Text v else Token n
  end.

Fixpoint count_char (c : ascii) (s : string) : nat :=
  match s with
  | EmptyString => 0
  | String a s' => (if Ascii.eqb a c then 1 else 0) + count_char c s'
  end.

End TemplateSpec.

(** ** The characters of a link's query *)

Module QuerySpec.
Import Js.

Fixpoint all_chars (P : ascii -> bool) (s : string) : bool :=
  match s with
  | EmptyString => true
  | String a s' => P a && all_chars P s'
  end.

(** What an urlencoded value is written with: the characters kept as they
    are, the plus sign of a space and the percent sign of an escape. *)
Definition encoded_char (c : ascii) : bool :=
  Url.unreserved c || Ascii.eqb c "+" || Ascii.eqb c "%".

(** What a query is written with: encoded values, [=] and [&]. *)
Definition query_char (c : ascii) : bool :=
  encoded_char c || Ascii.eqb c "=" || Ascii.eqb c "&".

(** The number of non-empty strings among two. *)
Definition filled (s b : string) : nat :=
  (if truthy s then 1 else 0) + (if truthy b then 1 else 0).

End QuerySpec.

(** ** Reading the form of the meeting composer *)

Module FormSpec.
Import Js MeetingModal.

(** The value of a field of the form. *)
Definition field_value (f : Field) (fd : FormData) : string :=
  match f with
  | FSubject => subject fd
  | FStartTime => start_time fd
  | FEndTime => end_time fd
  | FLeadId => lead_id fd
  | FContactId => contact_id fd
  | FDescription => description fd
  | FJoinUrl => join_url fd
  | FStatus => status fd
  end.

(** What a control stores for the value it reports: the two link
    selectors store the empty string for their entry "none". *)
Definition stored (f : Field) (value : string) : string :=
  match f with
  | FLeadId | FContactId => if String.eqb value "none" then "" else value
  | _ => value
  end.

(** An optional value of a record after a trip through the form: an empty
    string comes back as [null]. *)
Definition through_form (x : option string) : option string :=
  match x with
  | Some EmptyString => None
  | _ => x
  end.

(** The form a record is shown as when the dialog opens with it. *)
Definition seeded_form (m : Meeting) : FormData :=
  mkForm (m_subject m) (MeetingSpec.shown (m_description m))
    (slice0 16 (m_start_time m)) (slice0 16 (m_end_time m))
    (MeetingSpec.shown (m_join_url m)) (MeetingSpec.shown (m_lead_id m))
    (MeetingSpec.shown (m_contact_id m))
    (if String.eqb (m_status m) "" then "scheduled" else m_status m).

(** The form of a new meeting that starts at the time [start]. *)
Definition default_form (start : Z) : FormData :=
  mkForm "" "" (JsDate.iso_minute start)
    (JsDate.iso_minute (start + 60 * JsDate.msPerMinute)) "" "" "" "scheduled".

(** The start of a new meeting for a dialog opened at the time [clock]. *)
Definition default_start (tz : JsDate.TimeZone) (clock : Z) : Z :=
  JsDate.UTC tz (MeetingSpec.next_hour (JsDate.LocalTime tz clock)).

End FormSpec.

(* ================================================================== *)
(** * Part II: properties                                              *)
(* ================================================================== *)

(** ** Strings *)

Section StringFacts.
Import Js.

Lemma append_assoc (a b c : string) : (a ++ b) ++ c = a ++ (b ++ c).
Proof. induction a as [|x a IH]; simpl; [reflexivity | now rewrite IH]. Qed.

Lemma append_nil_r (a : string) : a ++ "" = a.
Proof. induction a as [|x a IH]; simpl; [reflexivity | now rewrite IH]. Qed.

Lemma length_append (a b : string) : length (a ++ b) = length a + length b.
Proof. induction a as [|x a IH]; simpl; [reflexivity | now rewrite IH]. Qed.

Lemma snoc_append (a : string) (c : ascii) (b : string) :
  snoc a c ++ b = a ++ String c b.
Proof. unfold snoc. now rewrite append_assoc. Qed.

Lemma append_inv_length (a a' b b' : string) :
  a ++ b = a' ++ b' -> length a = length a' -> a = a' /\ b = b'.
Proof.
  revert a'. induction a as [|x a IH]; intros [|x' a'] H L; simpl in *;
    try discriminate.
  - now split.
  - injection H as -> H. injection L as L.
    destruct (IH _ H L) as [-> ->]. now split.
Qed.

Lemma append_inv_head (a b b' : string) : a ++ b = a ++ b' -> b = b'.
Proof. intros H. now destruct (append_inv_length a a b b' H eq_refl). Qed.

Lemma drop_append (a b : string) : drop (length a) (a ++ b) = b.
Proof. induction a as [|x a IH]; simpl; [reflexivity | exact IH]. Qed.

Lemma starts_with_append (p b : string) : starts_with p (p ++ b) = true.
Proof.
  induction p as [|x p IH]; simpl; [reflexivity|].
  now rewrite Ascii.eqb_refl.
Qed.

Lemma starts_with_split (p s : string) :
  starts_with p s = true -> s = p ++ drop (length p) s.
Proof.
  revert s. induction p as [|x p IH]; intros s H; simpl in *; [reflexivity|].
  destruct s as [|y s]; [discriminate|].
  destruct (Ascii.eqb_spec x y) as [->|]; [|discriminate].
  f_equal. now apply IH.
Qed.

Lemma has_char_append (c : ascii) (a b : string) :
  has_char c (a ++ b) = has_char c a || has_char c b.
Proof.
  induction a as [|x a IH]; simpl; [reflexivity|].
  now destruct (Ascii.eqb x c).
Qed.

End StringFacts.

(** ** Global replacement with a literal pattern *)

Section ReplaceFacts.
Import Js SubstSpec.

Lemma GetSubstitution_literal (m b a v : string) :
  has_char "$" v = false -> GetSubstitution m b a v = v.
Proof.
  induction v as [|c v IH]; simpl; [reflexivity|].
  destruct (Ascii.eqb c "$"); [discriminate|].
  intros H. now rewrite IH.
Qed.

Lemma replace_from_skip (pat t x before b : string) :
  replace_from pat t (length x) before (x ++ b)
  = replace_from pat t 0 (before ++ x) b.
Proof.
  revert before. induction x as [|c x IH]; intros before; simpl.
  - now rewrite append_nil_r.
  - rewrite IH. now rewrite snoc_append.
Qed.

Lemma replace_from_match (pat t before s : string) :
  pat <> "" -> starts_with pat s = true ->
  replace_from pat t 0 before s
  = GetSubstitution pat before (drop (length pat) s) t
      ++ replace_from pat t 0 (before ++ pat) (drop (length pat) s).
Proof.
  intros Hne Hs.
  destruct pat as [|c p]; [congruence|].
  destruct s as [|d rest]; [discriminate|].
  simpl in Hs. destruct (Ascii.eqb_spec c d) as [<-|]; [|discriminate].
  change (replace_from (String c p) t 0 before (String c rest))
    with (if starts_with (String c p) (String c rest)
          then GetSubstitution (String c p) before
                 (drop (length (String c p)) (String c rest)) t
               ++ replace_from (String c p) t (length (String c p) - 1)
                    (snoc before c) rest
          else String c (replace_from (String c p) t 0 (snoc before c) rest)).
  assert (E : starts_with (String c p) (String c rest) = true)
    by (simpl; now rewrite Ascii.eqb_refl).
  rewrite E. f_equal.
  simpl length. simpl drop.
  pose proof (starts_with_split p rest Hs) as Hsplit.
  set (b := drop (length p) rest) in *. clearbody b. subst rest.
  replace (S (length p) - 1) with (length p) by (simpl; lia).
  rewrite replace_from_skip. now rewrite snoc_append.
Qed.

Lemma replace_from_nomatch (pat t before : string) (c : ascii) (rest : string) :
  starts_with pat (String c rest) = false ->
  replace_from pat t 0 before (String c rest)
  = String c (replace_from pat t 0 (snoc before c) rest).
Proof. intros H. simpl replace_from. now rewrite H. Qed.

Lemma occurs_head (pat s : string) :
  starts_with pat s = true -> occurs pat s.
Proof.
  intros H. exists "", (drop (length pat) s). simpl.
  now apply starts_with_split.
Qed.

Lemma occurs_tail (pat : string) (c : ascii) (s : string) :
  occurs pat s -> occurs pat (String c s).
Proof.
  intros (a & b & ->). now exists (String c a), b.
Qed.

Lemma replace_from_absent (pat t before s : string) :
  ~ occurs pat s -> replace_from pat t 0 before s = s.
Proof.
  revert before. induction s as [|c s IH]; intros before H; [reflexivity|].
  destruct (starts_with pat (String c s)) eqn:E.
  - exfalso. now apply H, occurs_head.
  - rewrite replace_from_nomatch by assumption. f_equal.
    apply IH. intros O. now apply H, occurs_tail.
Qed.

Lemma replace_from_literal_before (pat v : string) :
  has_char "$" v = false ->
  forall s k b1 b2, replace_from pat v k b1 s = replace_from pat v k b2 s.
Proof.
  intros Hv. induction s as [|c s IH]; intros k b1 b2; [reflexivity|].
  simpl. destruct k as [|k].
  - destruct (starts_with pat (String c s)).
    + rewrite !GetSubstitution_literal by assumption. f_equal. apply IH.
    + f_equal. apply IH.
  - apply IH.
Qed.


Lemma not_occurs_cons (pat : string) (c : ascii) (s : string) :
  starts_with pat (String c s) = false -> ~ occurs pat s ->
  ~ occurs pat (String c s).
Proof.
  intros Hs Hn ([|x a] & b & E); simpl in E.
  - rewrite E, starts_with_append in Hs. discriminate.
  - injection E as _ E. apply Hn. now exists a, b.
Qed.

Lemma ReplacedAll_cons (pat v : string) (c : ascii) (s r : string) :
  starts_with pat (String c s) = false ->
  ReplacedAll pat v s r -> ReplacedAll pat v (String c s) (String c r).
Proof.
  intros Hs H. destruct H as [s Hn | a b r Hf H].
  - apply RA_none. now apply not_occurs_cons.
  - change (ReplacedAll pat v (String c a ++ pat ++ b) (String c a ++ v ++ r)).
    apply RA_next; [|assumption].
    intros [|x a'] b' E; simpl in E.
    + rewrite E, starts_with_append in Hs. discriminate.
    + injection E as _ E. simpl. apply le_n_S. now apply (Hf a' b').
Qed.

Lemma not_occurs_empty (pat : string) : pat <> "" -> ~ occurs pat "".
Proof.
  intros Hne ([|x a] & b & E); simpl in E; [|discriminate].
  destruct pat; [congruence | discriminate].
Qed.

(** With a replacement text free of dollar signs, [replace] with a global
    literal pattern replaces every occurrence. *)
Lemma replace_from_ReplacedAll (pat v : string) :
  pat <> "" -> has_char "$" v = false ->
  forall s before, ReplacedAll pat v s (replace_from pat v 0 before s).
Proof.
  intros Hne Hv s.
  induction s as [s IH] using (well_founded_induction
    (Wf_nat.well_founded_ltof _ String.length)).
  intros before. destruct s as [|c rest].
  - apply RA_none. now apply not_occurs_empty.
  - destruct (starts_with pat (String c rest)) eqn:E.
    + rewrite replace_from_match by assumption.
      rewrite GetSubstitution_literal by assumption.
      pose proof (starts_with_split _ _ E) as Hsplit.
      set (b := drop (length pat) (String c rest)) in *.
      rewrite Hsplit at 1.
      change (ReplacedAll pat v ("" ++ pat ++ b)
                ("" ++ v ++ replace_from pat v 0 (before ++ pat) b)).
      apply RA_next.
      * intros a' b' _. simpl. lia.
      * apply IH. unfold Wf_nat.ltof. rewrite Hsplit, length_append.
        destruct pat; [congruence | simpl; lia].
    + rewrite replace_from_nomatch by assumption.
      apply ReplacedAll_cons; [assumption|].
      apply IH. unfold Wf_nat.ltof. simpl. lia.
Qed.

Lemma RewrittenAll_cons (pat t before : string) (c : ascii) (s r : string) :
  starts_with pat (String c s) = false ->
  RewrittenAll pat t (snoc before c) s r ->
  RewrittenAll pat t before (String c s) (String c r).
Proof.
  intros Hs H. inversion H as [bf s' Hn | bf a b r' Hf H']; subst.
  - apply RW_none. now apply not_occurs_cons.
  - rewrite !snoc_append in *.
    change (RewrittenAll pat t before (String c a ++ pat ++ b)
              (String c a ++ GetSubstitution pat (before ++ String c a) b t ++ r')).
    apply RW_next.
    + intros [|x a'] b' E; simpl in E.
      * rewrite E, starts_with_append in Hs. discriminate.
      * injection E as _ E. simpl. apply le_n_S. now apply (Hf a' b').
    + exact H'.
Qed.

(** [replace] with a global literal pattern rewrites every occurrence,
    whatever the replacement template. *)
Lemma replace_from_RewrittenAll (pat t : string) :
  pat <> "" ->
  forall s before, RewrittenAll pat t before s (replace_from pat t 0 before s).
Proof.
  intros Hne s.
  induction s as [s IH] using (well_founded_induction
    (Wf_nat.well_founded_ltof _ String.length)).
  intros before. destruct s as [|c rest].
  - apply RW_none. now apply not_occurs_empty.
  - destruct (starts_with pat (String c rest)) eqn:E.
    + rewrite replace_from_match by assumption.
      pose proof (starts_with_split _ _ E) as Hsplit.
      set (b := drop (length pat) (String c rest)) in *.
      rewrite Hsplit at 1.
      assert (Hf : first_after pat "" b) by (intros a' b' _; simpl; lia).
      assert (Hb : RewrittenAll pat t (before ++ "" ++ pat) b
                     (replace_from pat t 0 (before ++ pat) b)).
      { apply IH. unfold Wf_nat.ltof. rewrite Hsplit, length_append.
        destruct pat; [congruence | simpl; lia]. }
      pose proof (RW_next pat t before "" b _ Hf Hb) as H.
      rewrite append_nil_r in H. exact H.
    + rewrite replace_from_nomatch by assumption.
      apply RewrittenAll_cons; [assumption|].
      apply IH. unfold Wf_nat.ltof. simpl. lia.
Qed.

(** [RewrittenAll] determines its result. *)
Lemma RewrittenAll_functional (pat t before s r1 r2 : string) :
  RewrittenAll pat t before s r1 -> RewrittenAll pat t before s r2 -> r1 = r2.
Proof.
  intros H1. revert r2.
  induction H1 as [before s Hn | before a b r Hf H1 IH]; intros r2 H2.
  - inversion H2 as [bf s' Hn' | bf a' b' r' Hf' H' E]; subst; [reflexivity|].
    exfalso. apply Hn. now exists a', b'.
  - inversion H2 as [bf s' Hn' | bf a' b' r' Hf' H' E1 E]; subst.
    + exfalso. apply Hn'. now exists a, b.
    + assert (L : length a' = length a).
      { apply Nat.le_antisymm; [apply (Hf' a b) | apply (Hf a' b')]; congruence. }
      destruct (append_inv_length _ _ _ _ E L) as [-> Eb].
      apply append_inv_head in Eb. subst b'.
      now rewrite (IH _ H').
Qed.

(** [ReplacedAll] determines its result. *)
Lemma ReplacedAll_functional (pat v s r1 r2 : string) :
  ReplacedAll pat v s r1 -> ReplacedAll pat v s r2 -> r1 = r2.
Proof.
  intros H1. revert r2.
  induction H1 as [s Hn | a b r Hf H1 IH]; intros r2 H2.
  - inversion H2 as [s' Hn' | a' b' r' Hf' H' E]; subst; [reflexivity|].
    exfalso. apply Hn. now exists a', b'.
  - inversion H2 as [s' Hn' | a' b' r' Hf' H' E]; subst.
    + exfalso. apply Hn'. now exists a, b.
    + assert (L : length a' = length a).
      { apply Nat.le_antisymm; [apply (Hf' a b) | apply (Hf a' b')]; congruence. }
      destruct (append_inv_length _ _ _ _ E L) as [-> Eb].
      apply append_inv_head in Eb. subst b'.
      now rewrite (IH _ H').
Qed.

End ReplaceFacts.

(** ** The e-mail composer: variable substitution *)

Section SendEmailModalFacts.
Import Js Eff SendEmailModal SubstSpec.

Lemma or_else_empty (x : string) : or_else x "" = x.
Proof. now destruct x. Qed.

Lemma opt_or_else_empty (x : option string) : opt_or_else x "" = attr x.
Proof. destruct x as [s|]; [apply or_else_empty | reflexivity]. Qed.

(** The four passes of [replaceVariables], innermost first. *)
Lemma replaceVariables_passes (text : string) (c : Contact) :
  replaceVariables text (Some c)
  = replace_g "{{email}}" (attr (email c))
      (replace_g "{{position}}" (attr (position c))
         (replace_g "{{company_name}}" (attr (company_name c))
            (replace_g "{{contact_name}}" (contact_name c) text))).
Proof.
  unfold replaceVariables. now rewrite !opt_or_else_empty, or_else_empty.
Qed.

Lemma replaceVariables_sequential (text : string) (c : Contact) :
  dollar_free c -> SequentialPasses c text (replaceVariables text (Some c)).
Proof.
  intros (Hn & Hc & Hp & He). rewrite replaceVariables_passes.
  unfold SequentialPasses, replace_g.
  eexists _, _, _.
  repeat split; apply replace_from_ReplacedAll; (discriminate || assumption).
Qed.

Lemma replaceVariables_untouched (text : string) (c : option Contact) :
  (forall p, In p recognized -> ~ occurs p text) ->
  replaceVariables text c = text.
Proof.
  intros H. destruct c as [c|]; [|reflexivity].
  unfold replaceVariables, replace_g.
  rewrite (replace_from_absent "{{contact_name}}") by (apply H; simpl; tauto).
  rewrite (replace_from_absent "{{company_name}}") by (apply H; simpl; tauto).
  rewrite (replace_from_absent "{{position}}") by (apply H; simpl; tauto).
  now rewrite (replace_from_absent "{{email}}") by (apply H; simpl; tauto).
Qed.

Lemma starts_with_head_differs (c x : ascii) (p s : string) :
  Ascii.eqb x c = false -> starts_with (String c p) (String x s) = false.
Proof.
  intros E. cbn [starts_with]. now rewrite Ascii.eqb_sym, E.
Qed.

Lemma replace_from_brace_free (p t before a s : string) :
  has_char "{" a = false ->
  replace_from (String "{" p) t 0 before (a ++ s)
  = a ++ replace_from (String "{" p) t 0 (before ++ a) s.
Proof.
  revert before. induction a as [|x a IH]; intros before H.
  - simpl. now rewrite append_nil_r.
  - simpl in H. destruct (Ascii.eqb x "{") eqn:E; [discriminate|].
    change (String x a ++ s) with (String x (a ++ s)).
    rewrite replace_from_nomatch.
    + rewrite (IH _ H), snoc_append. reflexivity.
    + now apply starts_with_head_differs.
Qed.

Lemma replace_from_brace_free_all (p t before b : string) :
  has_char "{" b = false ->
  replace_from (String "{" p) t 0 before b = b.
Proof.
  intros H. rewrite <- (append_nil_r b) at 1.
  rewrite replace_from_brace_free by assumption.
  simpl. apply append_nil_r.
Qed.

Lemma subst_from_brace_free (c : Contact) (a s : string) :
  has_char "{" a = false ->
  subst_from (placeholders c) 0 (a ++ s) = a ++ subst_from (placeholders c) 0 s.
Proof.
  induction a as [|x a IH]; intros H; [reflexivity|].
  simpl in H. destruct (Ascii.eqb x "{") eqn:E; [discriminate|].
  change (String x a ++ s) with (String x (a ++ s)).
  cbn [subst_from placeholders find fst].
  rewrite !starts_with_head_differs by assumption.
  now rewrite IH.
Qed.


(** A pass over a text whose only brace-delimited token is the pattern
    itself. *)
Lemma replace_from_single_token (p t before a b : string) :
  has_char "{" a = false -> has_char "{" b = false ->
  replace_from (String "{" p) t 0 before (a ++ String "{" p ++ b)
  = a ++ GetSubstitution (String "{" p) (before ++ a) b t ++ b.
Proof.
  intros Ha Hb. rewrite replace_from_brace_free by assumption. f_equal.
  rewrite replace_from_match;
    [| discriminate | apply starts_with_append].
  rewrite drop_append. f_equal.
  now apply replace_from_brace_free_all.
Qed.

(** A pass for another placeholder leaves an [{{email}}] token alone. *)
Lemma replace_from_email_token_kept (pat t before a b : string) :
  pat = "{{company_name}}" \/ pat = "{{position}}" ->
  has_char "{" a = false -> has_char "{" b = false ->
  replace_from pat t 0 before (a ++ "{{email}}" ++ b) = a ++ "{{email}}" ++ b.
Proof.
  intros [-> | ->] Ha Hb; rewrite replace_from_brace_free by assumption;
    f_equal; cbn [append];
    repeat (rewrite replace_from_nomatch by reflexivity; f_equal);
    now apply replace_from_brace_free_all.
Qed.

Lemma subst_from_skip (tbl : list (string * string)) (x b : string) :
  subst_from tbl (length x) (x ++ b) = subst_from tbl 0 b.
Proof. induction x as [|c x IH]; simpl; [reflexivity | exact IH]. Qed.

Lemma substituteSimultaneous_name_token (c : Contact) (a b : string) :
  has_char "{" a = false -> has_char "{" b = false ->
  substituteSimultaneous (a ++ "{{contact_name}}" ++ b) c
  = a ++ contact_name c ++ b.
Proof.
  intros Ha Hb. unfold substituteSimultaneous.
  rewrite subst_from_brace_free by assumption. f_equal.
  cbn [append].
  change (subst_from (placeholders c) 0 (String "{" (String "{" (String "c"
            (String "o" (String "n" (String "t" (String "a" (String "c"
            (String "t" (String "_" (String "n" (String "a" (String "m"
            (String "e" (String "}" (String "}" b)))))))))))))))))
    with (contact_name c
            ++ subst_from (placeholders c) (length "{contact_name}}")
                 ("{contact_name}}" ++ b)).
  rewrite subst_from_skip. f_equal.
  rewrite <- (append_nil_r b) at 1.
  rewrite subst_from_brace_free by assumption. simpl. apply append_nil_r.
Qed.

End SendEmailModalFacts.

Section TemplateSelection.
Import Js Eff SendEmailModal SubstSpec.

(** C1, as amended.  For a contact whose attributes hold no dollar sign,
    selecting a template that the loaded list holds under its id (an id
    other than the entry "none") sets the subject and the body to the
    template's subject and body after four passes, in the order contact
    name, company name, position, e-mail: each pass replaces every
    occurrence of its placeholder in the text it receives, text put in by
    an earlier pass included, by the attribute, or by the empty string for
    a missing attribute.  A text that holds none of the four placeholders
    comes back unchanged, whatever other brace tokens it holds.  The result
    is a function of the template text and the contact alone; the list of
    templates, the contact and the log are left as they were. *)
Theorem C1_template_select_sequential
    (w : World) (c : Contact) (t : EmailTemplate) :
  contact w = Some c ->
  find (fun t' => String.eqb (id t') (id t)) (templates w) = Some t ->
  id t <> "none" ->
  dollar_free c ->
  let w' := exec (handleTemplateSelect (id t)) w in
  selectedTemplate w' = id t
  /\ subject w' = replaceVariables (t_subject t) (Some c)
  /\ body w' = replaceVariables (t_body t) (Some c)
  /\ SequentialPasses c (t_subject t) (subject w')
  /\ SequentialPasses c (t_body t) (body w')
  /\ (forall text, (forall p, In p recognized -> ~ occurs p text) ->
        replaceVariables text (Some c) = text)
  /\ templates w' = templates w /\ contact w' = contact w /\ log w' = log w.
Proof.
  intros Hc Hfind Hid Hd w'.
  assert (E : w' = mkWorld (open w) (contact w) (templates w) (id t)
                     (replaceVariables (t_subject t) (Some c))
                     (replaceVariables (t_body t) (Some c)) (log w)).
  { subst w'. unfold handleTemplateSelect, exec, bind, setSelectedTemplate,
      setSubject, setBody, modify, get. cbn.
    destruct (String.eqb_spec (id t) "none") as [e|_]; [contradiction|].
    cbn. rewrite Hfind. cbn. now rewrite Hc. }
  rewrite E. cbn [selectedTemplate subject body templates contact log].
  split; [reflexivity|]. split; [reflexivity|]. split; [reflexivity|].
  split; [now apply replaceVariables_sequential|].
  split; [now apply replaceVariables_sequential|].
  split; [intros text; apply replaceVariables_untouched|].
  now repeat split.
Qed.

Lemma C1_template_select_sequential_witness :
  let c := mkContact "Jane" (Some "Acme") None None in
  let t := mkTemplate "t1" "Intro" "Hello {{contact_name}} from {{company_name}}"
             "{{contact_name}}, {{contact_name}}: {{unknown}} {{position}}" in
  let w := mkWorld true (Some c) [t] "" "old" "old" [] in
  let w' := exec (handleTemplateSelect "t1") w in
  (contact w = Some c
   /\ find (fun t' => String.eqb (id t') (id t)) (templates w) = Some t
   /\ id t <> "none" /\ dollar_free c)
  /\ subject w' = "Hello Jane from Acme"
  /\ body w' = "Jane, Jane: {{unknown}} "
  /\ SequentialPasses c (t_subject t) (subject w').
Proof.
  intros c t w w'.
  assert (H1 : contact w = Some c) by reflexivity.
  assert (H2 : find (fun t' => String.eqb (id t') (id t)) (templates w) = Some t)
    by reflexivity.
  assert (H3 : id t <> "none") by discriminate.
  assert (H4 : dollar_free c) by (repeat split; reflexivity).
  pose proof (C1_template_select_sequential w c t H1 H2 H3 H4) as H.
  split; [repeat split; assumption|].
  split; [reflexivity|]. split; [reflexivity|].
  exact (proj1 (proj2 (proj2 (proj2 H)))).
Defined.

(** The replacement text of [String.prototype.replace] is a template: a
    dollar pattern in an attribute is expanded, not copied. *)
Lemma replaceVariables_dollar_patterns :
  replaceVariables "Hello {{contact_name}}!"
    (Some (mkContact "US$$ [$&]" None None None))
  = "Hello US$ [{{contact_name}}]!".
Proof. reflexivity. Qed.

(** The examples of the specification. *)
Lemma replaceVariables_examples :
  replaceVariables "Hello {{contact_name}} from {{company_name}}"
    (Some (mkContact "Jane" (Some "Acme") None None)) = "Hello Jane from Acme"
  /\ replaceVariables "Hello {{contact_name}} from {{company_name}}"
       (Some (mkContact "Jane" None None None)) = "Hello Jane from ".
Proof. split; reflexivity. Qed.

(** A placeholder can also come together from the text around a removed
    one. *)
Lemma replaceVariables_joins_tokens :
  replaceVariables "{{em{{contact_name}}ail}}"
    (Some (mkContact "" None None (Some "x@y.z"))) = "x@y.z".
Proof. reflexivity. Qed.

(** C1 fails as stated: the contact name is the text of the e-mail
    placeholder; the subject ends up with the e-mail address where the
    contact's name should stand. *)
Lemma C1_counterexample :
  let c := mkContact "{{email}}" None None (Some "a@b.c") in
  let t := mkTemplate "t1" "Intro" "Hi {{contact_name}}" "" in
  let w := mkWorld true (Some c) [t] "" "" "" [] in
  subject (exec (handleTemplateSelect (id t)) w) = "Hi a@b.c"
  /\ substituteSimultaneous (t_subject t) c = "Hi {{email}}"
  /\ subject (exec (handleTemplateSelect (id t)) w)
     <> substituteSimultaneous (t_subject t) c.
Proof.
  cbv zeta. split; [reflexivity|]. split; [reflexivity|].
  vm_compute. discriminate.
Qed.


(** C10.  [replaceVariables] is the composition of four global
    replacements in the order contact name, company name, position,
    e-mail: each pass rewrites every occurrence of its placeholder in the
    result of the pass before it, for every text and every contact.
    Hence when the contact name holds the token of the e-mail
    placeholder, the e-mail pass rewrites that inserted token as well: on a
    template with one contact-name placeholder the inserted token gives way
    to the expansion of the e-mail attribute, where a substitution done in
    one pass over the template would leave it standing. *)
Theorem C10_sequential_not_simultaneous :
  (forall (text : string) (c : Contact),
     replaceVariables text (Some c)
     = replace_g "{{email}}" (attr (email c))
         (replace_g "{{position}}" (attr (position c))
            (replace_g "{{company_name}}" (attr (company_name c))
               (replace_g "{{contact_name}}" (contact_name c) text))))
  /\ (forall (text : string) (c : Contact),
        exists s1 s2 s3,
          RewrittenAll "{{contact_name}}" (contact_name c) "" text s1
          /\ RewrittenAll "{{company_name}}" (attr (company_name c)) "" s1 s2
          /\ RewrittenAll "{{position}}" (attr (position c)) "" s2 s3
          /\ RewrittenAll "{{email}}" (attr (email c)) "" s3
               (replaceVariables text (Some c)))
  /\ (forall (c : Contact) (a b x y : string),
        contact_name c = x ++ "{{email}}" ++ y ->
        has_char "{" a = false -> has_char "{" b = false ->
        has_char "{" x = false -> has_char "{" y = false ->
        has_char "$" x = false -> has_char "$" y = false ->
        replaceVariables (a ++ "{{contact_name}}" ++ b) (Some c)
        = (a ++ x)
            ++ GetSubstitution "{{email}}" (a ++ x) (y ++ b) (attr (email c))
            ++ (y ++ b)
        /\ substituteSimultaneous (a ++ "{{contact_name}}" ++ b) c
           = (a ++ x) ++ "{{email}}" ++ (y ++ b)).
Proof.
  split; [exact replaceVariables_passes|].
  split.
  { intros text c. rewrite replaceVariables_passes. unfold replace_g.
    eexists _, _, _.
    repeat split; apply replace_from_RewrittenAll; discriminate. }
  intros c a b x y Hname Ha Hb Hx Hy Dx Dy.
  assert (Hax : has_char "{" (a ++ x) = false)
    by (rewrite has_char_append, Ha, Hx; reflexivity).
  assert (Hyb : has_char "{" (y ++ b) = false)
    by (rewrite has_char_append, Hy, Hb; reflexivity).
  assert (Dn : has_char "$" (contact_name c) = false).
  { rewrite Hname, !has_char_append, Dx, Dy. reflexivity. }
  assert (Eassoc : a ++ contact_name c ++ b = (a ++ x) ++ "{{email}}" ++ (y ++ b)).
  { rewrite Hname, !append_assoc. reflexivity. }
  split.
  - rewrite replaceVariables_passes. unfold replace_g.
    rewrite (replace_from_single_token "{contact_name}}") by assumption.
    rewrite GetSubstitution_literal by assumption.
    rewrite Eassoc.
    rewrite (replace_from_email_token_kept "{{company_name}}") by auto.
    rewrite (replace_from_email_token_kept "{{position}}") by auto.
    rewrite (replace_from_single_token "{email}}") by assumption.
    reflexivity.
  - rewrite substituteSimultaneous_name_token by assumption. exact Eassoc.
Qed.

Lemma C10_sequential_not_simultaneous_witness :
  let c := mkContact "see {{email}} please" None None (Some "a@b.c") in
  let text := "Hi {{contact_name}}!" in
  (contact_name c = "see " ++ "{{email}}" ++ " please"
   /\ has_char "{" "Hi " = false /\ has_char "{" "!" = false)
  /\ replaceVariables text (Some c) = "Hi see a@b.c please!"
  /\ substituteSimultaneous text c = "Hi see {{email}} please!".
Proof.
  intros c text.
  split; [repeat split; reflexivity|].
  exact (proj2 (proj2 C10_sequential_not_simultaneous) c "Hi " "!" "see " " please"
           eq_refl eq_refl eq_refl eq_refl eq_refl eq_refl eq_refl).
Defined.

End TemplateSelection.

(** ** The meeting composer *)

Section MeetingFacts.
Import Js Eff MeetingModal MeetingSpec LinkSpec.

Lemma truthy_false (s : string) : truthy s = false <-> s = "".
Proof. destruct s; simpl; split; congruence. Qed.

Lemma truthy_true (s : string) : truthy s = true <-> s <> "".
Proof. destruct s; simpl; split; congruence. Qed.

Lemma opt_or_else_message (e : JsError) (d : string) :
  opt_or_else (message e) d = message_or e d.
Proof. unfold message_or. destruct (message e) as [[|c s]|]; reflexivity. Qed.

Lemma or_null_normalized (x : string) : normalized x (or_null x).
Proof. unfold normalized, or_null. destruct x; split; simpl; intros; congruence. Qed.

Lemma skipn_length_app {A : Type} (l l' : list A) :
  skipn (List.length l) (l ++ l') = l'.
Proof. induction l; simpl; auto. Qed.

Lemma blank_test (fd : FormData) :
  some_blank fd ->
  negb (truthy (subject fd)) || negb (truthy (start_time fd))
    || negb (truthy (end_time fd)) = true.
Proof.
  intros [H | [H | H]]; rewrite H; simpl; rewrite ?orb_true_r; reflexivity.
Qed.

Lemma filled_test (fd : FormData) :
  required_filled fd ->
  negb (truthy (subject fd)) || negb (truthy (start_time fd))
    || negb (truthy (end_time fd)) = false.
Proof.
  intros (H1 & H2 & H3).
  apply truthy_true in H1, H2, H3. now rewrite H1, H2, H3.
Qed.

Lemma handleSubmit_blank (resp : Response unit) (w : World) :
  some_blank (formData w) ->
  handleSubmit resp w
  = (Ok tt,
     mkWorld (open w) (props_meeting w) (user_id w) (loading w)
       (creatingTeamsMeeting w) (leads w) (contacts w) (formData w)
       (log w ++ [EPreventDefault;
                  EToast (mkToast "Missing fields"
                            "Please fill in all required fields" vDestructive)])).
Proof.
  intros H. unfold handleSubmit, bind, get, emit, toast, emit, modify. cbn.
  rewrite (blank_test _ H). cbn. now rewrite <- app_assoc.
Qed.

Lemma handleSubmit_success (resp : Response unit) (w : World) :
  required_filled (formData w) -> failure resp = None ->
  handleSubmit resp w
  = (Ok tt,
     mkWorld (open w) (props_meeting w) (user_id w) false
       (creatingTeamsMeeting w) (leads w) (contacts w) (formData w)
       (log w ++ [EPreventDefault; write_of w;
                  EToast (mkToast "Success"
                            (match props_meeting w with
                             | Some _ => "Meeting updated successfully"
                             | None => "Meeting created successfully"
                             end) vDefault);
                  EOnSuccess; EOnOpenChange false])).
Proof.
  intros H F. unfold handleSubmit, bind, get, emit, toast, emit, modify,
    try_finally, try_catch, setLoading, check_write, write_of, row_of, ret,
    throw, modify. cbn.
  rewrite (filled_test _ H). cbn.
  destruct resp as [e | d [e|]]; try discriminate.
  destruct (props_meeting w); cbn; now rewrite <- !app_assoc.
Qed.

Lemma handleSubmit_failure (resp : Response unit) (w : World) (e : JsError) :
  required_filled (formData w) -> failure resp = Some e ->
  handleSubmit resp w
  = (Ok tt,
     mkWorld (open w) (props_meeting w) (user_id w) false
       (creatingTeamsMeeting w) (leads w) (contacts w) (formData w)
       (log w ++ [EPreventDefault; write_of w;
                  EConsoleError "Error saving meeting:" e;
                  EToast (mkToast "Error" (message_or e "Failed to save meeting")
                            vDestructive)])).
Proof.
  intros H F. rewrite <- opt_or_else_message.
  unfold handleSubmit, bind, get, emit, toast, emit, modify,
    try_finally, try_catch, setLoading, check_write, write_of, row_of, ret,
    throw, modify. cbn.
  rewrite (filled_test _ H). cbn.
  destruct resp as [e' | d [e'|]]; try discriminate;
    injection F as ->;
    destruct (props_meeting w); cbn; now rewrite <- !app_assoc.
Qed.

End MeetingFacts.

(** Unfolding a handler of the meeting composer down to its world. *)
Ltac run_handler :=
  unfold MeetingModal.createTeamsMeeting, MeetingModal.handleSubmit,
    Eff.bind, Eff.get, MeetingModal.emit, MeetingModal.toast,
    MeetingModal.emit, Eff.modify, Eff.try_finally, Eff.try_catch,
    MeetingModal.setLoading, MeetingModal.setCreatingTeamsMeeting,
    MeetingModal.updFormData, MeetingModal.check_write, Eff.ret, Eff.throw,
    Eff.modify; cbn.

Ltac break_match :=
  repeat match goal with
         | |- context [match ?x with _ => _ end] => destruct x; cbn
         end.

Section TeamsLink.
Import Js Eff MeetingModal MeetingSpec LinkSpec.

Lemma gatherAttendees_selected (w : World) (a : Attendee) :
  In a (gatherAttendees w) <-> selected_lead w a \/ selected_contact w a.
Proof.
  unfold gatherAttendees, selected_lead, selected_contact.
  set (fl := find _ (leads w)). set (fc := find _ (contacts w)).
  split.
  - intros H.
    destruct (truthy (lead_id (formData w))) eqn:Tl;
      destruct (truthy (contact_id (formData w))) eqn:Tc;
      destruct fl as [l|] eqn:El; destruct fc as [c|] eqn:Ec;
      try destruct (l_email l) as [el|] eqn:Eel;
      try destruct (c_email c) as [ec|] eqn:Eec;
      try destruct (truthy el) eqn:Tel;
      try destruct (truthy ec) eqn:Tec;
      cbn in H; try contradiction;
      repeat match goal with
             | H : _ \/ _ |- _ => destruct H
             | H : False |- _ => contradiction
             end; subst a; cbn;
      try (left; exists l; apply truthy_true in Tl, Tel; now repeat split);
      try (right; exists c; apply truthy_true in Tc, Tec; now repeat split).
  - intros [(l & Hl & Hf & He & Hne & Hn) | (c & Hc & Hf & He & Hne & Hn)].
    + apply truthy_true in Hl, Hne. rewrite Hl. subst fl. rewrite Hf, He, Hne.
      assert (Ea : a = mkAttendee (a_email a) (lead_name l))
        by (destruct a; cbn in *; congruence).
      rewrite <- Ea.
      destruct (truthy (contact_id (formData w))); [|now left].
      destruct fc as [c|]; [|now left].
      destruct (c_email c) as [ec|]; [|now left].
      destruct (truthy ec); cbn; auto.
    + apply truthy_true in Hc, Hne. rewrite Hc. subst fc. rewrite Hf, He, Hne.
      assert (Ea : a = mkAttendee (a_email a) (contact_name c))
        by (destruct a; cbn in *; congruence).
      rewrite <- Ea. apply in_or_app. right. now left.
Qed.


Lemma createTeamsMeeting_blank (resp : Response InvokeData) (w : World) :
  some_blank (formData w) ->
  createTeamsMeeting resp w
  = (Ok tt,
     mkWorld (open w) (props_meeting w) (user_id w) (loading w)
       (creatingTeamsMeeting w) (leads w) (contacts w) (formData w)
       (log w ++ [EToast (mkToast "Missing fields"
                            "Please fill in subject, start time and end time first"
                            vDestructive)])).
Proof.
  intros H. run_handler. now rewrite (blank_test _ H).
Qed.

(** The body of the one call to the remote function. *)
Lemma createTeamsMeeting_link
    (data : option InvokeData) (url : string) (w : World) :
  required_filled (formData w) ->
  data_joinUrl data = Some url -> url <> "" ->
  createTeamsMeeting (Resolved data None) w
  = (Ok tt,
     mkWorld (open w) (props_meeting w) (user_id w) (loading w) false
       (leads w) (contacts w) (with_join_url (formData w) url)
       (log w ++ [EInvoke "create-teams-meeting" (invoke_body w);
                  EToast (mkToast "Teams Meeting Created"
                            "Meeting link has been generated" vDefault)])).
Proof.
  intros H D U. run_handler. rewrite (filled_test _ H). cbn.
  rewrite D. apply truthy_true in U. rewrite U. cbn.
  now rewrite <- !app_assoc.
Qed.

Lemma createTeamsMeeting_no_link (data : option InvokeData) (w : World) :
  required_filled (formData w) ->
  data_joinUrl data = None \/ data_joinUrl data = Some "" ->
  createTeamsMeeting (Resolved data None) w
  = (Ok tt,
     mkWorld (open w) (props_meeting w) (user_id w) (loading w) false
       (leads w) (contacts w) (formData w)
       (log w ++ [EInvoke "create-teams-meeting" (invoke_body w)])).
Proof.
  intros H D. run_handler. rewrite (filled_test _ H). cbn.
  destruct D as [-> | ->]; reflexivity.
Qed.

Lemma createTeamsMeeting_failure
    (resp : Response InvokeData) (e : JsError) (w : World) :
  required_filled (formData w) -> failure resp = Some e ->
  createTeamsMeeting resp w
  = (Ok tt,
     mkWorld (open w) (props_meeting w) (user_id w) (loading w) false
       (leads w) (contacts w) (formData w)
       (log w ++ [EInvoke "create-teams-meeting" (invoke_body w);
                  EConsoleError "Error creating Teams meeting:" e;
                  EToast (mkToast "Error"
                            (message_or e "Failed to create Teams meeting")
                            vDestructive)])).
Proof.
  intros H F. rewrite <- opt_or_else_message. run_handler.
  rewrite (filled_test _ H). cbn.
  destruct resp as [e' | d [e'|]]; try discriminate;
    injection F as ->; cbn; now rewrite <- !app_assoc.
Qed.

Lemma emitted_of {A : Type} (m : M World A) (w w' : World) (r : Result A)
    (l : list Event) :
  m w = (r, w') -> log w' = (log w ++ l)%list -> emitted m w = l.
Proof.
  intros E L. unfold emitted, exec. rewrite E. cbn. rewrite L.
  apply skipn_length_app.
Qed.

(** C2.  With subject, start time and end time filled, asking for a
    conferencing link records exactly one call of the remote function
    [create-teams-meeting], whose body is the subject, the attendees and
    the two times of the form; the attendees are exactly the selected lead
    and the selected contact that have a non-empty e-mail address.  An
    answer without error that carries a join link puts that link into the
    join-link field; a failed call leaves the form as it was and shows one
    error notification. *)
Theorem C2_conferencing_link (w : World) (resp : Response InvokeData) :
  required_filled (formData w) ->
  let w' := exec (createTeamsMeeting resp) w in
  (exists attendees,
     invokes (emitted (createTeamsMeeting resp) w)
     = [EInvoke "create-teams-meeting"
          (mkBody (subject (formData w)) attendees
             (start_time (formData w)) (end_time (formData w)))]
     /\ forall a, In a attendees <-> selected_lead w a \/ selected_contact w a)
  /\ (forall data url,
        resp = Resolved data None -> data_joinUrl data = Some url -> url <> "" ->
        formData w' = with_join_url (formData w) url)
  /\ (forall e,
        failure resp = Some e ->
        formData w' = formData w
        /\ toasts (emitted (createTeamsMeeting resp) w)
           = [EToast (mkToast "Error"
                        (message_or e "Failed to create Teams meeting")
                        vDestructive)]).
Proof.
  intros H w'. subst w'.
  split; [|split].
  - exists (gatherAttendees w). split; [|apply gatherAttendees_selected].
    destruct (failure resp) as [e|] eqn:F.
    + erewrite emitted_of;
        [| eapply createTeamsMeeting_failure; eassumption | reflexivity]. reflexivity.
    + destruct resp as [e | d [e|]]; try discriminate.
      destruct (data_joinUrl d) as [[|c u]|] eqn:D.
      * erewrite emitted_of;
          [| apply createTeamsMeeting_no_link; auto | reflexivity]. reflexivity.
      * erewrite emitted_of;
          [| apply (createTeamsMeeting_link d (String c u)); auto; discriminate
           | reflexivity]. reflexivity.
      * erewrite emitted_of;
          [| apply createTeamsMeeting_no_link; auto | reflexivity]. reflexivity.
  - intros data url -> D U. unfold exec.
    now rewrite (createTeamsMeeting_link data url w H D U).
  - intros e F. unfold exec at 1.
    rewrite (createTeamsMeeting_failure resp e w H F). split; [reflexivity|].
    erewrite emitted_of;
      [| eapply createTeamsMeeting_failure; eassumption | reflexivity]. reflexivity.
Qed.

End TeamsLink.

Section Submission.
Import Js Eff MeetingModal MeetingSpec LinkSpec.

Lemma fetchLeadsAndContacts_props
    (r1 : Response (list Lead)) (r2 : Response (list Contact)) (w : World) :
  exists w',
    fetchLeadsAndContacts r1 r2 w = (Ok tt, w')
    /\ open w' = open w /\ props_meeting w' = props_meeting w
    /\ formData w' = formData w /\ user_id w' = user_id w.
Proof.
  unfold fetchLeadsAndContacts, try_catch, bind, emit, modify, throw, ret,
    setLeads, setContacts, modify. cbn.
  destruct r1 as [e1 | [l1|] er1], r2 as [e2 | [l2|] er2]; cbn;
    eexists; split; try reflexivity; cbn; auto.
Qed.

Lemma useEffect_open_props (tz : JsDate.TimeZone) (clock : Z)
    (r1 : Response (list Lead)) (r2 : Response (list Contact)) (w : World) :
  props_meeting (exec (useEffect_open tz clock r1 r2) w) = props_meeting w.
Proof.
  unfold exec, useEffect_open, bind, get. cbn.
  destruct (open w); [|reflexivity].
  destruct (fetchLeadsAndContacts_props r1 r2 w) as (w' & -> & _ & P & _).
  unfold setFormData, updFormData, modify, toISOString, bind, throw, ret.
  destruct (props_meeting w); cbn; [assumption|].
  destruct (JsDate.setHours tz clock (JsDate.getHours tz clock + 1) 0 0 0)
    as [t|]; cbn; [|assumption].
  destruct (JsDate.TimeClip (t + 3600000)); cbn; assumption.
Qed.

Lemma blank_or_filled (fd : FormData) : some_blank fd \/ required_filled fd.
Proof.
  unfold some_blank, required_filled.
  destruct (subject fd), (start_time fd), (end_time fd); auto;
    right; repeat split; discriminate.
Qed.

(** A submission touches only [loading] and the log. *)
Lemma handleSubmit_frame (resp : Response unit) (w : World) :
  exists ld l,
    handleSubmit resp w
    = (Ok tt,
       mkWorld (open w) (props_meeting w) (user_id w) ld
         (creatingTeamsMeeting w) (leads w) (contacts w) (formData w)
         (log w ++ l)).
Proof.
  destruct (blank_or_filled (formData w)) as [B | F].
  - rewrite (handleSubmit_blank resp w B). eauto.
  - destruct (failure resp) as [e|] eqn:E.
    + rewrite (handleSubmit_failure resp w e F E). eauto.
    + rewrite (handleSubmit_success resp w F E). eauto.
Qed.

(** Asking for a link touches only [creatingTeamsMeeting], the form and
    the log. *)
Lemma createTeamsMeeting_frame (resp : Response InvokeData) (w : World) :
  exists cr fd l,
    createTeamsMeeting resp w
    = (Ok tt,
       mkWorld (open w) (props_meeting w) (user_id w) (loading w) cr
         (leads w) (contacts w) fd (log w ++ l)).
Proof.
  destruct (blank_or_filled (formData w)) as [B | F].
  - rewrite (createTeamsMeeting_blank resp w B). eauto.
  - destruct (failure resp) as [e|] eqn:E.
    + rewrite (createTeamsMeeting_failure resp e w F E). eauto.
    + destruct resp as [e | d [e|]]; try discriminate.
      destruct (data_joinUrl d) as [[|c u]|] eqn:D.
      * rewrite (createTeamsMeeting_no_link d w F); eauto.
      * rewrite (createTeamsMeeting_link d (String c u) w F D); eauto.
        discriminate.
      * rewrite (createTeamsMeeting_no_link d w F); eauto.
Qed.

Lemma step_props_meeting (tz : JsDate.TimeZone) (a : Action) (w : World) :
  props_meeting (exec (step tz a) w)
  = match a with
    | Render _ m _ _ _ => m
    | _ => props_meeting w
    end.
Proof.
  destruct a as [o m clock r1 r2 | f v | resp | resp].
  - unfold step, exec, bind, get, setProps, modify, ret. cbn.
    destruct (deps_changed w o m); [|reflexivity].
    apply (useEffect_open_props tz clock r1 r2
             (mkWorld o m (user_id w) (loading w) (creatingTeamsMeeting w)
                (leads w) (contacts w) (formData w) (log w))).
  - reflexivity.
  - unfold step, exec.
    destruct (createTeamsMeeting_frame resp w) as (cr & fd & l & ->).
    reflexivity.
  - unfold step, exec.
    destruct (handleSubmit_frame resp w) as (ld & l & ->).
    reflexivity.
Qed.

Lemma run_session_props_meeting (tz : JsDate.TimeZone) (actions : list Action)
    (w : World) :
  props_meeting (run_session tz actions w)
  = last_meeting actions (props_meeting w).
Proof.
  revert w. induction actions as [|a actions IH]; intros w; [reflexivity|].
  unfold run_session, last_meeting in *. cbn [fold_left].
  rewrite IH, step_props_meeting. now destruct a.
Qed.

End Submission.

Section SubmissionClaims.
Import Js Eff MeetingModal MeetingSpec LinkSpec.

Lemma writes_write_of (w : World) : is_write (write_of w) = true.
Proof. unfold write_of. now destruct (props_meeting w). Qed.

Lemma handleSubmit_writes (resp : Response unit) (w : World) :
  required_filled (formData w) ->
  writes (emitted (handleSubmit resp) w) = [write_of w].
Proof.
  intros F. destruct (failure resp) as [e|] eqn:E.
  - erewrite emitted_of;
      [| eapply handleSubmit_failure; eassumption | reflexivity].
    cbn. now rewrite writes_write_of.
  - erewrite emitted_of;
      [| eapply handleSubmit_success; eassumption | reflexivity].
    cbn. now rewrite writes_write_of.
Qed.

(** C3, as amended.  A submission with the three required fields filled
    records exactly one table write, and whether it is the update or the
    insert is decided by the [meeting] prop alone, as the latest render
    before the submission passed it: an update of that meeting's row when
    there is one, an insert when there is none. *)
Theorem C3_write_follows_current_prop
    (tz : JsDate.TimeZone) (actions : list Action) (w0 : World)
    (resp : Response unit) :
  let w := run_session tz actions w0 in
  required_filled (formData w) ->
  writes (emitted (handleSubmit resp) w) = [write_of w]
  /\ write_of w
     = match last_meeting actions (props_meeting w0) with
       | Some m => EUpdate "meetings" (row_of w) "id" (id m)
       | None => EInsert "meetings" [row_of w]
       end.
Proof.
  intros w F. split; [now apply handleSubmit_writes|].
  unfold write_of. subst w. now rewrite run_session_props_meeting.
Qed.

(** C4.  When the subject, the start time or the end time of the form is
    blank, a submission records no insert and no update: all it does is
    show the notification "Missing fields", and the form is as before. *)
Theorem C4_blank_submission (w : World) (resp : Response unit) :
  some_blank (formData w) ->
  writes (emitted (handleSubmit resp) w) = []
  /\ emitted (handleSubmit resp) w
     = [EPreventDefault;
        EToast (mkToast "Missing fields" "Please fill in all required fields"
                  vDestructive)]
  /\ formData (exec (handleSubmit resp) w) = formData w.
Proof.
  intros B.
  assert (E : emitted (handleSubmit resp) w
              = [EPreventDefault;
                 EToast (mkToast "Missing fields"
                           "Please fill in all required fields" vDestructive)]).
  { erewrite emitted_of; [| now apply handleSubmit_blank | reflexivity].
    reflexivity. }
  rewrite E. split; [reflexivity|]. split; [reflexivity|].
  unfold exec. now rewrite (handleSubmit_blank resp w B).
Qed.

(** C5.  The row a submission writes carries [null] for each of
    description, join link, lead link and contact link whose form value is
    the empty string, and the form value otherwise: never the empty
    string. *)
Theorem C5_optional_fields_normalized (w : World) (resp : Response unit) :
  required_filled (formData w) ->
  exists row,
    (writes (emitted (handleSubmit resp) w) = [EInsert "meetings" [row]]
     \/ exists m, writes (emitted (handleSubmit resp) w)
                  = [EUpdate "meetings" row "id" (id m)])
    /\ normalized (description (formData w)) (r_description row)
    /\ normalized (join_url (formData w)) (r_join_url row)
    /\ normalized (lead_id (formData w)) (r_lead_id row)
    /\ normalized (contact_id (formData w)) (r_contact_id row)
    /\ r_description row <> Some "" /\ r_join_url row <> Some ""
    /\ r_lead_id row <> Some "" /\ r_contact_id row <> Some "".
Proof.
  intros F. exists (row_of w). rewrite (handleSubmit_writes resp w F).
  split.
  - unfold write_of. destruct (props_meeting w) as [m|]; eauto.
  - unfold row_of. cbn.
    repeat split; try apply or_null_normalized;
      match goal with
      | |- or_null ?x <> _ => destruct x; discriminate
      end.
Qed.


Lemma C3_write_follows_current_prop_witness :
  let tz : JsDate.TimeZone := fun _ _ => 0%Z in
  let m := mkMeeting "m1" "Kickoff" None "2024-01-15T10:30:00+00:00"
             "2024-01-15T11:30:00+00:00" None None None "scheduled" in
  let actions := [Render true (Some m) 1705308000000%Z
                    (Resolved (Some []) None) (Resolved (Some []) None)] in
  let w := run_session tz actions (initial (Some "u1")) in
  required_filled (formData w)
  /\ writes (emitted (handleSubmit (Resolved None None)) w)
     = [EUpdate "meetings"
          (mkRow "Kickoff" None "2024-01-15T10:30" "2024-01-15T11:30" None
             None None "scheduled" (Some "u1")) "id" "m1"].
Proof.
  intros tz m actions w.
  assert (F : required_filled (formData w))
    by (repeat split; discriminate).
  split; [exact F|].
  destruct (C3_write_follows_current_prop tz actions (initial (Some "u1"))
              (Resolved None None) F) as [H1 H2].
  fold w in H1, H2. rewrite H1, H2. reflexivity.
Defined.

(** C3 fails as stated: a submission of a blank form takes neither path,
    and a dialog opened without a record updates once the parent has passed
    one while it was open. *)
Lemma C3_counterexample :
  let tz : JsDate.TimeZone := fun _ _ => 0%Z in
  let clock := 1705308000000%Z in
  let noLeads : Response (list Lead) := Resolved (Some []) None in
  let noContacts : Response (list Contact) := Resolved (Some []) None in
  let m := mkMeeting "m1" "Kickoff" None "2024-01-15T10:30:00+00:00"
             "2024-01-15T11:30:00+00:00" None None None "scheduled" in
  (* opened without a record, nothing typed: neither path is taken *)
  writes (log (run_session tz
                 [Render true None clock noLeads noContacts;
                  Submit (Resolved None None)]
                 (initial (Some "u1")))) = []
  (* opened without a record, a record passed while open: the update path *)
  /\ writes (log (run_session tz
                    [Render true None clock noLeads noContacts;
                     Change FSubject "Sync";
                     Render true (Some m) clock noLeads noContacts;
                     Submit (Resolved None None)]
                    (initial (Some "u1"))))
     = [EUpdate "meetings"
          (mkRow "Kickoff" None "2024-01-15T10:30" "2024-01-15T11:30" None
             None None "scheduled" (Some "u1")) "id" "m1"].
Proof. split; reflexivity. Qed.

Lemma C4_blank_submission_witness :
  let w := mkWorld true None (Some "u1") false false [] []
             (mkForm "" "" "2024-01-15T09:00" "2024-01-15T10:00" "" "" ""
                "scheduled") [] in
  some_blank (formData w)
  /\ log (exec (handleSubmit (Resolved None None)) w)
     = [EPreventDefault;
        EToast (mkToast "Missing fields" "Please fill in all required fields"
                  vDestructive)].
Proof.
  intros w.
  assert (B : some_blank (formData w)) by (left; reflexivity).
  split; [exact B|].
  exact (proj1 (proj2 (C4_blank_submission w (Resolved None None) B))).
Defined.

Lemma C5_optional_fields_normalized_witness :
  let w := mkWorld true None (Some "u1") false false [] []
             (mkForm "Sync" "" "2024-01-15T09:00" "2024-01-15T10:00" ""
                "l1" "" "scheduled") [] in
  required_filled (formData w)
  /\ exists row,
       writes (emitted (handleSubmit (Resolved None None)) w)
       = [EInsert "meetings" [row]]
       /\ r_description row = None /\ r_lead_id row = Some "l1".
Proof.
  intros w.
  assert (F : required_filled (formData w)) by (repeat split; discriminate).
  split; [exact F|].
  destruct (C5_optional_fields_normalized w (Resolved None None) F)
    as (row & [Hw | (m & Hw)] & Hd & _ & Hl & _).
  - exists row. split; [exact Hw|].
    split; [apply Hd; reflexivity | apply Hl; discriminate].
  - discriminate Hw.
Defined.

End SubmissionClaims.

(** ** Dates *)

Section Dates.
Import Js JsDate MeetingSpec.
Open Scope Z_scope.

Lemma MakeDate_next_hour (t : Z) :
  MakeDate (Day t) (MakeTime (HourFromTime t + 1) 0 0 0) = next_hour t.
Proof.
  unfold MakeDate, Day, MakeTime, HourFromTime, next_hour, msPerDay, msPerHour,
    msPerMinute, msPerSecond.
  replace 86400000 with (3600000 * 24) by reflexivity.
  rewrite <- Z.div_div by lia.
  pose proof (Z.div_mod (t / 3600000) 24 ltac:(lia)).
  lia.
Qed.

Lemma next_hour_spec (t : Z) :
  next_hour t mod msPerHour = 0 /\ t < next_hour t <= t + msPerHour.
Proof.
  unfold next_hour, msPerHour.
  rewrite Z.mod_mul by lia.
  pose proof (Z.div_mod t 3600000 ltac:(lia)).
  pose proof (Z.mod_pos_bound t 3600000 ltac:(lia)).
  lia.
Qed.

Lemma YearFromTime_range (t : Z) :
  year0 <= t < year10000 -> 0 <= YearFromTime t <= 9999.
Proof.
  unfold year0, year10000, YearFromTime, DayFromYear, Day, msPerDay.
  intros H.
  destruct (Z.leb_spec
    (365 * (1970 + t / 86400000 * 400 / 146097 + 1 - 1970) +
     (1970 + t / 86400000 * 400 / 146097 + 1 - 1969) / 4 -
     (1970 + t / 86400000 * 400 / 146097 + 1 - 1901) / 100 +
     (1970 + t / 86400000 * 400 / 146097 + 1 - 1601) / 400) (t / 86400000)).
  - Z.div_mod_to_equations. lia.
  - match goal with |- context [if ?b then _ else _] => destruct b eqn:E end.
    + apply Z.leb_le in E. Z.div_mod_to_equations. lia.
    + apply Z.leb_gt in E. Z.div_mod_to_equations. lia.
Qed.

(** [YearFromTime] is the year of ECMA-262: the one whose first day is the
    last first day of a year not after the day of [t]. *)
Lemma YearFromTime_spec (t : Z) :
  DayFromYear (YearFromTime t) <= Day t < DayFromYear (YearFromTime t + 1).
Proof.
  unfold YearFromTime, DayFromYear.
  set (d := Day t).
  set (y := 1970 + d * 400 / 146097).
  assert (Hy : y = 1970 + d * 400 / 146097) by reflexivity.
  clearbody y. clearbody d.
  destruct (Z.leb_spec (365 * (y + 1 - 1970) + (y + 1 - 1969) / 4
                        - (y + 1 - 1901) / 100 + (y + 1 - 1601) / 400) d).
  - Z.div_mod_to_equations. lia.
  - destruct (Z.leb_spec (365 * (y - 1970) + (y - 1969) / 4
                          - (y - 1901) / 100 + (y - 1601) / 400) d).
    + Z.div_mod_to_equations. lia.
    + Z.div_mod_to_equations. lia.
Qed.

Lemma slice0_iso_minute (t : Z) (rest : string) :
  year0 <= t < year10000 ->
  slice0 16 (iso_minute t ++ rest) = iso_minute t.
Proof.
  intros H. apply YearFromTime_range in H.
  unfold iso_minute, iso_year.
  replace ((0 <=? YearFromTime t) && (YearFromTime t <=? 9999)) with true
    by (symmetry; apply andb_true_intro; split; apply Z.leb_le; lia).
  unfold slice0, pad4, pad3, pad2. cbn [append substring].
  now destruct rest.
Qed.

Lemma slice0_toISOString (t : Z) :
  year0 <= t < year10000 -> slice0 16 (toISOString t) = iso_minute t.
Proof.
  intros H. unfold toISOString. now apply slice0_iso_minute.
Qed.

End Dates.

(** ** The meeting composer: opening the dialog *)

Section Opening.
Import Js Eff MeetingModal MeetingSpec LinkSpec.

Lemma opt_or_else_shown (x : option string) : opt_or_else x "" = shown x.
Proof. destruct x as [[|c s]|]; reflexivity. Qed.

Lemma slice0_guard (s : string) :
  (if truthy s then slice0 16 s else "") = slice0 16 s.
Proof. now destruct s. Qed.

Lemma iso_minute_minutes (t : Z) :
  (year0 <= t < year10000)%Z ->
  substring 13 3 (JsDate.iso_minute t)
  = String ":" (JsDate.pad2 (JsDate.MinFromTime t)).
Proof.
  intros H. apply YearFromTime_range in H.
  unfold JsDate.iso_minute, JsDate.iso_year.
  replace ((0 <=? JsDate.YearFromTime t) && (JsDate.YearFromTime t <=? 9999))%Z
    with true
    by (symmetry; apply andb_true_intro; split; apply Z.leb_le; lia).
  reflexivity.
Qed.

Lemma MinFromTime_hour_boundary (t k : Z) :
  (t mod JsDate.msPerHour = 0)%Z ->
  JsDate.MinFromTime (t + k * JsDate.msPerHour) = 0%Z.
Proof.
  unfold JsDate.MinFromTime, JsDate.msPerHour, JsDate.msPerMinute. intros H.
  Z.div_mod_to_equations. lia.
Qed.

(** C6, as amended.  Opening the dialog with a record seeds every field
    from the record: subject as it is, a missing optional value as the
    empty string, the two timestamps cut to their first sixteen characters
    (for an ISO timestamp, the date and the time to the minute), and the
    status as it is unless it is empty, when it is "scheduled".

    Opening it with no record, where local time is UTC and the clock
    reads a time from the year 0 on and more than two hours before the
    end of the year 9999: the start field holds, as [YYYY-MM-DDTHH:mm],
    the instant [start] that is the top of the next hour (a whole number
    of hours, after the clock and at most one hour after it, so the field
    ends in ":00"), and the end field holds the instant sixty minutes
    after [start]; the other fields are empty and the status is
    "scheduled".  What the two fields hold in another time zone is not
    part of the statement. *)
Theorem C6_initial_form
    (tz : JsDate.TimeZone) (clock : Z)
    (leadsRes : Response (list Lead)) (contactsRes : Response (list Contact))
    (w : World) :
  open w = false ->
  (forall m : Meeting,
     exists w',
       step tz (Render true (Some m) clock leadsRes contactsRes) w = (Ok tt, w')
       /\ formData w'
          = mkForm (m_subject m) (shown (m_description m))
              (slice0 16 (m_start_time m)) (slice0 16 (m_end_time m))
              (shown (m_join_url m)) (shown (m_lead_id m))
              (shown (m_contact_id m))
              (if String.eqb (m_status m) "" then "scheduled" else m_status m)
       /\ (forall t rest,
             (MeetingSpec.year0 <= t < MeetingSpec.year10000)%Z ->
             m_start_time m = JsDate.iso_minute t ++ rest ->
             start_time (formData w') = JsDate.iso_minute t)
       /\ (forall t rest,
             (MeetingSpec.year0 <= t < MeetingSpec.year10000)%Z ->
             m_end_time m = JsDate.iso_minute t ++ rest ->
             end_time (formData w') = JsDate.iso_minute t))
  /\ ((forall t b, tz t b = 0%Z) ->
      (year0 <= clock)%Z ->
      (clock + 2 * JsDate.msPerHour < year10000)%Z ->
      exists w' start,
        step tz (Render true None clock leadsRes contactsRes) w = (Ok tt, w')
        /\ formData w'
           = mkForm "" "" (JsDate.iso_minute start)
               (JsDate.iso_minute (start + 60 * JsDate.msPerMinute)) "" "" ""
               "scheduled"
        /\ (start mod JsDate.msPerHour = 0)%Z
        /\ (clock < start <= clock + JsDate.msPerHour)%Z
        /\ substring 13 3 (start_time (formData w')) = ":00"
        /\ substring 13 3 (end_time (formData w')) = ":00").
Proof.
  intros Hclosed.
  assert (Hdeps : forall m, deps_changed w true m = true)
    by (intros m; unfold deps_changed; now rewrite Hclosed).
  split.
  - intros m.
    unfold step, bind, get, setProps, modify. cbn. rewrite Hdeps.
    unfold useEffect_open, bind, get. cbn.
    match goal with
    | |- context [fetchLeadsAndContacts leadsRes contactsRes ?w0] =>
        destruct (fetchLeadsAndContacts_props leadsRes contactsRes w0)
          as (w1 & -> & _ & _ & _ & _)
    end.
    unfold setFormData, updFormData, modify. cbn.
    eexists. split; [reflexivity|]. cbn [formData].
    rewrite !opt_or_else_shown, !slice0_guard.
    assert (Est : or_else (m_status m) "scheduled"
                  = if String.eqb (m_status m) "" then "scheduled" else m_status m)
      by (now destruct (m_status m)).
    assert (Esu : or_else (m_subject m) "" = m_subject m)
      by (now destruct (m_subject m)).
    rewrite Est, Esu. split; [reflexivity|].
    cbn [start_time end_time].
    split; intros t rest Ht ->; now apply slice0_iso_minute.
  - intros Htz Hlo Hhi.
    set (start := next_hour clock).
    pose proof (next_hour_spec clock) as [Hmod Hnext].
    fold start in Hmod, Hnext.
    assert (Hstart : (year0 <= start /\ start + 3600000 < year10000)%Z)
      by (unfold JsDate.msPerHour, year0, year10000 in *; lia).
    assert (Eset : JsDate.setHours tz clock (JsDate.getHours tz clock + 1) 0 0 0
                   = Some start).
    { unfold JsDate.setHours, JsDate.getHours. rewrite MakeDate_next_hour.
      unfold JsDate.UTC, JsDate.LocalTime. rewrite !Htz, Z.add_0_r, Z.sub_0_r.
      fold start. unfold JsDate.TimeClip.
      replace (Z.abs start <=? 8640000000000000)%Z with true; [reflexivity|].
      symmetry. apply Z.leb_le. unfold year0, year10000 in Hstart. lia. }
    assert (Eend : JsDate.TimeClip (start + 60 * 60 * 1000) = Some (start + 3600000)%Z).
    { unfold JsDate.TimeClip.
      replace (Z.abs (start + 60 * 60 * 1000) <=? 8640000000000000)%Z with true;
        [reflexivity|].
      symmetry. apply Z.leb_le. unfold year0, year10000 in Hstart. lia. }
    unfold step, bind, get, setProps, modify. cbn. rewrite Hdeps.
    unfold useEffect_open, bind, get. cbn.
    match goal with
    | |- context [fetchLeadsAndContacts leadsRes contactsRes ?w0] =>
        destruct (fetchLeadsAndContacts_props leadsRes contactsRes w0)
          as (w1 & -> & _ & _ & _ & _)
    end.
    rewrite Eset. cbn -[Z.mul Z.add]. change (60 * 60 * 1000)%Z with 3600000%Z in Eend.
    rewrite Eend.
    unfold setFormData, updFormData, modify, toISOString, ret. cbn -[Z.mul Z.add].
    eexists. exists start. split; [reflexivity|]. cbn [formData].
    rewrite !slice0_toISOString
      by (unfold year0, year10000 in *; lia).
    split; [reflexivity|]. split; [exact Hmod|]. split; [exact Hnext|].
    cbn [start_time end_time].
    rewrite !iso_minute_minutes by (unfold year0, year10000 in *; lia).
    pose proof (MinFromTime_hour_boundary start 0 Hmod) as M0.
    pose proof (MinFromTime_hour_boundary start 1 Hmod) as M1.
    rewrite Z.mul_0_l, Z.add_0_r in M0. rewrite Z.mul_1_l in M1.
    change JsDate.msPerHour with 3600000%Z in M1.
    rewrite M0, M1. split; reflexivity.
Qed.

End Opening.

Section OpeningExamples.
Import Js Eff MeetingModal MeetingSpec LinkSpec.

Lemma C6_initial_form_witness :
  let utc : JsDate.TimeZone := fun _ _ => 0%Z in
  let clock := 1705308000123%Z in
  let noLeads : Response (list Lead) := Resolved (Some []) None in
  let noContacts : Response (list Contact) := Resolved (Some []) None in
  let w := initial (Some "u1") in
  (open w = false
   /\ (forall t b, utc t b = 0%Z)
   /\ (year0 <= clock)%Z
   /\ (clock + 2 * JsDate.msPerHour < year10000)%Z)
  /\ exists w',
       step utc (Render true None clock noLeads noContacts) w = (Ok tt, w')
       /\ formData w'
          = mkForm "" "" "2024-01-15T09:00" "2024-01-15T10:00" "" "" ""
              "scheduled".
Proof.
  intros utc clock noLeads noContacts w.
  assert (H0 : open w = false) by reflexivity.
  assert (H1 : forall t b, utc t b = 0%Z) by reflexivity.
  assert (H2 : (year0 <= clock)%Z) by (unfold year0, clock; lia).
  assert (H3 : (clock + 2 * JsDate.msPerHour < year10000)%Z)
    by (unfold year10000, JsDate.msPerHour, clock; lia).
  split; [repeat split; assumption|].
  destruct (proj2 (C6_initial_form utc clock noLeads noContacts w H0) H1 H2 H3)
    as (w' & start & Hstep & Hform & Hmod & Hnext & _).
  exists w'. split; [exact Hstep|]. rewrite Hform.
  assert (Es : start = 1705309200000%Z).
  { unfold JsDate.msPerHour, clock in *. Z.div_mod_to_equations. lia. }
  rewrite Es. reflexivity.
Defined.

(** Outside UTC the start field of a new meeting is not the local top of
    the next hour: [toISOString] renders the instant in UTC.  One hour
    east of UTC, at the local time 09:40, the field reads 09:00. *)
Lemma default_start_east_of_utc :
  let cet : JsDate.TimeZone := fun _ _ => 3600000%Z in
  let clock := 1705308000123%Z in
  let w' := exec (step cet (Render true None clock
                              (Resolved (Some []) None) (Resolved (Some []) None)))
              (initial (Some "u1")) in
  JsDate.iso_minute (JsDate.LocalTime cet clock) = "2024-01-15T09:40"
  /\ start_time (formData w') = "2024-01-15T09:00"
  /\ end_time (formData w') = "2024-01-15T10:00".
Proof. cbv zeta. repeat split. Qed.

(** C6 fails as stated: a record with an empty status opens with the
    status "scheduled". *)
Lemma C6_counterexample :
  let utc : JsDate.TimeZone := fun _ _ => 0%Z in
  let m := mkMeeting "m1" "Kickoff" None "2024-01-15T10:30:00+00:00"
             "2024-01-15T11:30:00+00:00" None None None "" in
  let w' := exec (step utc (Render true (Some m) 1705308000123%Z
                              (Resolved (Some []) None) (Resolved (Some []) None)))
              (initial (Some "u1")) in
  m_status m = "" /\ status (formData w') = "scheduled"
  /\ status (formData w') <> m_status m.
Proof. cbv zeta. split; [reflexivity|]. split; [reflexivity|]. discriminate. Qed.

End OpeningExamples.

(** ** Failing remote calls *)

Section Failures.
Import Js Eff LinkSpec.

Lemma fetchTemplates_failure
    (resp : Response (list SendEmailModal.EmailTemplate)) (e : JsError)
    (w : SendEmailModal.World) :
  failure resp = Some e ->
  SendEmailModal.fetchTemplates resp w
  = (Ok tt,
     SendEmailModal.mkWorld (SendEmailModal.open w) (SendEmailModal.contact w)
       (SendEmailModal.templates w) (SendEmailModal.selectedTemplate w)
       (SendEmailModal.subject w) (SendEmailModal.body w)
       (SendEmailModal.log w
          ++ [SendEmailModal.ESelect "email_templates" "id, name, subject, body" "name";
              SendEmailModal.EConsoleError "Error fetching templates:" e])).
Proof.
  intros F.
  unfold SendEmailModal.fetchTemplates, try_catch, bind, SendEmailModal.emit,
    modify, throw. cbn.
  destruct resp as [e' | d [e'|]]; try discriminate;
    injection F as ->; cbn; now rewrite <- app_assoc.
Qed.

Lemma fetchLeadsAndContacts_rejection
    (leadsRes : Response (list MeetingModal.Lead))
    (contactsRes : Response (list MeetingModal.Contact)) (e : JsError)
    (w : MeetingModal.World) :
  MeetingSpec.rejection leadsRes contactsRes = Some e ->
  MeetingModal.fetchLeadsAndContacts leadsRes contactsRes w
  = (Ok tt,
     MeetingModal.mkWorld (MeetingModal.open w) (MeetingModal.props_meeting w)
       (MeetingModal.user_id w) (MeetingModal.loading w)
       (MeetingModal.creatingTeamsMeeting w) (MeetingModal.leads w)
       (MeetingModal.contacts w) (MeetingModal.formData w)
       (MeetingModal.log w
          ++ [MeetingModal.ESelect "leads" "id, lead_name, email" "lead_name";
              MeetingModal.ESelect "contacts" "id, contact_name, email" "contact_name";
              MeetingModal.EConsoleError "Error fetching leads/contacts:" e])).
Proof.
  intros F.
  unfold MeetingModal.fetchLeadsAndContacts, try_catch, bind, MeetingModal.emit,
    modify, throw. cbn.
  destruct leadsRes as [e1 | d1 er1], contactsRes as [e2 | d2 er2];
    try discriminate; injection F as ->; cbn; now rewrite <- !app_assoc.
Qed.

(** C8, as amended.  A failed insert or update and a failed call of the
    remote function are caught, logged to the console and shown in one
    error notification that carries the message of the error when it has
    one and a fixed text otherwise; the form is left as it was and the
    dialog is not closed.  A failed fetch of the templates and a rejected
    fetch of the leads and contacts are caught and logged to the console
    only: no notification is shown, and the lists and the form are left as
    they were. *)
Theorem C8_remote_failures :
  (forall (w : MeetingModal.World) (resp : Response unit) (e : JsError),
     MeetingSpec.required_filled (MeetingModal.formData w) ->
     failure resp = Some e ->
     MeetingModal.handleSubmit resp w
     = (Ok tt,
        MeetingModal.mkWorld (MeetingModal.open w) (MeetingModal.props_meeting w)
          (MeetingModal.user_id w) false (MeetingModal.creatingTeamsMeeting w)
          (MeetingModal.leads w) (MeetingModal.contacts w)
          (MeetingModal.formData w)
          (MeetingModal.log w
             ++ [MeetingModal.EPreventDefault; MeetingSpec.write_of w;
                 MeetingModal.EConsoleError "Error saving meeting:" e;
                 MeetingModal.EToast
                   (mkToast "Error" (message_or e "Failed to save meeting")
                      vDestructive)])))
  /\ (forall (w : MeetingModal.World) (resp : Response MeetingModal.InvokeData)
        (e : JsError),
        MeetingSpec.required_filled (MeetingModal.formData w) ->
        failure resp = Some e ->
        MeetingModal.createTeamsMeeting resp w
        = (Ok tt,
           MeetingModal.mkWorld (MeetingModal.open w) (MeetingModal.props_meeting w)
             (MeetingModal.user_id w) (MeetingModal.loading w) false
             (MeetingModal.leads w) (MeetingModal.contacts w)
             (MeetingModal.formData w)
             (MeetingModal.log w
                ++ [MeetingModal.EInvoke "create-teams-meeting"
                      (MeetingSpec.invoke_body w);
                    MeetingModal.EConsoleError "Error creating Teams meeting:" e;
                    MeetingModal.EToast
                      (mkToast "Error"
                         (message_or e "Failed to create Teams meeting")
                         vDestructive)])))
  /\ (forall (w : SendEmailModal.World)
        (resp : Response (list SendEmailModal.EmailTemplate)) (e : JsError),
        failure resp = Some e ->
        SendEmailModal.fetchTemplates resp w
        = (Ok tt,
           SendEmailModal.mkWorld (SendEmailModal.open w) (SendEmailModal.contact w)
             (SendEmailModal.templates w) (SendEmailModal.selectedTemplate w)
             (SendEmailModal.subject w) (SendEmailModal.body w)
             (SendEmailModal.log w
                ++ [SendEmailModal.ESelect "email_templates"
                      "id, name, subject, body" "name";
                    SendEmailModal.EConsoleError "Error fetching templates:" e])))
  /\ (forall (w : MeetingModal.World)
        (leadsRes : Response (list MeetingModal.Lead))
        (contactsRes : Response (list MeetingModal.Contact)) (e : JsError),
        MeetingSpec.rejection leadsRes contactsRes = Some e ->
        MeetingModal.fetchLeadsAndContacts leadsRes contactsRes w
        = (Ok tt,
           MeetingModal.mkWorld (MeetingModal.open w) (MeetingModal.props_meeting w)
             (MeetingModal.user_id w) (MeetingModal.loading w)
             (MeetingModal.creatingTeamsMeeting w) (MeetingModal.leads w)
             (MeetingModal.contacts w) (MeetingModal.formData w)
             (MeetingModal.log w
                ++ [MeetingModal.ESelect "leads" "id, lead_name, email" "lead_name";
                    MeetingModal.ESelect "contacts" "id, contact_name, email"
                      "contact_name";
                    MeetingModal.EConsoleError "Error fetching leads/contacts:" e]))).
Proof.
  split; [|split; [|split]].
  - intros w resp e F E. now apply handleSubmit_failure.
  - intros w resp e F E. now apply createTeamsMeeting_failure.
  - intros w resp e E. now apply fetchTemplates_failure.
  - intros w r1 r2 e E. now apply fetchLeadsAndContacts_rejection.
Qed.

Lemma C8_remote_failures_witness :
  let w := MeetingModal.mkWorld true None (Some "u1") false false [] []
             (MeetingModal.mkForm "Sync" "" "2024-01-15T09:00" "2024-01-15T10:00"
                "" "" "" "scheduled") [] in
  let resp : Response unit := Resolved None (Some (mkError (Some "permission denied"))) in
  (MeetingSpec.required_filled (MeetingModal.formData w)
   /\ failure resp = Some (mkError (Some "permission denied")))
  /\ MeetingModal.toasts (MeetingModal.log (exec (MeetingModal.handleSubmit resp) w))
     = [MeetingModal.EToast (mkToast "Error" "permission denied" vDestructive)]
  /\ MeetingModal.formData (exec (MeetingModal.handleSubmit resp) w)
     = MeetingModal.formData w.
Proof.
  intros w resp.
  assert (F : MeetingSpec.required_filled (MeetingModal.formData w))
    by (repeat split; discriminate).
  assert (E : failure resp = Some (mkError (Some "permission denied")))
    by reflexivity.
  split; [split; assumption|].
  unfold exec. rewrite (proj1 C8_remote_failures w resp _ F E).
  split; reflexivity.
Defined.

(** C8 fails as stated: a rejected fetch of the templates is logged and
    no notification is shown. *)
Lemma C8_counterexample :
  let c := SendEmailModal.mkContact "Jane" None None (Some "jane@acme.io") in
  let w := SendEmailModal.mkWorld true (Some c) [] "" "" "" [] in
  let e := mkError (Some "network down") in
  SendEmailModal.emitted (SendEmailModal.fetchTemplates (Rejected e)) w
  = [SendEmailModal.ESelect "email_templates" "id, name, subject, body" "name";
     SendEmailModal.EConsoleError "Error fetching templates:" e]
  /\ forall t,
       ~ In (SendEmailModal.EToast t)
           (SendEmailModal.emitted (SendEmailModal.fetchTemplates (Rejected e)) w).
Proof.
  cbv zeta. split; [reflexivity|].
  intros t [H | [H | []]]; discriminate H.
Qed.

End Failures.

(** ** The e-mail composer: sending *)

Section SendEmail.
Import Js Eff SendEmailModal LinkSpec.

Lemma mailtoParams_toString (s b : string) :
  Url.toString
    (if truthy b
     then Url.set "body" b (if truthy s then Url.set "subject" s [] else [])
     else (if truthy s then Url.set "subject" s [] else []))
  = mailto_query s b.
Proof.
  assert (Es : Url.urlencode "subject" = "subject") by reflexivity.
  assert (Eb : Url.urlencode "body" = "body") by reflexivity.
  unfold mailto_query.
  destruct (truthy s), (truthy b);
    cbn [Url.set Url.toString String.eqb Ascii.eqb Bool.eqb];
    rewrite ?Es, ?Eb; reflexivity.
Qed.

(** C7.  For a contact without an e-mail address the send action only
    shows the notification "No email address": no window is opened and
    nothing else happens.  For a contact with an address it opens, in a
    new browsing context, the link [mailto:<address>?] followed by
    [subject=] and [body=] with the urlencoded subject and body, a
    parameter with an empty value left out, then shows the success
    notification and closes the dialog. *)
Theorem C7_send_email :
  (forall w : World,
     contact_email (contact w) = None \/ contact_email (contact w) = Some "" ->
     exec handleSendEmail w
     = mkWorld (open w) (contact w) (templates w) (selectedTemplate w)
         (subject w) (body w)
         (log w ++ [EToast (mkToast "No email address"
                              "This contact doesn't have an email address"
                              vDestructive)]))
  /\ (forall (w : World) (c : Contact) (address : string),
        contact w = Some c -> email c = Some address -> address <> "" ->
        exec handleSendEmail w
        = mkWorld (open w) (contact w) (templates w) (selectedTemplate w)
            (subject w) (body w)
            (log w ++ [EWindowOpen (mailto address (subject w) (body w)) "_blank";
                       EToast (mkToast "Email Client Opened"
                                 "Your default email client should open with the pre-filled template"
                                 vDefault);
                       EOnOpenChange false])).
Proof.
  split.
  - intros w H. unfold handleSendEmail, exec, bind, get. cbn.
    destruct H as [-> | ->]; reflexivity.
  - intros w c address Hc He Hne.
    unfold handleSendEmail, exec, bind, get. cbn.
    rewrite Hc. cbn [contact_email]. rewrite He.
    destruct address as [|a0 address]; [congruence|].
    cbn [truthy_opt truthy negb opt_or_else or_else].
    rewrite mailtoParams_toString.
    unfold emit, toast, emit, modify. cbn. rewrite Hc.
    now rewrite <- !app_assoc.
Qed.
End SendEmail.

Section SendEmailExamples.
Import Js Eff SendEmailModal LinkSpec.

Lemma C7_send_email_witness :
  let c := mkContact "Jane" None None (Some "jane@acme.io") in
  let w := mkWorld true (Some c) [] "" "Hi there" "a&b" [] in
  let nobody := mkWorld true (Some (mkContact "Joe" None None None)) []
                  "" "Hi there" "a&b" [] in
  (contact w = Some c /\ email c = Some "jane@acme.io" /\ "jane@acme.io" <> "")
  /\ log (exec handleSendEmail w)
     = [EWindowOpen "mailto:jane@acme.io?subject=Hi+there&body=a%26b" "_blank";
        EToast (mkToast "Email Client Opened"
                  "Your default email client should open with the pre-filled template"
                  vDefault);
        EOnOpenChange false]
  /\ log (exec handleSendEmail nobody)
     = [EToast (mkToast "No email address"
                  "This contact doesn't have an email address" vDestructive)].
Proof.
  intros c w nobody.
  assert (H1 : contact w = Some c) by reflexivity.
  assert (H2 : email c = Some "jane@acme.io") by reflexivity.
  assert (H3 : "jane@acme.io" <> "") by discriminate.
  split; [repeat split; assumption|]. split.
  - rewrite (proj2 C7_send_email w c "jane@acme.io" H1 H2 H3). reflexivity.
  - rewrite (proj1 C7_send_email nobody (or_introl eq_refl)). reflexivity.
Defined.

End SendEmailExamples.

Section TeamsLinkExamples.
Import Js Eff MeetingModal MeetingSpec LinkSpec.

Lemma C2_conferencing_link_witness :
  let w := mkWorld true None (Some "u1") false false
             [mkLead "l1" "Lea" (Some "lea@x.io"); mkLead "l2" "Leo" None]
             [mkContact "c1" "Con" (Some "")]
             (mkForm "Sync" "" "2024-01-15T09:00" "2024-01-15T10:00" "old-link"
                "l1" "c1" "scheduled") [] in
  let okResp : Response InvokeData :=
    Resolved (Some (mkData (Some (mkInfo (Some "https://teams/xyz"))))) None in
  let koResp : Response InvokeData := Rejected (mkError None) in
  required_filled (formData w)
  /\ invokes (emitted (createTeamsMeeting okResp) w)
     = [EInvoke "create-teams-meeting"
          (mkBody "Sync" [mkAttendee "lea@x.io" "Lea"] "2024-01-15T09:00"
             "2024-01-15T10:00")]
  /\ join_url (formData (exec (createTeamsMeeting okResp) w)) = "https://teams/xyz"
  /\ join_url (formData (exec (createTeamsMeeting koResp) w)) = "old-link"
  /\ toasts (emitted (createTeamsMeeting koResp) w)
     = [EToast (mkToast "Error" "Failed to create Teams meeting" vDestructive)].
Proof.
  intros w okResp koResp.
  assert (F : required_filled (formData w)) by (repeat split; discriminate).
  split; [exact F|].
  destruct (C2_conferencing_link w okResp F) as (_ & Hok & _).
  destruct (C2_conferencing_link w koResp F) as (_ & _ & Hko).
  split; [reflexivity|]. split.
  - rewrite (Hok _ "https://teams/xyz" eq_refl eq_refl ltac:(discriminate)).
    reflexivity.
  - destruct (Hko (mkError None) eq_refl) as [Hform Htoast].
    split; [now rewrite Hform | exact Htoast].
Defined.

End TeamsLinkExamples.

(** ** The settings shell *)

Section SettingsFacts.
Import Settings.

Lemma isAdmin_other (userRole : option string) :
  userRole <> Some "admin" -> isAdmin userRole = false.
Proof.
  intros H. destruct userRole as [r|]; [|reflexivity]. simpl.
  destruct (String.eqb_spec r "admin"); [congruence | reflexivity].
Qed.

(** C9.  For a caller whose role is not "admin" no entry of the rendered
    menu is flagged admin-only (the menu is the five personal and session
    entries).  The panel shown is looked up from the active key: each of
    the thirteen keys of the menu shows its own panel (the two user
    management keys share one), the default key "profile" shows the
    profile panel, and every key without a case of its own shows the panel
    of the default key. *)
Theorem C9_settings_shell :
  (forall (userRole : option string) (item : MenuItem),
     userRole <> Some "admin" ->
     In item (renderedItems userRole) -> flagged (adminOnly item) = false)
  /\ (forall userRole : option string,
        userRole <> Some "admin" ->
        map id (renderedItems userRole)
        = ["profile"; "password-security"; "notifications"; "display";
           "session-management"])
  /\ defaultTab = "profile"
  /\ renderContent defaultTab = ProfileSettings
  /\ map (fun key => (key, renderContent key)) recognized
     = [ ("profile", ProfileSettings);
         ("password-security", SecuritySettings);
         ("notifications", NotificationSettings);
         ("display", DisplaySettings);
         ("user-directory", UserManagement);
         ("role-management", UserManagement);
         ("page-access", PageAccessSettings);
         ("pipeline", PipelineSettings);
         ("email-templates", EmailTemplatesSettings);
         ("backup", BackupRestoreSettings);
         ("integrations", IntegrationSettings);
         ("audit-logs", AuditLogsSettings);
         ("session-management", SessionManagementSettings) ]
  /\ (forall key : string,
        ~ In key recognized -> renderContent key = renderContent defaultTab).
Proof.
  split; [|split; [|split; [|split; [|split]]]].
  - intros userRole item H. unfold renderedItems. rewrite (isAdmin_other _ H).
    cbn. intros Hin.
    repeat (destruct Hin as [<- | Hin]; [reflexivity|]).
    contradiction.
  - intros userRole H. unfold renderedItems. now rewrite (isAdmin_other _ H).
  - reflexivity.
  - reflexivity.
  - reflexivity.
  - intros key H. unfold renderContent at 1.
    repeat match goal with
           | |- context [String.eqb key ?s] =>
               destruct (String.eqb_spec key s) as [->|_];
               [exfalso; apply H; simpl; tauto|]
           end.
    reflexivity.
Qed.

Lemma C9_settings_shell_witness :
  (Some "sales" <> Some "admin" /\ ~ In "billing" recognized)
  /\ map label (renderedItems (Some "sales"))
     = ["Profile Management"; "Password & Security"; "Notification Preferences";
        "Display Preferences"; "Session Management"]
  /\ (forall item, In item (renderedItems (Some "sales")) ->
        flagged (adminOnly item) = false)
  /\ renderContent "backup" = BackupRestoreSettings
  /\ renderContent "billing" = ProfileSettings.
Proof.
  assert (H1 : Some "sales" <> Some "admin") by discriminate.
  assert (H2 : ~ In "billing" recognized).
  { simpl. intros H.
    repeat (destruct H as [H | H]; [discriminate H|]). exact H. }
  split; [split; assumption|].
  split; [reflexivity|]. split; [|split].
  - intros item. exact (proj1 C9_settings_shell (Some "sales") item H1).
  - exact (f_equal (fun l => match nth_error l 9 with
                             | Some (_, panel) => panel
                             | None => ProfileSettings
                             end)
             (proj1 (proj2 (proj2 (proj2 (proj2 C9_settings_shell)))))).
  - exact (proj2 (proj2 (proj2 (proj2 (proj2 C9_settings_shell)))) "billing" H2).
Defined.

End SettingsFacts.

(* ================================================================== *)
(** * Part III: further properties of the code                          *)
(* ================================================================== *)

(** ** The e-mail composer: templates of text and placeholders *)

Section WellFormedTemplates.
Import Js SendEmailModal SubstSpec TemplateSpec.

Lemma has_char_cons_false (c x : ascii) (s : string) :
  has_char c (String x s) = false -> Ascii.eqb x c = false /\ has_char c s = false.
Proof. simpl. destruct (Ascii.eqb x c); [discriminate | auto]. Qed.

(** A token matches a placeholder only when it has its name. *)
Lemma token_name_match (p n rest : string) :
  has_char "}" p = false -> has_char "}" n = false ->
  starts_with (p ++ "}}") (n ++ "}}" ++ rest) = true -> n = p.
Proof.
  revert n. induction p as [|c p IH]; intros n Hp Hn H.
  - destruct n as [|d n]; [reflexivity|].
    apply has_char_cons_false in Hn as [E _].
    cbn [append starts_with] in H. rewrite Ascii.eqb_sym, E in H. discriminate.
  - apply has_char_cons_false in Hp as [Ec Hp].
    destruct n as [|d n].
    + cbn [append starts_with] in H. rewrite Ec in H. discriminate.
    + apply has_char_cons_false in Hn as [_ Hn].
      cbn [append starts_with] in H.
      destruct (Ascii.eqb_spec c d) as [->|]; [|discriminate].
      f_equal. now apply IH.
Qed.

Lemma replace_from_other_token (p t before n rest : string) :
  has_char "}" p = false ->
  has_char "{" n = false -> has_char "}" n = false -> n <> p ->
  replace_from ("{{" ++ p ++ "}}") t 0 before ("{{" ++ n ++ "}}" ++ rest)
  = "{{" ++ n ++ "}}"
      ++ replace_from ("{{" ++ p ++ "}}") t 0 (before ++ "{{" ++ n ++ "}}") rest.
Proof.
  intros Hp Hn1 Hn2 Hne.
  cbn [append].
  rewrite replace_from_nomatch.
  2:{ destruct (starts_with (String "{" (String "{" (p ++ "}}")))
                  (String "{" (String "{" (n ++ String "}" (String "}" rest)))))
        eqn:E; [|reflexivity].
      exfalso. apply Hne. cbn [starts_with] in E.
      rewrite !Ascii.eqb_refl in E. now apply (token_name_match p n rest). }
  f_equal.
  rewrite replace_from_nomatch.
  2:{ cbn [starts_with]. rewrite Ascii.eqb_refl.
      destruct n as [|d n]; cbn [append starts_with]; [reflexivity|].
      apply has_char_cons_false in Hn1 as [E _].
      now rewrite Ascii.eqb_sym, E. }
  f_equal.
  change (String "{" (String "{" (p ++ "}}"))) with (String "{" ("{" ++ p ++ "}}")).
  replace (n ++ String "}" (String "}" rest)) with ((n ++ "}}") ++ rest)
    by (now rewrite append_assoc).
  rewrite replace_from_brace_free
    by (rewrite has_char_append, Hn1; reflexivity).
  rewrite !append_assoc. f_equal. f_equal. f_equal.
  unfold snoc. rewrite !append_assoc. reflexivity.
Qed.


Lemma fill_one_well_formed (p v : string) (x : Piece) :
  has_char "{" v = false -> well_formed x -> well_formed (fill_one p v x).
Proof.
  intros Hv Hx. destruct x as [s|n]; [exact Hx|].
  simpl. now destruct (String.eqb n p).
Qed.

(** One pass over a well-formed template fills in the tokens of its
    placeholder and nothing else. *)
Lemma replace_from_pieces (p v : string) (ps : list Piece) :
  has_char "}" p = false -> has_char "$" v = false ->
  Forall well_formed ps ->
  forall before,
    replace_from ("{{" ++ p ++ "}}") v 0 before (show_all ps)
    = show_all (map (fill_one p v) ps).
Proof.
  intros Hp Hv Hwf. induction Hwf as [|x ps Hx Hps IH]; intros before.
  - reflexivity.
  - cbn [show_all map]. destruct x as [s|n]; cbn [show fill_one].
    + change ("{{" ++ p ++ "}}") with (String "{" ("{" ++ p ++ "}}")).
      rewrite replace_from_brace_free by exact Hx.
      f_equal. apply IH.
    + destruct Hx as [Hn1 Hn2].
      destruct (String.eqb_spec n p) as [->|Hne].
      * rewrite replace_from_match;
          [| discriminate | apply starts_with_append].
        rewrite drop_append, GetSubstitution_literal by assumption.
        cbn [show]. f_equal. apply IH.
      * replace (("{{" ++ n ++ "}}") ++ show_all ps)
          with ("{{" ++ n ++ "}}" ++ show_all ps)
          by (now rewrite !append_assoc).
        rewrite replace_from_other_token by assumption.
        rewrite IH. cbn [show]. now rewrite !append_assoc.
Qed.

Lemma fill_passes (c : Contact) (x : Piece) :
  fill_one "email" (attr (email c))
    (fill_one "position" (attr (position c))
       (fill_one "company_name" (attr (company_name c))
          (fill_one "contact_name" (contact_name c) x)))
  = fill c x.
Proof.
  destruct x as [s|n]; [reflexivity|]. cbn [fill_one fill].
  destruct (String.eqb n "contact_name"); [reflexivity|]. cbn [fill_one].
  destruct (String.eqb n "company_name"); [reflexivity|]. cbn [fill_one].
  destruct (String.eqb n "position"); [reflexivity|]. cbn [fill_one].
  destruct (String.eqb n "email"); reflexivity.
Qed.

(** On a template made of brace-free text and brace tokens, for a contact
    whose attributes hold neither an opening brace nor a dollar sign,
    [replaceVariables] fills in the four placeholders and keeps the text
    and every other token as they are. *)
Theorem replaceVariables_well_formed (c : Contact) (ps : list Piece) :
  Forall well_formed ps -> brace_free c -> dollar_free c ->
  replaceVariables (show_all ps) (Some c) = show_all (map (fill c) ps).
Proof.
  intros Hwf (Bn & Bc & Bp & Be) (Dn & Dc & Dp & De).
  rewrite replaceVariables_passes. unfold replace_g.
  change "{{contact_name}}" with ("{{" ++ "contact_name" ++ "}}").
  change "{{company_name}}" with ("{{" ++ "company_name" ++ "}}").
  change "{{position}}" with ("{{" ++ "position" ++ "}}").
  change "{{email}}" with ("{{" ++ "email" ++ "}}").
  assert (W : forall p v qs, has_char "{" v = false ->
                Forall well_formed qs -> Forall well_formed (map (fill_one p v) qs)).
  { intros p v qs Hv Hq. apply Forall_map.
    eapply Forall_impl; [|exact Hq]. intros x. now apply fill_one_well_formed. }
  rewrite (replace_from_pieces "contact_name") by (assumption || reflexivity).
  rewrite (replace_from_pieces "company_name") by (auto || reflexivity).
  rewrite (replace_from_pieces "position") by (auto || reflexivity).
  rewrite (replace_from_pieces "email") by (auto || reflexivity).
  rewrite !map_map. f_equal. apply map_ext. intros x. apply fill_passes.
Qed.

Lemma replaceVariables_well_formed_witness :
  let c := mkContact "Jane" (Some "Acme") None (Some "jane@acme.io") in
  let ps := [Text "Hello "; Token "contact_name"; Text " of ";
             Token "company_name"; Token "position"; Text " (";
             Token "unknown"; Text ") <"; Token "email"; Text ">"] in
  (Forall well_formed ps /\ brace_free c /\ dollar_free c)
  /\ show_all ps
     = "Hello {{contact_name}} of {{company_name}}{{position}} ({{unknown}}) <{{email}}>"
  /\ replaceVariables (show_all ps) (Some c)
     = "Hello Jane of Acme ({{unknown}}) <jane@acme.io>".
Proof.
  intros c ps.
  assert (H1 : Forall well_formed ps)
    by (repeat constructor).
  assert (H2 : brace_free c) by (repeat split; reflexivity).
  assert (H3 : dollar_free c) by (repeat split; reflexivity).
  split; [repeat split; assumption|]. split; [reflexivity|].
  rewrite (replaceVariables_well_formed c ps H1 H2 H3). reflexivity.
Defined.

End WellFormedTemplates.

(** ** The e-mail composer: opening and selecting *)

Section EmailComposerExtras.
Import Js Eff SendEmailModal LinkSpec.

(** Opening the e-mail composer empties the selection, the subject and
    the body whatever they held and whatever the fetch answers; the
    templates become the fetched list (the empty list for an answer
    without data) and stay as they were when the fetch fails.  While the
    dialog is closed the effect does nothing. *)
Theorem useEffect_open_resets
    (resp : Response (list EmailTemplate)) (w : World) :
  let w' := exec (useEffect_open resp) w in
  (open w = false -> w' = w)
  /\ (open w = true ->
      selectedTemplate w' = "" /\ subject w' = "" /\ body w' = ""
      /\ contact w' = contact w
      /\ templates w'
         = match resp with
           | Resolved (Some ts) None => ts
           | Resolved None None => []
           | _ => templates w
           end).
Proof.
  cbv zeta. split; intros Ho.
  - unfold useEffect_open, exec, bind, get. cbn. rewrite Ho. reflexivity.
  - unfold useEffect_open, exec, bind, get, fetchTemplates, try_catch, bind,
      emit, setTemplates, setSelectedTemplate, setSubject, setBody, modify,
      throw. cbn. rewrite Ho.
    destruct resp as [e | [ts|] [e|]]; cbn; repeat split; reflexivity.
Qed.

Lemma useEffect_open_resets_witness :
  let t := mkTemplate "t1" "Intro" "Hi" "Body" in
  let w := mkWorld true None [] "t9" "old subject" "old body" [] in
  let w' := exec (useEffect_open (Resolved (Some [t]) None)) w in
  open w = true
  /\ selectedTemplate w' = "" /\ subject w' = "" /\ body w' = ""
  /\ templates w' = [t].
Proof.
  intros t w w'. split; [reflexivity|].
  destruct (proj2 (useEffect_open_resets (Resolved (Some [t]) None) w) eq_refl)
    as (H1 & H2 & H3 & _ & H5).
  repeat split; assumption.
Defined.

(** Selecting the entry "none" empties the subject and the body whatever
    they held, also when a template has the id "none"; selecting an id
    that no loaded template has changes the selection only. *)
Theorem handleTemplateSelect_none_and_unknown (w : World) :
  exec (handleTemplateSelect "none") w
  = mkWorld (open w) (contact w) (templates w) "none" "" "" (log w)
  /\ (forall templateId,
        templateId <> "none" ->
        (forall t, In t (templates w) -> id t <> templateId) ->
        exec (handleTemplateSelect templateId) w
        = mkWorld (open w) (contact w) (templates w) templateId
            (subject w) (body w) (log w)).
Proof.
  split; [reflexivity|].
  intros templateId Hne Hmiss.
  unfold handleTemplateSelect, exec, bind, get, setSelectedTemplate, modify, ret.
  cbn. destruct (String.eqb_spec templateId "none") as [|_]; [contradiction|].
  cbn.
  destruct (find (fun t => String.eqb (id t) templateId) (templates w))
    as [t|] eqn:F; [|reflexivity].
  apply find_some in F as [Hin Heq].
  apply String.eqb_eq in Heq. exfalso. now apply (Hmiss t).
Qed.

Lemma handleTemplateSelect_none_and_unknown_witness :
  let t := mkTemplate "t1" "Intro" "Hi" "Body" in
  let w := mkWorld true None [t] "t1" "edited" "edited too" [] in
  ("t7" <> "none" /\ forall t', In t' (templates w) -> id t' <> "t7")
  /\ exec (handleTemplateSelect "t7") w
     = mkWorld true None [t] "t7" "edited" "edited too" [].
Proof.
  intros t w.
  assert (H1 : "t7" <> "none") by discriminate.
  assert (H2 : forall t', In t' (templates w) -> id t' <> "t7").
  { intros t' [<- | []]. discriminate. }
  split; [split; assumption|].
  exact (proj2 (handleTemplateSelect_none_and_unknown w) "t7" H1 H2).
Defined.

End EmailComposerExtras.

(** ** The e-mail composer: the link *)

Section LinkExtras.
Import Js Eff SendEmailModal LinkSpec QuerySpec TemplateSpec.

Lemma encode_byte_encoded (c : ascii) :
  all_chars encoded_char (Url.encode_byte c) = true.
Proof.
  destruct c as [[] [] [] [] [] [] [] []]; vm_compute; reflexivity.
Qed.

Lemma all_chars_append (P : ascii -> bool) (a b : string) :
  all_chars P (a ++ b) = all_chars P a && all_chars P b.
Proof.
  induction a as [|x a IH]; simpl; [reflexivity|].
  now rewrite IH, andb_assoc.
Qed.

Lemma urlencode_encoded (s : string) :
  all_chars encoded_char (Url.urlencode s) = true.
Proof.
  induction s as [|c s IH]; [reflexivity|].
  cbn [Url.urlencode]. now rewrite all_chars_append, encode_byte_encoded, IH.
Qed.

Lemma all_chars_weaken (P Q : ascii -> bool) (s : string) :
  (forall c, P c = true -> Q c = true) ->
  all_chars P s = true -> all_chars Q s = true.
Proof.
  intros H. induction s as [|c s IH]; simpl; [reflexivity|].
  intros E. apply andb_prop in E as [E1 E2]. now rewrite (H _ E1), IH.
Qed.

Lemma count_char_append (c : ascii) (a b : string) :
  count_char c (a ++ b) = count_char c a + count_char c b.
Proof.
  induction a as [|x a IH]; simpl; [reflexivity|]. rewrite IH. lia.
Qed.

Lemma count_char_absent (P : ascii -> bool) (c : ascii) (s : string) :
  P c = false -> all_chars P s = true -> count_char c s = 0.
Proof.
  intros Hc. induction s as [|x s IH]; simpl; [reflexivity|].
  intros E. apply andb_prop in E as [E1 E2].
  destruct (Ascii.eqb_spec x c) as [->|]; [congruence|]. now apply IH.
Qed.

Lemma handleSendEmail_opens (w : World) (c : Contact) (address : string) :
  contact w = Some c -> email c = Some address -> address <> "" ->
  emitted handleSendEmail w
  = [EWindowOpen (mailto address (subject w) (body w)) "_blank";
     EToast (mkToast "Email Client Opened"
               "Your default email client should open with the pre-filled template"
               vDefault);
     EOnOpenChange false].
Proof.
  intros Hc He Hne.
  unfold emitted, handleSendEmail, exec, bind, get. cbn.
  rewrite Hc. cbn [contact_email]. rewrite He.
  destruct address as [|a0 address]; [congruence|].
  cbn [truthy_opt truthy negb opt_or_else or_else].
  rewrite mailtoParams_toString.
  unfold emit, toast, emit, modify. cbn.
  rewrite <- !app_assoc. apply skipn_length_app.
Qed.

Lemma handleSendEmail_refuses (w : World) :
  truthy_opt (contact_email (contact w)) = false ->
  emitted handleSendEmail w
  = [EToast (mkToast "No email address"
               "This contact doesn't have an email address" vDestructive)].
Proof.
  intros H. unfold emitted, handleSendEmail, exec, bind, get. cbn.
  rewrite H. cbn. apply skipn_length_app.
Qed.

(** The query of the link the send action opens is written with encoded
    characters, [=] and [&] only, and holds one [=] for each of subject
    and body that is not empty and one [&] exactly when both are not:
    nothing in the subject or the body can add a parameter to the link or
    end the query. *)
Theorem mailto_query_shape (w : World) (c : Contact) (address : string) :
  contact w = Some c -> email c = Some address -> address <> "" ->
  exists query,
    emitted handleSendEmail w
    = [EWindowOpen ("mailto:" ++ address ++ "?" ++ query) "_blank";
       EToast (mkToast "Email Client Opened"
                 "Your default email client should open with the pre-filled template"
                 vDefault);
       EOnOpenChange false]
    /\ all_chars query_char query = true
    /\ count_char "=" query = filled (subject w) (body w)
    /\ count_char "&" query = filled (subject w) (body w) - 1
    /\ count_char "#" query = 0 /\ count_char " " query = 0
    /\ count_char "?" query = 0.
Proof.
  intros Hc He Hne. exists (mailto_query (subject w) (body w)).
  split; [exact (handleSendEmail_opens w c address Hc He Hne)|].
  assert (Q : forall s, all_chars query_char (Url.urlencode s) = true).
  { intros s.
    refine (all_chars_weaken encoded_char query_char _ _ (urlencode_encoded s)).
    intros x Hx. unfold query_char. now rewrite Hx. }
  assert (Z : forall x s, encoded_char x = false ->
                count_char x (Url.urlencode s) = 0).
  { intros x s Hx.
    exact (count_char_absent encoded_char x _ Hx (urlencode_encoded s)). }
  pose proof (fun s => Z "="%char s eq_refl) as Z1.
  pose proof (fun s => Z "&"%char s eq_refl) as Z2.
  pose proof (fun s => Z "#"%char s eq_refl) as Z3.
  pose proof (fun s => Z " "%char s eq_refl) as Z4.
  pose proof (fun s => Z "?"%char s eq_refl) as Z5.
  unfold mailto_query, filled.
  destruct (truthy (subject w)), (truthy (body w));
    rewrite ?all_chars_append, ?count_char_append, ?Q, ?Z1, ?Z2, ?Z3, ?Z4, ?Z5;
    repeat split; reflexivity.
Qed.

Lemma mailto_query_shape_witness :
  let c := mkContact "Jane" None None (Some "jane@acme.io") in
  let w := mkWorld true (Some c) [] "" "Q&A: 2 + 2 = ?" "see #5&cc=x@y.z" [] in
  (contact w = Some c /\ email c = Some "jane@acme.io" /\ "jane@acme.io" <> "")
  /\ exists query,
       emitted handleSendEmail w
       = [EWindowOpen ("mailto:" ++ "jane@acme.io" ++ "?" ++ query) "_blank";
          EToast (mkToast "Email Client Opened"
                    "Your default email client should open with the pre-filled template"
                    vDefault);
          EOnOpenChange false]
       /\ count_char "&" query = 1.
Proof.
  intros c w.
  assert (H1 : contact w = Some c) by reflexivity.
  assert (H2 : email c = Some "jane@acme.io") by reflexivity.
  assert (H3 : "jane@acme.io" <> "") by discriminate.
  split; [repeat split; assumption|].
  destruct (mailto_query_shape w c "jane@acme.io" H1 H2 H3)
    as (query & Hq & _ & _ & Ha & _).
  exists query. split; [exact Hq | exact Ha].
Defined.

End LinkExtras.

(** ** The e-mail composer: what it offers *)

Section SelectorExtras.
Import Js Eff SendEmailModal LinkSpec.

Lemma find_by_id_first (ts : list EmailTemplate) (t : EmailTemplate) :
  In t ts ->
  exists t', find (fun x => String.eqb (id x) (id t)) ts = Some t'
             /\ id t' = id t /\ In t' ts.
Proof.
  induction ts as [|a ts IH]; intros Hin; [contradiction|].
  cbn [find]. destruct (String.eqb_spec (id a) (id t)) as [E|N].
  - exists a. repeat split; [exact E | now left].
  - destruct Hin as [->|Hin]; [congruence|].
    destruct (IH Hin) as (t' & F & E & I). exists t'. repeat split; auto.
    now right.
Qed.

Lemma find_by_id_unique (ts : list EmailTemplate) (t : EmailTemplate) :
  NoDup (map id ts) -> In t ts ->
  find (fun x => String.eqb (id x) (id t)) ts = Some t.
Proof.
  induction ts as [|a ts IH]; intros Hnd Hin; [contradiction|].
  inversion Hnd as [|? ? Hnot Hnd']; subst.
  cbn [find]. destruct (String.eqb_spec (id a) (id t)) as [E|N].
  - destruct Hin as [->|Hin]; [reflexivity|].
    exfalso. apply Hnot. rewrite E. now apply in_map.
  - destruct Hin as [->|Hin]; [congruence|]. now apply IH.
Qed.

Lemma handleTemplateSelect_found
    (w : World) (templateId : string) (t : EmailTemplate) :
  templateId <> "none" ->
  find (fun x => String.eqb (id x) templateId) (templates w) = Some t ->
  exec (handleTemplateSelect templateId) w
  = mkWorld (open w) (contact w) (templates w) templateId
      (replaceVariables (t_subject t) (contact w))
      (replaceVariables (t_body t) (contact w)) (log w).
Proof.
  intros Hne F.
  unfold handleTemplateSelect, exec, bind, get, setSelectedTemplate, setSubject,
    setBody, modify, ret. cbn.
  destruct (String.eqb_spec templateId "none") as [|_]; [contradiction|].
  cbn. rewrite F. reflexivity.
Qed.

Lemma find_by_id_split (ts : list EmailTemplate) (value : string) :
  In value (map id ts) ->
  exists earlier t later,
    ts = (earlier ++ t :: later)%list
    /\ (forall x, In x earlier -> id x <> value)
    /\ id t = value
    /\ find (fun x => String.eqb (id x) value) ts = Some t.
Proof.
  induction ts as [|a ts IH]; intros Hin; [contradiction|].
  cbn [find]. destruct (String.eqb_spec (id a) value) as [E|N].
  - exists [], a, ts. repeat split; [|exact E]. intros x [].
  - destruct Hin as [E|Hin]; [contradiction|].
    destruct (IH Hin) as (earlier & t & later & -> & Hpre & E & F).
    exists (a :: earlier), t, later. repeat split; [|exact E|exact F].
    intros x [<-|Hx]; [exact N | now apply Hpre].
Qed.

(** Every entry the template selector offers besides "none" carries the
    id of a loaded template; picking it applies the FIRST loaded template
    that has the entry's id: the loaded list splits into templates with
    other ids, that template, and the rest, and the subject and the body
    become that template's, filled for the contact.  That template is the
    entry's own (it carries the entry's label) when the ids of the loaded
    templates are distinct. *)
Theorem selector_entry_applies_template
    (w : World) (v : SendEmailView.View) (value label : string) :
  SendEmailView.render w = Some v ->
  In (value, label) (SendEmailView.options v) ->
  value <> "none" ->
  let w' := exec (handleTemplateSelect value) w in
  (exists earlier t later,
     templates w = (earlier ++ t :: later)%list
     /\ (forall x, In x earlier -> id x <> value)
     /\ id t = value
     /\ w' = mkWorld (open w) (contact w) (templates w) value
               (replaceVariables (t_subject t) (contact w))
               (replaceVariables (t_body t) (contact w)) (log w)
     /\ (NoDup (map id (templates w)) -> name t = label)).
Proof.
  intros Hr Hin Hne. unfold SendEmailView.render in Hr.
  destruct (contact w) as [c|] eqn:Ec; [|discriminate].
  injection Hr as <-. cbn [SendEmailView.options] in Hin.
  destruct Hin as [E | Hin]; [congruence|].
  apply in_map_iff in Hin as (t & E & Hin). injection E as <- <-.
  cbv zeta.
  destruct (find_by_id_split (templates w) (id t) (in_map id _ _ Hin))
    as (earlier & t' & later & Hs & Hpre & E & F).
  exists earlier, t', later.
  split; [exact Hs|]. split; [exact Hpre|]. split; [exact E|].
  split.
  - rewrite (handleTemplateSelect_found w (id t) t' Hne F), Ec. reflexivity.
  - intros Hnd. pose proof (find_by_id_unique _ _ Hnd Hin) as F'.
    rewrite F in F'. now injection F' as ->.
Qed.

Lemma selector_entry_applies_template_witness :
  let c := mkContact "Jane" None None None in
  let t0 := mkTemplate "z" "Zeroth" "Zero {{contact_name}}" "0" in
  let t1 := mkTemplate "a" "First" "One {{contact_name}}" "1" in
  let t2 := mkTemplate "a" "Second" "Two {{contact_name}}" "2" in
  let w := mkWorld true (Some c) [t0; t1; t2] "" "" "" [] in
  (exists v, SendEmailView.render w = Some v
             /\ In ("a", "Second") (SendEmailView.options v))
  /\ "a" <> "none"
  /\ exec (handleTemplateSelect "a") w
     = mkWorld true (Some c) [t0; t1; t2] "a" "One Jane" "1" [].
Proof.
  intros c t0 t1 t2 w.
  assert (Hr : SendEmailView.render w
               = Some (SendEmailView.mkView true "Send Email to Jane"
                         "No email address"
                         [("none", "No template"); ("z", "Zeroth");
                          ("a", "First"); ("a", "Second")]
                         "" false "" "" true)) by reflexivity.
  assert (Hin : In ("a", "Second")
                  (SendEmailView.options
                     (SendEmailView.mkView true "Send Email to Jane"
                        "No email address"
                        [("none", "No template"); ("z", "Zeroth");
                         ("a", "First"); ("a", "Second")]
                        "" false "" "" true)))
    by (right; right; right; left; reflexivity).
  assert (Hne : "a" <> "none") by discriminate.
  split; [eexists; split; [exact Hr | exact Hin]|].
  split; [exact Hne|].
  destruct (selector_entry_applies_template w _ "a" "Second" Hr Hin Hne)
    as (earlier & t & later & Hs & Hpre & E & Hw & _).
  rewrite Hw.
  destruct earlier as [|x earlier].
  - injection Hs as <- _. discriminate E.
  - injection Hs as <- Hs.
    destruct earlier as [|y earlier].
    + injection Hs as <- _. reflexivity.
    + injection Hs as <- _. exfalso.
      apply (Hpre t1); [right; left; reflexivity | reflexivity].
Defined.

(** The send button is disabled exactly when the send action would
    refuse: with the button enabled the action opens the mail link, and
    the notification "No email address" is out of reach of a click. *)
Theorem send_button_matches_guard (w : World) (v : SendEmailView.View) :
  SendEmailView.render w = Some v ->
  (SendEmailView.sendDisabled v = false ->
   exists address,
     contact_email (contact w) = Some address /\ address <> ""
     /\ emitted handleSendEmail w
        = [EWindowOpen (mailto address (subject w) (body w)) "_blank";
           EToast (mkToast "Email Client Opened"
                     "Your default email client should open with the pre-filled template"
                     vDefault);
           EOnOpenChange false])
  /\ (SendEmailView.sendDisabled v = true ->
      emitted handleSendEmail w
      = [EToast (mkToast "No email address"
                   "This contact doesn't have an email address" vDestructive)]).
Proof.
  intros Hr. unfold SendEmailView.render in Hr.
  destruct (contact w) as [c|] eqn:Ec; [|discriminate].
  injection Hr as <-. cbn [SendEmailView.sendDisabled contact_email].
  split; intros H.
  - destruct (email c) as [[|a0 address]|] eqn:Ee; try discriminate.
    exists (String a0 address). split; [reflexivity|]. split; [discriminate|].
    apply (handleSendEmail_opens w c); [exact Ec | exact Ee | discriminate].
  - apply handleSendEmail_refuses. rewrite Ec. cbn [contact_email].
    now destruct (truthy_opt (email c)).
Qed.

Lemma send_button_matches_guard_witness :
  let c := mkContact "Jane" None None (Some "jane@acme.io") in
  let w := mkWorld true (Some c) [] "" "Hi" "" [] in
  (exists v, SendEmailView.render w = Some v
             /\ SendEmailView.sendDisabled v = false)
  /\ emitted handleSendEmail w
     = [EWindowOpen "mailto:jane@acme.io?subject=Hi" "_blank";
        EToast (mkToast "Email Client Opened"
                  "Your default email client should open with the pre-filled template"
                  vDefault);
        EOnOpenChange false].
Proof.
  intros c w.
  assert (Hr : SendEmailView.render w
               = Some (SendEmailView.mkView true "Send Email to Jane"
                         "jane@acme.io" [("none", "No template")] "" true
                         "Hi" "" false)) by reflexivity.
  split; [eexists; split; [exact Hr | reflexivity]|].
  destruct (proj1 (send_button_matches_guard w _ Hr) eq_refl)
    as (address & Ha & _ & He).
  injection Ha as <-. exact He.
Defined.

End SelectorExtras.

(** ** The settings shell: menu, labels and navigation *)

Section SettingsExtras.
Import Settings SettingsNav.

Lemma renderMenu_concat (admin : bool) (sections : list MenuSection) :
  List.concat (map snd (renderMenu admin sections))
  = filter (fun item => negb (flagged (adminOnly item)) || admin)
      (List.concat (map items sections)).
Proof.
  induction sections as [|s ss IH]; [reflexivity|].
  cbn [renderMenu map List.concat]. rewrite filter_app, <- IH.
  unfold visibleItems at 1.
  destruct (filter _ (items s)) as [|i rest] eqn:E; [reflexivity|].
  cbn [map snd List.concat]. now rewrite <- E.
Qed.

Lemma renderMenu_sections (admin : bool) (sections : list MenuSection)
    (heading : string) (entries : list MenuItem) :
  In (heading, entries) (renderMenu admin sections) ->
  entries <> []
  /\ exists section,
       In section sections /\ title section = heading
       /\ entries = visibleItems admin section.
Proof.
  induction sections as [|s ss IH]; intros Hin; [contradiction|].
  cbn [renderMenu] in Hin.
  destruct (visibleItems admin s) as [|i rest] eqn:E.
  - destruct (IH Hin) as (Hne & sec & Hs & Ht & He).
    split; [exact Hne|]. exists sec. repeat split; auto. now right.
  - destruct Hin as [Heq | Hin].
    + injection Heq as <- <-. split; [discriminate|].
      exists s. repeat split; auto. now left.
    + destruct (IH Hin) as (Hne & sec & Hs & Ht & He).
      split; [exact Hne|]. exists sec. repeat split; auto. now right.
Qed.

(** The entries of the sidebar are the entries of the menu that the
    caller may see, in the order of the menu, for any menu and any caller;
    an administrator sees every entry; and no section is rendered without
    an entry under its title. *)
Theorem renderMenu_entries (admin : bool) (sections : list MenuSection) :
  List.concat (map snd (renderMenu admin sections))
  = filter (fun item => negb (flagged (adminOnly item)) || admin)
      (List.concat (map items sections))
  /\ (admin = true ->
      List.concat (map snd (renderMenu admin sections))
      = List.concat (map items sections))
  /\ (forall heading entries,
        In (heading, entries) (renderMenu admin sections) ->
        entries <> []
        /\ exists section,
             In section sections /\ title section = heading
             /\ entries = visibleItems admin section).
Proof.
  split; [apply renderMenu_concat|]. split.
  - intros ->. rewrite renderMenu_concat. apply forallb_filter_id.
    apply forallb_forall. intros x _. apply orb_true_r.
  - intros heading entries. apply renderMenu_sections.
Qed.

Lemma renderMenu_entries_witness :
  (isAdmin (Some "admin") = true
   /\ In ("Security", [mkItem "session-management" "Session Management" Monitor None])
        (renderMenu false menuSections))
  /\ map id (renderedItems (Some "admin")) = recognized
  /\ map fst (renderMenu false menuSections) = ["Personal Settings"; "Security"].
Proof.
  assert (H1 : isAdmin (Some "admin") = true) by reflexivity.
  assert (H2 : In ("Security",
                   [mkItem "session-management" "Session Management" Monitor None])
                 (renderMenu false menuSections))
    by (right; left; reflexivity).
  split; [split; assumption|]. split.
  - unfold renderedItems.
    rewrite (proj1 (proj2 (renderMenu_entries (isAdmin (Some "admin")) menuSections)) H1).
    reflexivity.
  - reflexivity.
Defined.

(** The menu and the panels agree: the entries have pairwise distinct
    ids; [renderContent] shows for the id of each entry the panel listed
    here, every panel is shown for the id of some entry, and a key that
    shows another panel than the profile one is the id of an entry.
    [getActiveLabel] gives the label of the entry for the id of an entry,
    and "Settings" for any other key, for which [renderContent] shows the
    profile panel. *)
Theorem menu_keys_and_labels :
  NoDup (map id allItems)
  /\ map (fun item => (id item, renderContent (id item))) allItems
     = [ ("profile", ProfileSettings);
         ("password-security", SecuritySettings);
         ("notifications", NotificationSettings);
         ("display", DisplaySettings);
         ("user-directory", UserManagement);
         ("role-management", UserManagement);
         ("page-access", PageAccessSettings);
         ("pipeline", PipelineSettings);
         ("email-templates", EmailTemplatesSettings);
         ("backup", BackupRestoreSettings);
         ("integrations", IntegrationSettings);
         ("audit-logs", AuditLogsSettings);
         ("session-management", SessionManagementSettings) ]
  /\ (forall panel : Panel,
        exists item, In item allItems /\ renderContent (id item) = panel)
  /\ (forall key,
        renderContent key <> ProfileSettings -> In key (map id allItems))
  /\ (forall item, In item allItems -> getActiveLabel (id item) = label item)
  /\ (forall key,
        ~ In key (map id allItems) ->
        getActiveLabel key = "Settings" /\ renderContent key = ProfileSettings).
Proof.
  assert (Hout : forall key, ~ In key (map id allItems) ->
                   renderContent key = ProfileSettings).
  { intros key H. unfold renderContent.
    repeat match goal with
           | |- context [String.eqb key ?s] =>
               destruct (String.eqb_spec key s) as [->|_];
               [exfalso; apply H; cbn; tauto|]
           end.
    reflexivity. }
  split; [|split; [|split; [|split; [|split]]]].
  - cbn. repeat (constructor; [cbn; intros H;
      repeat (destruct H as [H | H]; [discriminate H|]); exact H|]).
    constructor.
  - reflexivity.
  - intros panel.
    destruct panel;
      [ exists (mkItem "profile" "Profile Management" User None)
      | exists (mkItem "password-security" "Password & Security" Key None)
      | exists (mkItem "notifications" "Notification Preferences" Bell None)
      | exists (mkItem "display" "Display Preferences" Palette None)
      | exists (mkItem "user-directory" "User Directory" Users (Some true))
      | exists (mkItem "page-access" "Page Access Control" Activity (Some true))
      | exists (mkItem "pipeline" "Pipeline/Stage Management" GitBranch (Some true))
      | exists (mkItem "email-templates" "Email Templates" FileText (Some true))
      | exists (mkItem "backup" "Data Import/Export" FileUp (Some true))
      | exists (mkItem "integrations" "Integration Settings" Plug (Some true))
      | exists (mkItem "audit-logs" "Audit Logs Viewer" Shield (Some true))
      | exists (mkItem "session-management" "Session Management" Monitor None) ];
      (split; [cbn; tauto | reflexivity]).
  - intros key Hp.
    destruct (in_dec string_dec key (map id allItems)) as [Hin | Hnot];
      [exact Hin|].
    exfalso. apply Hp. now apply Hout.
  - intros item Hin. cbn in Hin.
    repeat (destruct Hin as [<- | Hin]; [reflexivity|]). contradiction.
  - intros key H. split; [|now apply Hout].
    unfold getActiveLabel, menuSections.
    cbn [find_label find items id].
    repeat match goal with
           | |- context [String.eqb ?s key] =>
               destruct (String.eqb_spec s key) as [<-|_];
               [exfalso; apply H; cbn; tauto|]
           end.
    reflexivity.
Qed.

Lemma menu_keys_and_labels_witness :
  (In (mkItem "backup" "Data Import/Export" FileUp (Some true)) allItems
   /\ ~ In "billing" (map id allItems)
   /\ renderContent "pipeline" <> ProfileSettings)
  /\ getActiveLabel "backup" = "Data Import/Export"
  /\ getActiveLabel "billing" = "Settings"
  /\ renderContent "billing" = ProfileSettings
  /\ In "pipeline" (map id allItems).
Proof.
  assert (H1 : In (mkItem "backup" "Data Import/Export" FileUp (Some true)) allItems)
    by (cbn; tauto).
  assert (H2 : ~ In "billing" (map id allItems)).
  { cbn. intros H.
    repeat (destruct H as [H | H]; [discriminate H|]). exact H. }
  assert (H3 : renderContent "pipeline" <> ProfileSettings) by discriminate.
  split; [repeat split; assumption|].
  destruct menu_keys_and_labels as (_ & _ & _ & Hkey & Hlab & Hout).
  split; [exact (Hlab _ H1)|].
  split; [exact (proj1 (Hout _ H2))|].
  split; [exact (proj2 (Hout _ H2)) | exact (Hkey _ H3)].
Defined.

(** A caller who is not an administrator and moves through the shell by
    clicking entries of the sidebar never has an admin-only key active, and
    is never shown a panel other than the five personal ones. *)
Theorem navigation_stays_personal
    (userRole : option string) (clicks : list MenuItem) :
  userRole <> Some "admin" ->
  Forall (fun item => In item (renderedItems userRole)) clicks ->
  ~ In (navigate clicks defaultTab) adminKeys
  /\ In (renderContent (navigate clicks defaultTab))
        [ProfileSettings; SecuritySettings; NotificationSettings;
         DisplaySettings; SessionManagementSettings].
Proof.
  intros Hrole Hclicks.
  assert (Hkey : In (navigate clicks defaultTab)
                   ["profile"; "password-security"; "notifications"; "display";
                    "session-management"]).
  { unfold navigate.
    assert (G : forall start,
              In start ["profile"; "password-security"; "notifications";
                        "display"; "session-management"] ->
              In (fold_left (fun _ item => id item) clicks start)
                 ["profile"; "password-security"; "notifications"; "display";
                  "session-management"]).
    { induction Hclicks as [|item clicks Hitem _ IH]; intros start Hs;
        [exact Hs|].
      cbn [fold_left]. apply IH.
      unfold renderedItems in Hitem. rewrite (isAdmin_other _ Hrole) in Hitem.
      cbn in Hitem.
      repeat (destruct Hitem as [<- | Hitem]; [cbn; tauto|]). contradiction. }
    apply G. cbn. tauto. }
  set (key := navigate clicks defaultTab) in *. clearbody key.
  split.
  - intros Hadmin. cbn in Hkey, Hadmin.
    repeat (destruct Hkey as [<- | Hkey];
            [repeat (destruct Hadmin as [Hadmin | Hadmin];
                     [discriminate Hadmin|]); exact Hadmin|]).
    exact Hkey.
  - cbn in Hkey.
    repeat (destruct Hkey as [<- | Hkey]; [cbn; tauto|]). contradiction.
Qed.

Lemma navigation_stays_personal_witness :
  let clicks := [mkItem "display" "Display Preferences" Palette None;
                 mkItem "session-management" "Session Management" Monitor None] in
  (Some "sales" <> Some "admin"
   /\ Forall (fun item => In item (renderedItems (Some "sales"))) clicks)
  /\ renderContent (navigate clicks defaultTab) = SessionManagementSettings
  /\ ~ In (navigate clicks defaultTab) adminKeys.
Proof.
  intros clicks.
  assert (H1 : Some "sales" <> Some "admin") by discriminate.
  assert (H2 : Forall (fun item => In item (renderedItems (Some "sales"))) clicks)
    by (repeat constructor; cbn; tauto).
  split; [split; assumption|]. split; [reflexivity|].
  exact (proj1 (navigation_stays_personal (Some "sales") clicks H1 H2)).
Defined.

End SettingsExtras.

(** ** The meeting composer: the two actions *)

Section MeetingHandlersExtras.
Import Js Eff MeetingModal MeetingSpec LinkSpec FormSpec.

(** Asking for a conferencing link while the subject, the start time or
    the end time is blank calls nothing: the only effect is the
    notification "Missing fields", and the form and the busy flag are as
    before. *)
Theorem createTeamsMeeting_blank_no_call
    (resp : Response InvokeData) (w : World) :
  some_blank (formData w) ->
  emitted (createTeamsMeeting resp) w
  = [EToast (mkToast "Missing fields"
               "Please fill in subject, start time and end time first"
               vDestructive)]
  /\ invokes (emitted (createTeamsMeeting resp) w) = []
  /\ formData (exec (createTeamsMeeting resp) w) = formData w
  /\ creatingTeamsMeeting (exec (createTeamsMeeting resp) w)
     = creatingTeamsMeeting w.
Proof.
  intros B.
  assert (E : emitted (createTeamsMeeting resp) w
              = [EToast (mkToast "Missing fields"
                           "Please fill in subject, start time and end time first"
                           vDestructive)]).
  { erewrite emitted_of; [| now apply createTeamsMeeting_blank | reflexivity].
    reflexivity. }
  rewrite E. split; [reflexivity|]. split; [reflexivity|].
  unfold exec. rewrite (createTeamsMeeting_blank resp w B). now split.
Qed.

Lemma createTeamsMeeting_blank_no_call_witness :
  let w := mkWorld true None None false false [] []
             (mkForm "Sync" "" "" "2024-01-15T10:00" "" "" "" "scheduled") [] in
  some_blank (formData w)
  /\ invokes (emitted (createTeamsMeeting (Resolved None None)) w) = [].
Proof.
  intros w.
  assert (B : some_blank (formData w)) by (right; left; reflexivity).
  split; [exact B|].
  exact (proj1 (proj2 (createTeamsMeeting_blank_no_call (Resolved None None) w B))).
Defined.

(** When the remote function answers without an error and without a join
    link (no data, no meeting, no link or an empty link), the call was
    made but nothing is shown and the form is left as it was. *)
Theorem createTeamsMeeting_silent_without_link
    (data : option InvokeData) (w : World) :
  required_filled (formData w) ->
  data_joinUrl data = None \/ data_joinUrl data = Some "" ->
  emitted (createTeamsMeeting (Resolved data None)) w
  = [EInvoke "create-teams-meeting" (invoke_body w)]
  /\ toasts (emitted (createTeamsMeeting (Resolved data None)) w) = []
  /\ formData (exec (createTeamsMeeting (Resolved data None)) w) = formData w.
Proof.
  intros F D.
  assert (E : emitted (createTeamsMeeting (Resolved data None)) w
              = [EInvoke "create-teams-meeting" (invoke_body w)]).
  { erewrite emitted_of;
      [| now apply createTeamsMeeting_no_link | reflexivity]. reflexivity. }
  rewrite E. split; [reflexivity|]. split; [reflexivity|].
  unfold exec. now rewrite (createTeamsMeeting_no_link data w F D).
Qed.

Lemma createTeamsMeeting_silent_without_link_witness :
  let w := mkWorld true None None false false [] []
             (mkForm "Sync" "" "2024-01-15T09:00" "2024-01-15T10:00" "kept" ""
                "" "scheduled") [] in
  let data := Some (mkData (Some (mkInfo None))) in
  (required_filled (formData w) /\ data_joinUrl data = None)
  /\ toasts (emitted (createTeamsMeeting (Resolved data None)) w) = []
  /\ join_url (formData (exec (createTeamsMeeting (Resolved data None)) w)) = "kept".
Proof.
  intros w data.
  assert (F : required_filled (formData w)) by (repeat split; discriminate).
  assert (D : data_joinUrl data = None) by reflexivity.
  split; [split; assumption|].
  destruct (createTeamsMeeting_silent_without_link data w F (or_introl D))
    as (_ & H2 & H3).
  split; [exact H2 | now rewrite H3].
Defined.

(** Each answer that carries a link overwrites the join link of the form:
    after two requests the field holds the second link; and a request that
    fails after one that succeeded keeps the link of the first. *)
Theorem createTeamsMeeting_twice
    (w : World) (d1 : option InvokeData) (url1 : string) :
  required_filled (formData w) ->
  data_joinUrl d1 = Some url1 -> url1 <> "" ->
  let w1 := exec (createTeamsMeeting (Resolved d1 None)) w in
  (forall d2 url2,
     data_joinUrl d2 = Some url2 -> url2 <> "" ->
     formData (exec (createTeamsMeeting (Resolved d2 None)) w1)
     = with_join_url (formData w) url2)
  /\ (forall resp e,
        failure resp = Some e ->
        formData (exec (createTeamsMeeting resp) w1)
        = with_join_url (formData w) url1).
Proof.
  intros F D U w1.
  assert (E1 : formData w1 = with_join_url (formData w) url1).
  { subst w1. unfold exec. now rewrite (createTeamsMeeting_link d1 url1 w F D U). }
  assert (F1 : required_filled (formData w1)) by (rewrite E1; exact F).
  split.
  - intros d2 url2 D2 U2. unfold exec.
    rewrite (createTeamsMeeting_link d2 url2 w1 F1 D2 U2). cbn [snd formData].
    rewrite E1. reflexivity.
  - intros resp e Fl. unfold exec.
    rewrite (createTeamsMeeting_failure resp e w1 F1 Fl). cbn [snd formData].
    exact E1.
Qed.

Lemma createTeamsMeeting_twice_witness :
  let w := mkWorld true None None false false [] []
             (mkForm "Sync" "" "2024-01-15T09:00" "2024-01-15T10:00" "" ""
                "" "scheduled") [] in
  let link u : Response InvokeData :=
    Resolved (Some (mkData (Some (mkInfo (Some u))))) None in
  (required_filled (formData w) /\ "https://t/1" <> "")
  /\ join_url (formData (exec (createTeamsMeeting (link "https://t/2"))
                           (exec (createTeamsMeeting (link "https://t/1")) w)))
     = "https://t/2"
  /\ join_url (formData (exec (createTeamsMeeting (Rejected (mkError None)))
                           (exec (createTeamsMeeting (link "https://t/1")) w)))
     = "https://t/1".
Proof.
  intros w link.
  assert (F : required_filled (formData w)) by (repeat split; discriminate).
  assert (U : "https://t/1" <> "") by discriminate.
  split; [split; assumption|].
  destruct (createTeamsMeeting_twice w
              (Some (mkData (Some (mkInfo (Some "https://t/1"))))) "https://t/1"
              F eq_refl U) as [H1 H2].
  split.
  - unfold link.
    rewrite (H1 (Some (mkData (Some (mkInfo (Some "https://t/2")))))
               "https://t/2" eq_refl ltac:(discriminate)).
    reflexivity.
  - unfold link.
    rewrite (H2 (Rejected (mkError None)) (mkError None) eq_refl). reflexivity.
Defined.

(** A submission that the backend accepts shows the success notification
    of its mode, then calls the parent's [onSuccess], then closes the
    dialog, in this order, and leaves the form as it was; the row it wrote
    carries the required fields as typed and the id of the signed-in user
    as [created_by], also when it updates a meeting.  A submission that
    fails calls neither [onSuccess] nor [onOpenChange]. *)
Theorem handleSubmit_outcomes (resp : Response unit) (w : World) :
  required_filled (formData w) ->
  (failure resp = None ->
   exists row,
     emitted (handleSubmit resp) w
     = [EPreventDefault;
        match props_meeting w with
        | Some m => EUpdate "meetings" row "id" (id m)
        | None => EInsert "meetings" [row]
        end;
        EToast (mkToast "Success"
                  match props_meeting w with
                  | Some _ => "Meeting updated successfully"
                  | None => "Meeting created successfully"
                  end vDefault);
        EOnSuccess; EOnOpenChange false]
     /\ r_subject row = subject (formData w)
     /\ r_start_time row = start_time (formData w)
     /\ r_end_time row = end_time (formData w)
     /\ r_status row = status (formData w)
     /\ r_created_by row = user_id w
     /\ formData (exec (handleSubmit resp) w) = formData w)
  /\ (forall e,
        failure resp = Some e ->
        ~ In EOnSuccess (emitted (handleSubmit resp) w)
        /\ forall b, ~ In (EOnOpenChange b) (emitted (handleSubmit resp) w)).
Proof.
  intros F. split.
  - intros Ok. exists (row_of w).
    erewrite emitted_of;
      [| now apply handleSubmit_success | reflexivity].
    unfold exec. rewrite (handleSubmit_success resp w F Ok).
    unfold write_of. destruct (props_meeting w); repeat split; reflexivity.
  - intros e Fl.
    erewrite emitted_of;
      [| eapply handleSubmit_failure; eassumption | reflexivity].
    unfold write_of. split; [|intros b];
      destruct (props_meeting w);
      intros [H | [H | [H | [H | []]]]]; discriminate H.
Qed.

Lemma handleSubmit_outcomes_witness :
  let m := mkMeeting "m1" "Kickoff" None "2024-01-15T10:30" "2024-01-15T11:30"
             None None None "scheduled" in
  let w := mkWorld true (Some m) (Some "u2") false false [] []
             (mkForm "Kickoff" "" "2024-01-15T10:30" "2024-01-15T11:30" "" ""
                "" "cancelled") [] in
  let ok : Response unit := Resolved None None in
  (required_filled (formData w) /\ failure ok = None)
  /\ exists row,
       In (EUpdate "meetings" row "id" "m1") (emitted (handleSubmit ok) w)
       /\ r_created_by row = Some "u2" /\ r_status row = "cancelled".
Proof.
  intros m w ok.
  assert (F : required_filled (formData w)) by (repeat split; discriminate).
  assert (E : failure ok = None) by reflexivity.
  split; [split; assumption|].
  destruct (proj1 (handleSubmit_outcomes ok w F) E)
    as (row & Hem & _ & _ & _ & Hst & Hcb & _).
  exists row. split; [rewrite Hem; right; left; reflexivity|].
  split; [exact Hcb | exact Hst].
Defined.

End MeetingHandlersExtras.

(** ** The meeting composer: fetching and the busy flags *)

Section MeetingSessionExtras.
Import Js Eff MeetingModal MeetingSpec LinkSpec FormSpec.

(** When both queries resolve, each list is replaced by the rows received
    and kept when its response carries no data; an error reported inside
    a resolved response is neither logged nor shown.  Nothing else
    changes. *)
Theorem fetchLeadsAndContacts_resolved
    (leadsData : option (list Lead)) (leadsError : option JsError)
    (contactsData : option (list Contact)) (contactsError : option JsError)
    (w : World) :
  fetchLeadsAndContacts (Resolved leadsData leadsError)
    (Resolved contactsData contactsError) w
  = (Ok tt,
     mkWorld (open w) (props_meeting w) (user_id w) (loading w)
       (creatingTeamsMeeting w)
       (match leadsData with Some l => l | None => leads w end)
       (match contactsData with Some l => l | None => contacts w end)
       (formData w)
       (log w ++ [ESelect "leads" "id, lead_name, email" "lead_name";
                  ESelect "contacts" "id, contact_name, email" "contact_name"])).
Proof.
  unfold fetchLeadsAndContacts, try_catch, bind, emit, setLeads, setContacts,
    modify, ret. cbn.
  destruct leadsData, contactsData; cbn; now rewrite <- !app_assoc.
Qed.

Lemma fetchLeadsAndContacts_flags
    (r1 : Response (list Lead)) (r2 : Response (list Contact)) (w : World) :
  exists ls cs l,
    fetchLeadsAndContacts r1 r2 w
    = (Ok tt,
       mkWorld (open w) (props_meeting w) (user_id w) (loading w)
         (creatingTeamsMeeting w) ls cs (formData w) (log w ++ l)).
Proof.
  destruct (rejection r1 r2) as [e|] eqn:E.
  - rewrite (fetchLeadsAndContacts_rejection r1 r2 e w E). eauto.
  - destruct r1 as [e1 | d1 er1], r2 as [e2 | d2 er2]; try discriminate.
    rewrite fetchLeadsAndContacts_resolved. eauto.
Qed.

(** What the effect leaves behind, whatever it did. *)
Lemma useEffect_open_frame (tz : JsDate.TimeZone) (clock : Z)
    (r1 : Response (list Lead)) (r2 : Response (list Contact)) (w : World) :
  exists ls cs fd l,
    exec (useEffect_open tz clock r1 r2) w
    = mkWorld (open w) (props_meeting w) (user_id w) (loading w)
        (creatingTeamsMeeting w) ls cs fd (log w ++ l).
Proof.
  unfold exec, useEffect_open, bind, get. cbn.
  destruct (open w) eqn:Eo.
  - destruct (fetchLeadsAndContacts_flags r1 r2 w) as (ls & cs & l & ->).
    unfold setFormData, updFormData, modify, toISOString, bind, throw, ret.
    destruct (props_meeting w) eqn:Em; cbn.
    + rewrite Eo. eauto.
    + destruct (JsDate.setHours tz clock (JsDate.getHours tz clock + 1) 0 0 0)
        as [t|]; cbn; [|rewrite Eo; eauto].
      destruct (JsDate.TimeClip (t + 3600000)); cbn; rewrite Eo; eauto.
  - exists (leads w), (contacts w), (formData w), []. rewrite app_nil_r.
    destruct w; cbn in *. now subst.
Qed.

Lemma step_flags (tz : JsDate.TimeZone) (a : Action) (w : World) :
  loading w = false -> creatingTeamsMeeting w = false ->
  loading (exec (step tz a) w) = false
  /\ creatingTeamsMeeting (exec (step tz a) w) = false.
Proof.
  intros L C. destruct a as [o m clock r1 r2 | f v | resp | resp].
  - unfold step, exec, bind, get, setProps, modify, ret. cbn.
    destruct (deps_changed w o m); [|now split].
    destruct (useEffect_open_frame tz clock r1 r2
                (mkWorld o m (user_id w) (loading w) (creatingTeamsMeeting w)
                   (leads w) (contacts w) (formData w) (log w)))
      as (ls & cs & fd & l & E).
    unfold exec in E. rewrite E. now split.
  - now split.
  - unfold step, exec.
    destruct (blank_or_filled (formData w)) as [B | F].
    + rewrite (createTeamsMeeting_blank resp w B). now split.
    + destruct (failure resp) as [e|] eqn:E.
      * rewrite (createTeamsMeeting_failure resp e w F E). now split.
      * destruct resp as [e | d [e|]]; try discriminate.
        destruct (data_joinUrl d) as [[|c u]|] eqn:D.
        -- rewrite (createTeamsMeeting_no_link d w F); auto.
        -- rewrite (createTeamsMeeting_link d (String c u) w F D);
             [now split | discriminate].
        -- rewrite (createTeamsMeeting_no_link d w F); auto.
  - unfold step, exec.
    destruct (blank_or_filled (formData w)) as [B | F].
    + rewrite (handleSubmit_blank resp w B). now split.
    + destruct (failure resp) as [e|] eqn:E.
      * rewrite (handleSubmit_failure resp w e F E). now split.
      * rewrite (handleSubmit_success resp w F E). now split.
Qed.

(** Whatever the backend answers, a submission that passed the check of
    the required fields ends with [loading] off and a request for a link
    that passed it ends with [creatingTeamsMeeting] off; so after any
    session of renders, edits, requests and submissions that started with
    both flags off, both are off and neither button is left disabled. *)
Theorem busy_flags_released :
  (forall (resp : Response unit) (w : World),
     required_filled (formData w) ->
     loading (exec (handleSubmit resp) w) = false)
  /\ (forall (resp : Response InvokeData) (w : World),
        required_filled (formData w) ->
        creatingTeamsMeeting (exec (createTeamsMeeting resp) w) = false)
  /\ (forall (tz : JsDate.TimeZone) (actions : list Action) (w : World),
        loading w = false -> creatingTeamsMeeting w = false ->
        let v := MeetingView.render (run_session tz actions w) in
        MeetingView.submitDisabled v = false
        /\ MeetingView.teamsDisabled v = false).
Proof.
  split; [|split].
  - intros resp w F. unfold exec. destruct (failure resp) as [e|] eqn:E.
    + now rewrite (handleSubmit_failure resp w e F E).
    + now rewrite (handleSubmit_success resp w F E).
  - intros resp w F. unfold exec. destruct (failure resp) as [e|] eqn:E.
    + now rewrite (createTeamsMeeting_failure resp e w F E).
    + destruct resp as [e | d [e|]]; try discriminate.
      destruct (data_joinUrl d) as [[|c u]|] eqn:D.
      * rewrite (createTeamsMeeting_no_link d w F); auto.
      * rewrite (createTeamsMeeting_link d (String c u) w F D);
          [reflexivity | discriminate].
      * rewrite (createTeamsMeeting_no_link d w F); auto.
  - intros tz actions. induction actions as [|a actions IH]; intros w L C.
    + cbn. now split.
    + unfold run_session. cbn [fold_left].
      destruct (step_flags tz a w L C) as [L' C'].
      exact (IH _ L' C').
Qed.

Lemma busy_flags_released_witness :
  let tz : JsDate.TimeZone := fun _ _ => 0%Z in
  let w := initial None in
  let actions := [Render true None 1705308000000%Z (Rejected (mkError None))
                    (Resolved None None);
                  Change FSubject "Sync";
                  ClickCreateTeams (Rejected (mkError None));
                  Submit (Resolved None (Some (mkError (Some "denied"))))] in
  (loading w = false /\ creatingTeamsMeeting w = false)
  /\ MeetingView.submitDisabled (MeetingView.render (run_session tz actions w))
     = false
  /\ MeetingView.submitLabel (MeetingView.render (run_session tz actions w))
     = "Create".
Proof.
  intros tz w actions.
  split; [split; reflexivity|].
  split; [|reflexivity].
  exact (proj1 (proj2 (proj2 busy_flags_released) tz actions w eq_refl eq_refl)).
Defined.

End MeetingSessionExtras.

(** ** The meeting composer: editing, reopening, saving *)

Section FormExtras.
Import Js Eff MeetingModal MeetingSpec LinkSpec FormSpec.

(** An edit of a control writes the value the control stores into its own
    field and leaves the seven other fields, the lists, the flags and the
    log alone; a later edit of the same control replaces the earlier one,
    and edits of two different controls give the same form in either
    order. *)
Theorem onChange_fields (f : Field) (value : string) (w : World) :
  exec (onChange f value) w
  = mkWorld (open w) (props_meeting w) (user_id w) (loading w)
      (creatingTeamsMeeting w) (leads w) (contacts w)
      (formData (exec (onChange f value) w)) (log w)
  /\ field_value f (formData (exec (onChange f value) w)) = stored f value
  /\ (forall g, g <> f ->
        field_value g (formData (exec (onChange f value) w))
        = field_value g (formData w))
  /\ (forall value',
        exec (onChange f value') (exec (onChange f value) w)
        = exec (onChange f value') w)
  /\ (forall g value',
        g <> f ->
        exec (onChange g value') (exec (onChange f value) w)
        = exec (onChange f value) (exec (onChange g value') w)).
Proof.
  split; [reflexivity|].
  split; [destruct f; reflexivity|].
  split; [intros g Hg; destruct f, g; try reflexivity; congruence|].
  split; [intros value'; destruct f; reflexivity|].
  intros g value' Hg. destruct f, g; try reflexivity; congruence.
Qed.

Lemma onChange_fields_witness :
  let w := mkWorld true None None false false [] []
             (mkForm "Sync" "" "2024-01-15T09:00" "2024-01-15T10:00" "" "l1"
                "c1" "scheduled") [] in
  FSubject <> FLeadId
  /\ lead_id (formData (exec (onChange FLeadId "none") w)) = ""
  /\ subject (formData (exec (onChange FLeadId "none") w)) = "Sync".
Proof.
  intros w.
  assert (H : FSubject <> FLeadId) by discriminate.
  split; [exact H|].
  destruct (onChange_fields FLeadId "none" w) as (_ & H2 & H3 & _).
  split; [exact H2 | exact (H3 FSubject H)].
Defined.

(** Choosing the entry "none" of a link selector makes the next
    submission write [null] for that link, whatever was selected before.
    Every other column of the one row written is as the form had it
    before the choice: the subject, the two times and the status as
    typed, the description, the join link and the other link as typed or
    [null] when empty, and the signed-in user as [created_by].  The row
    is sent as an update of the meeting being edited, or as an insert
    when there is none. *)
Theorem none_entry_clears_link (f : Field) (w : World) (resp : Response unit) :
  required_filled (formData w) ->
  f = FLeadId \/ f = FContactId ->
  let fd := formData w in
  let row :=
    mkRow (subject fd) (or_null (description fd)) (start_time fd) (end_time fd)
      (or_null (join_url fd))
      (match f with FLeadId => None | _ => or_null (lead_id fd) end)
      (match f with FContactId => None | _ => or_null (contact_id fd) end)
      (status fd) (user_id w) in
  writes (emitted (handleSubmit resp) (exec (onChange f "none") w))
  = [match props_meeting w with
     | Some m => EUpdate "meetings" row "id" (id m)
     | None => EInsert "meetings" [row]
     end].
Proof.
  intros F Hf fd row.
  assert (F1 : required_filled (formData (exec (onChange f "none") w)))
    by (destruct Hf; subst; exact F).
  rewrite (handleSubmit_writes resp _ F1).
  destruct Hf; subst; reflexivity.
Qed.

Lemma none_entry_clears_link_witness :
  let w := mkWorld true None (Some "u1") false false [] []
             (mkForm "Sync" "" "2024-01-15T09:00" "2024-01-15T10:00" "" "l1"
                "c1" "scheduled") [] in
  (required_filled (formData w) /\ (FLeadId = FLeadId \/ FLeadId = FContactId))
  /\ writes (emitted (handleSubmit (Resolved None None))
               (exec (onChange FLeadId "none") w))
     = [EInsert "meetings"
          [mkRow "Sync" None "2024-01-15T09:00" "2024-01-15T10:00" None None
             (Some "c1") "scheduled" (Some "u1")]].
Proof.
  intros w.
  assert (F : required_filled (formData w)) by (repeat split; discriminate).
  split; [split; [exact F | now left]|].
  exact (none_entry_clears_link FLeadId w (Resolved None None) F
           (or_introl eq_refl)).
Defined.

Lemma or_null_shown (x : option string) : or_null (shown x) = through_form x.
Proof. destruct x as [[|c s]|]; reflexivity. Qed.

Lemma slice0_nonempty (s : string) : s <> "" -> slice0 16 s <> "".
Proof. destruct s; [congruence | discriminate]. Qed.

(** The world after the dialog, closed before, is rendered open with a
    record. *)
Lemma render_opens_record (tz : JsDate.TimeZone) (clock : Z)
    (r1 : Response (list Lead)) (r2 : Response (list Contact))
    (w : World) (m : Meeting) :
  open w = false ->
  exists ls cs l,
    exec (step tz (Render true (Some m) clock r1 r2)) w
    = mkWorld true (Some m) (user_id w) (loading w) (creatingTeamsMeeting w)
        ls cs (seeded_form m) (log w ++ l).
Proof.
  intros Hclosed.
  assert (Hdeps : deps_changed w true (Some m) = true)
    by (unfold deps_changed; now rewrite Hclosed).
  unfold exec, step, bind, get, setProps, modify. cbn. rewrite Hdeps.
  unfold useEffect_open, bind, get. cbn.
  match goal with
  | |- context [fetchLeadsAndContacts r1 r2 ?w0] =>
      destruct (fetchLeadsAndContacts_flags r1 r2 w0) as (ls & cs & l & ->)
  end.
  unfold setFormData, updFormData, modify. cbn.
  rewrite !opt_or_else_shown, !slice0_guard.
  assert (Est : or_else (m_status m) "scheduled"
                = if String.eqb (m_status m) "" then "scheduled" else m_status m)
    by (now destruct (m_status m)).
  assert (Esu : or_else (m_subject m) "" = m_subject m)
    by (now destruct (m_subject m)).
  rewrite Est, Esu. exists ls, cs, l. reflexivity.
Qed.

(** Opening the dialog with a record and saving at once writes the record
    back: one update of the row of that record, with the subject as it
    was, the two timestamps cut to their first sixteen characters, an
    empty optional value as [null], an empty status as "scheduled", and
    the signed-in user as [created_by]. *)
Theorem open_then_save_round_trip
    (tz : JsDate.TimeZone) (clock : Z)
    (r1 : Response (list Lead)) (r2 : Response (list Contact))
    (resp : Response unit) (w : World) (m : Meeting) :
  open w = false ->
  m_subject m <> "" -> m_start_time m <> "" -> m_end_time m <> "" ->
  let w1 := exec (step tz (Render true (Some m) clock r1 r2)) w in
  writes (emitted (handleSubmit resp) w1)
  = [EUpdate "meetings"
       (mkRow (m_subject m) (through_form (m_description m))
          (slice0 16 (m_start_time m)) (slice0 16 (m_end_time m))
          (through_form (m_join_url m)) (through_form (m_lead_id m))
          (through_form (m_contact_id m))
          (if String.eqb (m_status m) "" then "scheduled" else m_status m)
          (user_id w))
       "id" (id m)].
Proof.
  intros Hclosed Hs Hst Hen w1.
  destruct (render_opens_record tz clock r1 r2 w m Hclosed) as (ls & cs & l & E).
  fold w1 in E.
  assert (F : required_filled (formData w1)).
  { rewrite E. unfold required_filled, seeded_form. cbn.
    split; [exact Hs|]. split; now apply slice0_nonempty. }
  rewrite (handleSubmit_writes resp w1 F), E.
  unfold write_of, row_of, seeded_form. cbn.
  now rewrite !or_null_shown.
Qed.

Lemma open_then_save_round_trip_witness :
  let tz : JsDate.TimeZone := fun _ _ => 0%Z in
  let m := mkMeeting "m1" "Kickoff" (Some "") "2024-01-15T10:30:00+00:00"
             "2024-01-15T11:30:00+00:00" (Some "https://t/1") None None "" in
  let w := initial (Some "u2") in
  let w1 := exec (step tz (Render true (Some m) 1705308000000%Z
                             (Resolved None None) (Resolved None None))) w in
  (open w = false /\ m_subject m <> "" /\ m_start_time m <> ""
   /\ m_end_time m <> "")
  /\ writes (emitted (handleSubmit (Resolved None None)) w1)
     = [EUpdate "meetings"
          (mkRow "Kickoff" None "2024-01-15T10:30" "2024-01-15T11:30"
             (Some "https://t/1") None None "scheduled" (Some "u2"))
          "id" "m1"].
Proof.
  intros tz m w w1.
  assert (H0 : open w = false) by reflexivity.
  assert (H1 : m_subject m <> "") by discriminate.
  assert (H2 : m_start_time m <> "") by discriminate.
  assert (H3 : m_end_time m <> "") by discriminate.
  split; [repeat split; assumption|].
  exact (open_then_save_round_trip tz 1705308000000%Z (Resolved None None)
           (Resolved None None) (Resolved None None) w m H0 H1 H2 H3).
Defined.

End FormExtras.

(** ** The meeting composer: a new meeting, and what the button says *)

Section NewMeetingExtras.
Import Js Eff MeetingModal MeetingSpec LinkSpec FormSpec.

Lemma iso_minute_nonempty (t : Z) : JsDate.iso_minute t <> "".
Proof.
  unfold JsDate.iso_minute.
  destruct (JsDate.iso_year (JsDate.YearFromTime t)); discriminate.
Qed.

(** The world after the dialog, closed before, is rendered open without
    a record. *)
Lemma render_opens_blank (tz : JsDate.TimeZone) (clock : Z)
    (r1 : Response (list Lead)) (r2 : Response (list Contact)) (w : World) :
  open w = false ->
  (forall t b, (Z.abs (tz t b) <= JsDate.msPerDay)%Z) ->
  (year0 + 2 * JsDate.msPerDay <= clock)%Z ->
  (clock + 3 * JsDate.msPerDay <= year10000)%Z ->
  exists ls cs l,
    exec (step tz (Render true None clock r1 r2)) w
    = mkWorld true None (user_id w) (loading w) (creatingTeamsMeeting w)
        ls cs (default_form (default_start tz clock)) (log w ++ l).
Proof.
  intros Hclosed Htz Hlo Hhi.
  assert (Hdeps : deps_changed w true None = true)
    by (unfold deps_changed; now rewrite Hclosed).
  set (nextHour := next_hour (JsDate.LocalTime tz clock)).
  set (start := JsDate.UTC tz nextHour).
  pose proof (next_hour_spec (JsDate.LocalTime tz clock)) as [Hmod Hnext].
  fold nextHour in Hmod, Hnext.
  assert (Hstart : (year0 <= start /\ start + 3600000 < year10000)%Z).
  { subst start. unfold JsDate.UTC.
    pose proof (Htz nextHour false). pose proof (Htz clock true).
    unfold JsDate.LocalTime, JsDate.msPerDay, JsDate.msPerHour, year0,
      year10000 in *. lia. }
  assert (Eset : JsDate.setHours tz clock (JsDate.getHours tz clock + 1) 0 0 0
                 = Some start).
  { unfold JsDate.setHours, JsDate.getHours. rewrite MakeDate_next_hour.
    fold nextHour. fold start. unfold JsDate.TimeClip.
    replace (Z.abs start <=? 8640000000000000)%Z with true; [reflexivity|].
    symmetry. apply Z.leb_le. unfold year0, year10000 in Hstart. lia. }
  assert (Eend : JsDate.TimeClip (start + 3600000) = Some (start + 3600000)%Z).
  { unfold JsDate.TimeClip.
    replace (Z.abs (start + 3600000) <=? 8640000000000000)%Z with true;
      [reflexivity|].
    symmetry. apply Z.leb_le. unfold year0, year10000 in Hstart. lia. }
  unfold exec, step, bind, get, setProps, modify. cbn. rewrite Hdeps.
  unfold useEffect_open, bind, get. cbn.
  match goal with
  | |- context [fetchLeadsAndContacts r1 r2 ?w0] =>
      destruct (fetchLeadsAndContacts_flags r1 r2 w0) as (ls & cs & l & ->)
  end.
  rewrite Eset. cbn -[Z.mul Z.add]. rewrite Eend.
  unfold setFormData, updFormData, modify, toISOString, ret. cbn -[Z.mul Z.add].
  rewrite !slice0_toISOString by (unfold year0, year10000 in *; lia).
  exists ls, cs, l. reflexivity.
Qed.

(** A dialog opened for a new meeting has its two times filled and its
    subject empty: saving at once writes nothing, and once any subject is
    typed a save inserts one row with that subject, the two default times,
    [null] for the four optional fields, the status "scheduled" and the
    signed-in user. *)
Theorem new_meeting_needs_only_subject
    (tz : JsDate.TimeZone) (clock : Z)
    (r1 : Response (list Lead)) (r2 : Response (list Contact))
    (resp : Response unit) (w : World) :
  open w = false ->
  (forall t b, (Z.abs (tz t b) <= JsDate.msPerDay)%Z) ->
  (year0 + 2 * JsDate.msPerDay <= clock)%Z ->
  (clock + 3 * JsDate.msPerDay <= year10000)%Z ->
  let w1 := exec (step tz (Render true None clock r1 r2)) w in
  let start := default_start tz clock in
  writes (emitted (handleSubmit resp) w1) = []
  /\ forall typed,
       typed <> "" ->
       writes (emitted (handleSubmit resp) (exec (onChange FSubject typed) w1))
       = [EInsert "meetings"
            [mkRow typed None (JsDate.iso_minute start)
               (JsDate.iso_minute (start + 60 * JsDate.msPerMinute))
               None None None "scheduled" (user_id w)]].
Proof.
  intros Hclosed Htz Hlo Hhi w1 start.
  destruct (render_opens_blank tz clock r1 r2 w Hclosed Htz Hlo Hhi)
    as (ls & cs & l & E).
  fold w1 in E. split.
  - assert (B : some_blank (formData w1)) by (rewrite E; left; reflexivity).
    erewrite emitted_of; [| now apply handleSubmit_blank | reflexivity].
    reflexivity.
  - intros typed Hne.
    assert (F : required_filled (formData (exec (onChange FSubject typed) w1))).
    { rewrite E. unfold required_filled, default_form. cbn.
      split; [exact Hne|]. split; apply iso_minute_nonempty. }
    rewrite (handleSubmit_writes resp _ F), E. reflexivity.
Qed.

Lemma new_meeting_needs_only_subject_witness :
  let ist : JsDate.TimeZone := fun _ _ => 19800000%Z in
  let clock := 1705308000123%Z in
  let w := initial (Some "u1") in
  let w1 := exec (step ist (Render true None clock (Resolved None None)
                              (Resolved None None))) w in
  (open w = false
   /\ (forall t b, (Z.abs (ist t b) <= JsDate.msPerDay)%Z)
   /\ (year0 + 2 * JsDate.msPerDay <= clock)%Z
   /\ (clock + 3 * JsDate.msPerDay <= year10000)%Z
   /\ "Sync" <> "")
  /\ writes (emitted (handleSubmit (Resolved None None)) w1) = []
  /\ writes (emitted (handleSubmit (Resolved None None))
               (exec (onChange FSubject "Sync") w1))
     = [EInsert "meetings"
          [mkRow "Sync" None "2024-01-15T09:30" "2024-01-15T10:30" None None
             None "scheduled" (Some "u1")]].
Proof.
  intros ist clock w w1.
  assert (H0 : open w = false) by reflexivity.
  assert (H1 : forall t b, (Z.abs (ist t b) <= JsDate.msPerDay)%Z)
    by (intros t b; unfold ist, JsDate.msPerDay; simpl; lia).
  assert (H2 : (year0 + 2 * JsDate.msPerDay <= clock)%Z)
    by (unfold year0, JsDate.msPerDay, clock; lia).
  assert (H3 : (clock + 3 * JsDate.msPerDay <= year10000)%Z)
    by (unfold year10000, JsDate.msPerDay, clock; lia).
  assert (H4 : "Sync" <> "") by discriminate.
  split; [repeat split; assumption|].
  destruct (new_meeting_needs_only_subject ist clock (Resolved None None)
              (Resolved None None) (Resolved None None) w H0 H1 H2 H3)
    as [Ha Hb].
  split; [exact Ha|]. fold w1 in Hb. rewrite (Hb "Sync" H4). reflexivity.
Defined.

(** The title and the label of the submit button name the path a
    submission takes: "Edit Meeting" and "Update" go with an update of the
    row of the meeting in the props, "New Meeting" and "Create" with an
    insert. *)
Theorem submit_label_names_path (w : World) (resp : Response unit) :
  required_filled (formData w) -> loading w = false ->
  let v := MeetingView.render w in
  (MeetingView.submitLabel v = "Update" /\ MeetingView.title v = "Edit Meeting"
   /\ exists m row,
        props_meeting w = Some m
        /\ writes (emitted (handleSubmit resp) w)
           = [EUpdate "meetings" row "id" (id m)])
  \/ (MeetingView.submitLabel v = "Create" /\ MeetingView.title v = "New Meeting"
      /\ exists row,
           writes (emitted (handleSubmit resp) w) = [EInsert "meetings" [row]]).
Proof.
  intros F L. cbv zeta. unfold MeetingView.render. cbn. rewrite L.
  rewrite (handleSubmit_writes resp w F). unfold write_of.
  destruct (props_meeting w) as [m|].
  - left. repeat split. exists m, (row_of w). now split.
  - right. repeat split. now exists (row_of w).
Qed.

Lemma submit_label_names_path_witness :
  let m := mkMeeting "m1" "Kickoff" None "2024-01-15T10:30" "2024-01-15T11:30"
             None None None "scheduled" in
  let w := mkWorld true (Some m) None false false [] []
             (mkForm "Kickoff" "" "2024-01-15T10:30" "2024-01-15T11:30" "" ""
                "" "scheduled") [] in
  (required_filled (formData w) /\ loading w = false)
  /\ MeetingView.submitLabel (MeetingView.render w) = "Update"
  /\ exists row,
       writes (emitted (handleSubmit (Rejected (mkError None))) w)
       = [EUpdate "meetings" row "id" "m1"].
Proof.
  intros m w.
  assert (F : required_filled (formData w)) by (repeat split; discriminate).
  assert (L : loading w = false) by reflexivity.
  split; [split; assumption|].
  destruct (submit_label_names_path w (Rejected (mkError None)) F L)
    as [(H1 & _ & m' & row & Hm & Hw) | (H1 & _)].
  - split; [exact H1|]. exists row. injection Hm as <-. exact Hw.
  - discriminate H1.
Defined.

End NewMeetingExtras.

(** ** The meeting composer: the attendees *)

Section AttendeesExtras.
Import Js Eff MeetingModal MeetingSpec LinkSpec.

(** The attendees sent to the remote function are at most two, the lead
    before the contact, none of them with an empty address; with neither
    a lead nor a contact selected the call still goes out, with an empty
    list of attendees. *)
Theorem attendees_shape (w : World) (resp : Response InvokeData) :
  required_filled (formData w) ->
  exists attendees,
    invokes (emitted (createTeamsMeeting resp) w)
    = [EInvoke "create-teams-meeting"
         (mkBody (subject (formData w)) attendees
            (start_time (formData w)) (end_time (formData w)))]
    /\ List.length attendees <= 2
    /\ (forall a, In a attendees -> a_email a <> "")
    /\ (forall a b rest, attendees = a :: b :: rest ->
          selected_lead w a /\ selected_contact w b /\ rest = [])
    /\ (lead_id (formData w) = "" -> contact_id (formData w) = "" ->
        attendees = []).
Proof.
  intros F. exists (gatherAttendees w).
  split.
  { destruct (failure resp) as [e|] eqn:Fl.
    - erewrite emitted_of;
        [| eapply createTeamsMeeting_failure; eassumption | reflexivity].
      reflexivity.
    - destruct resp as [e | d [e|]]; try discriminate.
      destruct (data_joinUrl d) as [[|c u]|] eqn:D.
      + erewrite emitted_of;
          [| apply createTeamsMeeting_no_link; auto | reflexivity]. reflexivity.
      + erewrite emitted_of;
          [| apply (createTeamsMeeting_link d (String c u)); auto; discriminate
           | reflexivity]. reflexivity.
      + erewrite emitted_of;
          [| apply createTeamsMeeting_no_link; auto | reflexivity]. reflexivity. }
  split; [|split; [|split]].
  - unfold gatherAttendees.
    repeat match goal with
           | |- context [match ?x with _ => _ end] => destruct x
           end; cbn; lia.
  - intros a Ha. apply gatherAttendees_selected in Ha.
    destruct Ha as [(l & _ & _ & _ & H & _) | (c & _ & _ & _ & H & _)]; exact H.
  - intros a b rest E.
    assert (Ha : In a (gatherAttendees w)) by (rewrite E; now left).
    assert (Hb : In b (gatherAttendees w)) by (rewrite E; right; now left).
    revert E Ha Hb. unfold gatherAttendees.
    set (fl := find _ (leads w)). set (fc := find _ (contacts w)).
    destruct (truthy (lead_id (formData w))) eqn:Tl;
      destruct (truthy (contact_id (formData w))) eqn:Tc;
      destruct fl as [l|] eqn:El;
      destruct fc as [c|] eqn:Ec;
      try destruct (l_email l) as [el|] eqn:Eel;
      try destruct (c_email c) as [ec|] eqn:Eec;
      try destruct (truthy el) eqn:Tel;
      try destruct (truthy ec) eqn:Tec;
      cbn; intros E; try discriminate E.
    injection E as <- <- <-. intros _ _.
    apply truthy_true in Tl, Tc, Tel, Tec.
    split; [exists l; now repeat split|].
    split; [exists c; now repeat split | reflexivity].
  - intros Hl Hc. unfold gatherAttendees. now rewrite Hl, Hc.
Qed.

Lemma attendees_shape_witness :
  let w := mkWorld true None None false false
             [mkLead "l1" "Lea" (Some "lea@x.io")] []
             (mkForm "Sync" "" "2024-01-15T09:00" "2024-01-15T10:00" "" ""
                "" "scheduled") [] in
  (required_filled (formData w) /\ lead_id (formData w) = ""
   /\ contact_id (formData w) = "")
  /\ invokes (emitted (createTeamsMeeting (Resolved None None)) w)
     = [EInvoke "create-teams-meeting"
          (mkBody "Sync" [] "2024-01-15T09:00" "2024-01-15T10:00")].
Proof.
  intros w.
  assert (F : required_filled (formData w)) by (repeat split; discriminate).
  split; [split; [exact F | split; reflexivity]|].
  destruct (attendees_shape w (Resolved None None) F)
    as (attendees & Hi & _ & _ & _ & He).
  rewrite Hi, (He eq_refl eq_refl). reflexivity.
Defined.

End AttendeesExtras.

(** ** The bulk actions bar *)

Section BulkActionsBarFacts.
Import BulkActionsBar.

(** The bar renders nothing exactly when nothing is selected.  When it
    renders, the headline says "item" for one and "items" for more, and
    the buttons are Export, Delete and Cancel, wired to [onExport],
    [onDelete] and [onClearSelection], one callback each. *)
Theorem bar_renders_iff_selected (selectedCount : nat) :
  (render selectedCount = None <-> selectedCount = 0)
  /\ (forall v,
        render selectedCount = Some v ->
        map (fun b => (caption b, onClick b)) (buttons v)
        = [("Export", onExport); ("Delete", onDelete);
           ("Cancel", onClearSelection)]
        /\ NoDup (map onClick (buttons v))
        /\ (selectedCount = 1 -> headline v = "1 item selected")
        /\ (2 <= selectedCount ->
            headline v = decimal selectedCount ++ " items selected")).
Proof.
  split.
  - unfold render. destruct (Nat.eqb_spec selectedCount 0) as [->|N].
    + now split.
    + split; [discriminate | intros E; contradiction].
  - intros v. unfold render.
    destruct (Nat.eqb_spec selectedCount 0) as [->|N]; [discriminate|].
    intros E. injection E as <-. cbn [buttons headline map caption onClick].
    split; [reflexivity|]. split.
    + repeat (constructor; [cbn; intros H;
        repeat (destruct H as [H | H]; [discriminate H|]); exact H|]).
      constructor.
    + split.
      * intros ->. reflexivity.
      * intros H2. destruct (Nat.eqb_spec selectedCount 1) as [->|_]; [lia|].
        reflexivity.
Qed.

Lemma bar_renders_iff_selected_witness :
  (exists v, render 12 = Some v) /\ 2 <= 12
  /\ forall v, render 12 = Some v -> headline v = "12 items selected".
Proof.
  split; [eexists; reflexivity|]. split; [lia|].
  intros v Hv.
  destruct (proj2 (bar_renders_iff_selected 12) v Hv) as (_ & _ & _ & H).
  rewrite (H ltac:(lia)). reflexivity.
Defined.

End BulkActionsBarFacts.

(** ** The e-mail composer: from a template to the link *)

Section SelectThenSend.
Import Js Eff SendEmailModal LinkSpec.

(** Selecting a template and sending at once opens the mail link built
    from the template with the contact's values filled in: the address of
    the contact, and the substituted subject and body, urlencoded. *)
Theorem select_then_send
    (w : World) (c : Contact) (address : string) (t : EmailTemplate) :
  contact w = Some c -> email c = Some address -> address <> "" ->
  id t <> "none" ->
  find (fun x => String.eqb (id x) (id t)) (templates w) = Some t ->
  emitted handleSendEmail (exec (handleTemplateSelect (id t)) w)
  = [EWindowOpen
       (mailto address (replaceVariables (t_subject t) (Some c))
          (replaceVariables (t_body t) (Some c))) "_blank";
     EToast (mkToast "Email Client Opened"
               "Your default email client should open with the pre-filled template"
               vDefault);
     EOnOpenChange false].
Proof.
  intros Hc He Hne Hid Hf.
  rewrite (handleTemplateSelect_found w (id t) t Hid Hf), Hc.
  exact (handleSendEmail_opens
           (mkWorld (open w) (Some c) (templates w) (id t)
              (replaceVariables (t_subject t) (Some c))
              (replaceVariables (t_body t) (Some c)) (log w))
           c address eq_refl He Hne).
Qed.

Lemma select_then_send_witness :
  let c := mkContact "Jane Doe" (Some "Acme & Co") None (Some "jane@acme.io") in
  let t := mkTemplate "t1" "Intro" "Hello {{contact_name}}"
             "News for {{company_name}}" in
  let w := mkWorld true (Some c) [t] "" "" "" [] in
  (contact w = Some c /\ email c = Some "jane@acme.io" /\ "jane@acme.io" <> ""
   /\ id t <> "none"
   /\ find (fun x => String.eqb (id x) (id t)) (templates w) = Some t)
  /\ emitted handleSendEmail (exec (handleTemplateSelect "t1") w)
     = [EWindowOpen
          "mailto:jane@acme.io?subject=Hello+Jane+Doe&body=News+for+Acme+%26+Co"
          "_blank";
        EToast (mkToast "Email Client Opened"
                  "Your default email client should open with the pre-filled template"
                  vDefault);
        EOnOpenChange false].
Proof.
  intros c t w.
  assert (H1 : contact w = Some c) by reflexivity.
  assert (H2 : email c = Some "jane@acme.io") by reflexivity.
  assert (H3 : "jane@acme.io" <> "") by discriminate.
  assert (H4 : id t <> "none") by discriminate.
  assert (H5 : find (fun x => String.eqb (id x) (id t)) (templates w) = Some t)
    by reflexivity.
  split; [repeat split; assumption|].
  change "t1" with (id t).
  rewrite (select_then_send w c "jane@acme.io" t H1 H2 H3 H4 H5). reflexivity.
Defined.

End SelectThenSend.
